(** * RTSP to DASH streamer: the failover orchestrator of
      [src/rtsp-dash-streamer.cpp]

    The class [RTSPDashStreamer] drives a GStreamer pipeline from a GLib
    main loop.  GStreamer and GLib are external to the repository; they are
    modelled here as a [World]: the objects created so far, the chronological
    trace of the calls made into the engine together with their results, the
    keyed data attached to objects, the selector's [active-pad] property, the
    sources attached to the main context and a clock counting seconds.
    Whether a fallible engine call succeeds is decided by an [Engine] oracle
    indexed by the position of the call in the trace, so that every pattern
    of engine failures is covered.

    Member functions of the class become functions of the state monad [M]
    over [State] (the object's fields and the world).  Console output
    ([g_print], [g_printerr], [std::cout]) and the reference counts of pads
    are not modelled. *)

From stdpp Require Import base strings list gmap.
From Stdlib Require Import ZArith Lia.

Set Default Proof Using "Type".
Open Scope string_scope.
Open Scope list_scope.

(** ** Engine vocabulary *)

(** Addresses of the objects handed out by the engine.  A nullable C pointer
    is an [option handle]; [nullptr] is [None]. *)
Definition handle := nat.

Inductive GstState :=
| GST_STATE_VOID_PENDING
| GST_STATE_NULL
| GST_STATE_READY
| GST_STATE_PAUSED
| GST_STATE_PLAYING.

(** Numeric value of the C enumerator, used by [new_state < GST_STATE_PLAYING]. *)
Definition state_value (st : GstState) : nat :=
  match st with
  | GST_STATE_VOID_PENDING => 0
  | GST_STATE_NULL => 1
  | GST_STATE_READY => 2
  | GST_STATE_PAUSED => 3
  | GST_STATE_PLAYING => 4
  end.

Inductive GstStateChangeReturn :=
| GST_STATE_CHANGE_FAILURE
| GST_STATE_CHANGE_SUCCESS
| GST_STATE_CHANGE_ASYNC
| GST_STATE_CHANGE_NO_PREROLL.

(** A pad is identified by the element that owns it and by its name: static
    pads by their fixed name, request pads ([sink_%u], [src_%u]) by their
    index, and the pads rtspsrc exposes after negotiation by the stream
    number. *)
Inductive Pad :=
| StaticPad (owner : handle) (name : string)
| RequestPad (owner : handle) (index : nat)
| StreamPad (owner : handle) (stream : nat).

(** The two timeout callbacks of the class. *)
Inductive Callback :=
| switch_to_rtsp_delayed_cb
| reconnect_rtsp_source_cb.

Inductive Value :=
| VString (s : string)
| VInt (z : Z)
| VUInt64 (z : Z)
| VBool (b : bool)
| VCaps (media format : string) (width height : Z) (fps_num fps_den : Z)
| VPad (p : Pad).

(** Calls into GStreamer and GLib, as they appear in the source. *)
Inductive Call :=
| PipelineNew (name : string)
| FactoryMake (factory : string) (name : option string)
| ObjectSet (obj : handle) (props : list (string * Value))
| ObjectSetData (obj : handle) (key : string) (p : option Pad)
| BinAddMany (bin : handle) (es : list handle)
| ElementLink (a b : handle)
| ElementLinkMany (es : list handle)
| GetStaticPad (e : handle) (name : string)
| GetRequestPad (e : handle) (template : string)
| PadLink (src sink : option Pad)
| SyncStateWithParent (e : handle)
| SetState (e : handle) (st : GstState)
| GetState (e : handle)
| PipelineGetBus (p : handle)
| BusAddWatch (bus : handle)
| SignalConnect (e : handle) (signal : string)
| MainLoopNew
| MainLoopQuit
| MainLoopUnref
| TimeoutAddSeconds (seconds : nat) (cb : Callback)
| SourceRemove (id : nat)
| ObjectUnref (obj : handle).

Inductive Result :=
| RUnit
| RBool (b : bool)
| RHandle (h : option handle)
| RPad (p : option Pad)
| RStateChange (r : GstStateChangeReturn)
| RSourceId (id : nat).

Definition Entry : Type := Call * Result.

#[global] Instance GstState_eq_dec : EqDecision GstState.
Proof. solve_decision. Defined.
#[global] Instance GstStateChangeReturn_eq_dec : EqDecision GstStateChangeReturn.
Proof. solve_decision. Defined.
#[global] Instance Pad_eq_dec : EqDecision Pad.
Proof. solve_decision. Defined.
#[global] Instance Callback_eq_dec : EqDecision Callback.
Proof. solve_decision. Defined.
#[global] Instance Value_eq_dec : EqDecision Value.
Proof. solve_decision. Defined.
#[global] Instance Call_eq_dec : EqDecision Call.
Proof. solve_decision. Defined.
#[global] Instance Result_eq_dec : EqDecision Result.
Proof. solve_decision. Defined.

(** ** The world: engine and main-context state *)

(** A source attached to the GLib main context: the bus watch or a timeout.
    [src_due] is the second at which a timeout becomes ready. *)
Inductive SourceKind :=
| BusWatch
| Timeout (cb : Callback) (interval : nat).

Record Source := mkSource {
  src_id : nat;
  src_kind : SourceKind;
  src_due : nat
}.

(** The answers of the engine.  [eng_ok n] tells whether the fallible call
    logged at position [n] of the trace succeeds, [eng_state n] is the value
    returned by a state change or state query logged there. *)
Record Engine := mkEngine {
  eng_ok : nat -> bool;
  eng_state : nat -> GstStateChangeReturn
}.

Record World := mkWorld {
  w_elements : list (string * option string);
  w_trace : list Entry;
  w_qdata : gmap (handle * string) Pad;
  w_active_pad : option Pad;
  w_sources : list Source;
  w_next_source : nat;
  w_now : nat;
  w_quit : bool
}.

Definition empty_world : World :=
  mkWorld [] [] ∅ None [] 1 0 false.

(** ** The object *)

Record Streamer := mkStreamer {
  pipeline : option handle;
  rtsp_src : option handle;
  dummy_src : option handle;
  input_selector : option handle;
  tee : option handle;
  dash_sink_fullhd : option handle;
  dash_sink_hd : option handle;
  bus : option handle;
  loop : option unit;
  bus_watch_id : nat;
  reconnect_timeout_id : nat;
  rtsp_uri : string;
  output_path : string;
  is_rtsp_connected : bool;
  tee_linked : bool
}.

Record State := mkState {
  self : Streamer;
  world : World
}.

(** The constructor's member initialiser list. *)
Definition RTSPDashStreamer (uri output : string) : Streamer :=
  mkStreamer None None None None None None None None None 0 0 uri output false false.

Definition fresh (uri output : string) : State :=
  mkState (RTSPDashStreamer uri output) empty_world.

(** Field updates of the object. *)
Definition set_pipeline (v : option handle) (t : Streamer) : Streamer :=
  mkStreamer v (rtsp_src t) (dummy_src t) (input_selector t) (tee t)
    (dash_sink_fullhd t) (dash_sink_hd t) (bus t) (loop t) (bus_watch_id t)
    (reconnect_timeout_id t) (rtsp_uri t) (output_path t) (is_rtsp_connected t)
    (tee_linked t).
Definition set_rtsp_src (v : option handle) (t : Streamer) : Streamer :=
  mkStreamer (pipeline t) v (dummy_src t) (input_selector t) (tee t)
    (dash_sink_fullhd t) (dash_sink_hd t) (bus t) (loop t) (bus_watch_id t)
    (reconnect_timeout_id t) (rtsp_uri t) (output_path t) (is_rtsp_connected t)
    (tee_linked t).
Definition set_dummy_src (v : option handle) (t : Streamer) : Streamer :=
  mkStreamer (pipeline t) (rtsp_src t) v (input_selector t) (tee t)
    (dash_sink_fullhd t) (dash_sink_hd t) (bus t) (loop t) (bus_watch_id t)
    (reconnect_timeout_id t) (rtsp_uri t) (output_path t) (is_rtsp_connected t)
    (tee_linked t).
Definition set_input_selector (v : option handle) (t : Streamer) : Streamer :=
  mkStreamer (pipeline t) (rtsp_src t) (dummy_src t) v (tee t)
    (dash_sink_fullhd t) (dash_sink_hd t) (bus t) (loop t) (bus_watch_id t)
    (reconnect_timeout_id t) (rtsp_uri t) (output_path t) (is_rtsp_connected t)
    (tee_linked t).
Definition set_tee (v : option handle) (t : Streamer) : Streamer :=
  mkStreamer (pipeline t) (rtsp_src t) (dummy_src t) (input_selector t) v
    (dash_sink_fullhd t) (dash_sink_hd t) (bus t) (loop t) (bus_watch_id t)
    (reconnect_timeout_id t) (rtsp_uri t) (output_path t) (is_rtsp_connected t)
    (tee_linked t).
Definition set_dash_sink_fullhd (v : option handle) (t : Streamer) : Streamer :=
  mkStreamer (pipeline t) (rtsp_src t) (dummy_src t) (input_selector t) (tee t)
    v (dash_sink_hd t) (bus t) (loop t) (bus_watch_id t)
    (reconnect_timeout_id t) (rtsp_uri t) (output_path t) (is_rtsp_connected t)
    (tee_linked t).
Definition set_dash_sink_hd (v : option handle) (t : Streamer) : Streamer :=
  mkStreamer (pipeline t) (rtsp_src t) (dummy_src t) (input_selector t) (tee t)
    (dash_sink_fullhd t) v (bus t) (loop t) (bus_watch_id t)
    (reconnect_timeout_id t) (rtsp_uri t) (output_path t) (is_rtsp_connected t)
    (tee_linked t).
Definition set_bus (v : option handle) (t : Streamer) : Streamer :=
  mkStreamer (pipeline t) (rtsp_src t) (dummy_src t) (input_selector t) (tee t)
    (dash_sink_fullhd t) (dash_sink_hd t) v (loop t) (bus_watch_id t)
    (reconnect_timeout_id t) (rtsp_uri t) (output_path t) (is_rtsp_connected t)
    (tee_linked t).
Definition set_loop (v : option unit) (t : Streamer) : Streamer :=
  mkStreamer (pipeline t) (rtsp_src t) (dummy_src t) (input_selector t) (tee t)
    (dash_sink_fullhd t) (dash_sink_hd t) (bus t) v (bus_watch_id t)
    (reconnect_timeout_id t) (rtsp_uri t) (output_path t) (is_rtsp_connected t)
    (tee_linked t).
Definition set_bus_watch_id (v : nat) (t : Streamer) : Streamer :=
  mkStreamer (pipeline t) (rtsp_src t) (dummy_src t) (input_selector t) (tee t)
    (dash_sink_fullhd t) (dash_sink_hd t) (bus t) (loop t) v
    (reconnect_timeout_id t) (rtsp_uri t) (output_path t) (is_rtsp_connected t)
    (tee_linked t).
Definition set_reconnect_timeout_id (v : nat) (t : Streamer) : Streamer :=
  mkStreamer (pipeline t) (rtsp_src t) (dummy_src t) (input_selector t) (tee t)
    (dash_sink_fullhd t) (dash_sink_hd t) (bus t) (loop t) (bus_watch_id t)
    v (rtsp_uri t) (output_path t) (is_rtsp_connected t) (tee_linked t).
Definition set_is_rtsp_connected (v : bool) (t : Streamer) : Streamer :=
  mkStreamer (pipeline t) (rtsp_src t) (dummy_src t) (input_selector t) (tee t)
    (dash_sink_fullhd t) (dash_sink_hd t) (bus t) (loop t) (bus_watch_id t)
    (reconnect_timeout_id t) (rtsp_uri t) (output_path t) v (tee_linked t).

(** Updates of the world. *)
Definition log (c : Call) (r : Result) (w : World) : World :=
  mkWorld (w_elements w) (w_trace w ++ [(c, r)]) (w_qdata w) (w_active_pad w)
    (w_sources w) (w_next_source w) (w_now w) (w_quit w).
Definition add_element (factory : string) (name : option string) (w : World) : World :=
  mkWorld (w_elements w ++ [(factory, name)]) (w_trace w) (w_qdata w)
    (w_active_pad w) (w_sources w) (w_next_source w) (w_now w) (w_quit w).
Definition set_qdata (q : gmap (handle * string) Pad) (w : World) : World :=
  mkWorld (w_elements w) (w_trace w) q (w_active_pad w) (w_sources w)
    (w_next_source w) (w_now w) (w_quit w).
Definition set_active (p : option Pad) (w : World) : World :=
  mkWorld (w_elements w) (w_trace w) (w_qdata w) p (w_sources w)
    (w_next_source w) (w_now w) (w_quit w).
Definition set_sources (l : list Source) (w : World) : World :=
  mkWorld (w_elements w) (w_trace w) (w_qdata w) (w_active_pad w) l
    (w_next_source w) (w_now w) (w_quit w).
Definition attach (k : SourceKind) (delay : nat) (w : World) : World :=
  mkWorld (w_elements w) (w_trace w) (w_qdata w) (w_active_pad w)
    (w_sources w ++ [mkSource (w_next_source w) k (w_now w + delay)])
    (S (w_next_source w)) (w_now w) (w_quit w).
Definition advance_clock (w : World) : World :=
  mkWorld (w_elements w) (w_trace w) (w_qdata w) (w_active_pad w) (w_sources w)
    (w_next_source w) (S (w_now w)) (w_quit w).
Definition request_quit (w : World) : World :=
  mkWorld (w_elements w) (w_trace w) (w_qdata w) (w_active_pad w) (w_sources w)
    (w_next_source w) (w_now w) true.

(** ** The state monad *)

Definition M (A : Type) : Type := State -> A * State.

#[global] Instance M_ret : MRet M := λ A a s, (a, s).
#[global] Instance M_bind : MBind M :=
  λ A B k m s, let (a, s') := m s in k a s'.

Definition get {A} (f : Streamer -> A) : M A := λ s, (f (self s), s).
Definition put (f : Streamer -> Streamer) : M unit :=
  λ s, (tt, mkState (f (self s)) (world s)).
Definition observe {A} (f : World -> A) : M A := λ s, (f (world s), s).
Definition effect (f : World -> World) : M unit :=
  λ s, (tt, mkState (self s) (f (world s))).

Definition exec {A} (m : M A) (s : State) : State := (m s).2.
Definition eval {A} (m : M A) (s : State) : A := (m s).1.

(** ** Engine primitives

    A call on a null object is rejected by the library's precondition check:
    it has no effect and returns the failure value. *)

Definition answer (E : Engine) : M bool :=
  observe (λ w, eng_ok E (length (w_trace w))).
Definition answer_state (E : Engine) : M GstStateChangeReturn :=
  observe (λ w, eng_state E (length (w_trace w))).

Definition new_object (E : Engine) (c : Call) (factory : string)
    (name : option string) : M (option handle) :=
  ok ← answer E;
  if ok : bool then
    h ← observe (λ w, length (w_elements w));
    effect (add_element factory name);;
    effect (log c (RHandle (Some h)));;
    mret (Some h)
  else
    effect (log c (RHandle None));;
    mret None.

Definition gst_pipeline_new (E : Engine) (name : string) : M (option handle) :=
  new_object E (PipelineNew name) "pipeline" (Some name).

Definition gst_element_factory_make (E : Engine) (factory : string)
    (name : option string) : M (option handle) :=
  new_object E (FactoryMake factory name) factory name.

(** The only property the orchestrator ever reads back through the engine is
    the selector's [active-pad]; the other properties live in the trace. *)
Fixpoint active_pad_of (props : list (string * Value)) (old : option Pad) : option Pad :=
  match props with
  | [] => old
  | (k, VPad p) :: rest =>
      active_pad_of rest (if decide (k = "active-pad") then Some p else old)
  | _ :: rest => active_pad_of rest old
  end.

Definition g_object_set (obj : option handle) (props : list (string * Value)) : M unit :=
  match obj with
  | None => mret tt
  | Some o =>
      effect (λ w, set_active (active_pad_of props (w_active_pad w)) w);;
      effect (log (ObjectSet o props) RUnit)
  end.

Definition g_object_set_data (obj : option handle) (key : string)
    (p : option Pad) : M unit :=
  match obj with
  | None => mret tt
  | Some o =>
      effect (λ w, set_qdata (match p with
                              | Some d => <[(o, key) := d]> (w_qdata w)
                              | None => delete (o, key) (w_qdata w)
                              end) w);;
      effect (log (ObjectSetData o key p) RUnit)
  end.

Definition g_object_get_data (obj : option handle) (key : string) : M (option Pad) :=
  match obj with
  | None => mret None
  | Some o => observe (λ w, w_qdata w !! (o, key))
  end.

Fixpoint all_present (es : list (option handle)) : option (list handle) :=
  match es with
  | [] => Some []
  | Some h :: rest =>
      match all_present rest with Some l => Some (h :: l) | None => None end
  | None :: _ => None
  end.

Definition gst_bin_add_many (bin : option handle) (es : list (option handle)) : M unit :=
  match bin, all_present es with
  | Some b, Some l => effect (log (BinAddMany b l) RUnit)
  | _, _ => mret tt
  end.

Definition fallible (E : Engine) (c : Call) : M bool :=
  ok ← answer E;
  effect (log c (RBool ok));;
  mret ok.

Definition gst_element_link (E : Engine) (a b : option handle) : M bool :=
  match a, b with
  | Some x, Some y => fallible E (ElementLink x y)
  | _, _ => mret false
  end.

Definition gst_element_link_many (E : Engine) (es : list (option handle)) : M bool :=
  match all_present es with
  | Some l => fallible E (ElementLinkMany l)
  | None => mret false
  end.

Definition gst_element_get_static_pad (E : Engine) (e : option handle)
    (name : string) : M (option Pad) :=
  match e with
  | None => mret None
  | Some h =>
      ok ← answer E;
      let r := if ok : bool then Some (StaticPad h name) else None in
      effect (log (GetStaticPad h name) (RPad r));;
      mret r
  end.

Definition is_request_of (e : handle) (en : Entry) : bool :=
  match en with
  | (GetRequestPad e' _, RPad (Some _)) => bool_decide (e' = e)
  | _ => false
  end.

(** Number of request pads an element has handed out so far: the index of
    the next [sink_%u] or [src_%u] pad. *)
Definition request_pads (e : handle) (tr : list Entry) : nat :=
  length (filter (λ en, is_request_of e en) tr).

Definition gst_element_get_request_pad (E : Engine) (e : option handle)
    (template : string) : M (option Pad) :=
  match e with
  | None => mret None
  | Some h =>
      ok ← answer E;
      n ← observe (λ w, request_pads h (w_trace w));
      let r := if ok : bool then Some (RequestPad h n) else None in
      effect (log (GetRequestPad h template) (RPad r));;
      mret r
  end.

(** [gst_pad_link(src, sink) == GST_PAD_LINK_OK]. *)
Definition gst_pad_link (E : Engine) (src sink : option Pad) : M bool :=
  match src, sink with
  | Some _, Some _ => fallible E (PadLink src sink)
  | _, _ => mret false
  end.

Definition gst_element_sync_state_with_parent (E : Engine) (e : option handle) : M bool :=
  match e with
  | Some h => fallible E (SyncStateWithParent h)
  | None => mret false
  end.

Definition state_call (E : Engine) (c : Call) : M GstStateChangeReturn :=
  r ← answer_state E;
  effect (log c (RStateChange r));;
  mret r.

Definition gst_element_set_state (E : Engine) (e : option handle)
    (st : GstState) : M GstStateChangeReturn :=
  match e with
  | Some h => state_call E (SetState h st)
  | None => mret GST_STATE_CHANGE_FAILURE
  end.

(** [gst_element_get_state(e, NULL, NULL, GST_CLOCK_TIME_NONE)]: blocks until
    the element's pending state change has completed. *)
Definition gst_element_get_state (E : Engine) (e : option handle) : M GstStateChangeReturn :=
  match e with
  | Some h => state_call E (GetState h)
  | None => mret GST_STATE_CHANGE_FAILURE
  end.

Definition gst_pipeline_get_bus (p : option handle) : M (option handle) :=
  match p with
  | Some h => effect (log (PipelineGetBus h) (RHandle (Some h)));; mret (Some h)
  | None => mret None
  end.

(** Attaching a source to the main context returns its identifier, which is
    positive and differs from every identifier handed out before. *)
Definition attach_source (c : Call) (k : SourceKind) (delay : nat) : M nat :=
  id ← observe w_next_source;
  effect (attach k delay);;
  effect (log c (RSourceId id));;
  mret id.

Definition gst_bus_add_watch (b : option handle) : M nat :=
  match b with
  | Some h => attach_source (BusAddWatch h) BusWatch 0
  | None => mret 0
  end.

Definition g_timeout_add_seconds (seconds : nat) (cb : Callback) : M nat :=
  attach_source (TimeoutAddSeconds seconds cb) (Timeout cb seconds) seconds.

Definition has_id (id : nat) (src : Source) : bool := bool_decide (src_id src = id).

Definition detach (id : nat) (l : list Source) : list Source :=
  filter (λ src, src_id src ≠ id) l.

Definition g_source_remove (id : nat) : M unit :=
  found ← observe (λ w, existsb (has_id id) (w_sources w));
  effect (λ w, set_sources (detach id (w_sources w)) w);;
  effect (log (SourceRemove id) (RBool found)).

Definition g_signal_connect (e : option handle) (signal : string) : M unit :=
  match e with
  | Some h => effect (log (SignalConnect h signal) RUnit)
  | None => mret tt
  end.

Definition g_main_loop_new : M (option unit) :=
  effect (log MainLoopNew RUnit);; mret (Some tt).

Definition g_main_loop_quit : M unit :=
  effect request_quit;; effect (log MainLoopQuit RUnit).

Definition gst_object_unref (o : option handle) : M unit :=
  match o with
  | Some h => effect (log (ObjectUnref h) RUnit)
  | None => mret tt
  end.

Definition g_main_loop_unref : M unit := effect (log MainLoopUnref RUnit).

(** ** Events delivered to the orchestrator *)

(** A bus message with the object that posted it ([GST_MESSAGE_SRC]). *)
Inductive GstMessage :=
| GST_MESSAGE_ERROR (src : option handle)
| GST_MESSAGE_EOS (src : option handle)
| GST_MESSAGE_STATE_CHANGED (src : option handle) (old_state new_state : GstState)
| GST_MESSAGE_OTHER (src : option handle).

(** What [connect_rtsp_pad] reads from the caps of a new pad: the name of
    the first structure and its [media] field, when it has one. *)
Record PadCaps := mkPadCaps {
  caps_name : string;
  caps_media : option string
}.

Inductive Event :=
| BusMessage (m : GstMessage)
| PadAdded (pad : Pad) (caps : option PadCaps)
| NoMorePads
| TimeoutReady (id : nat)
| Second
| Signal.

Definition is_null {A} (o : option A) : bool :=
  match o with None => true | Some _ => false end.

Definition raw_caps (width height : Z) : Value :=
  VCaps "video/x-raw" "I420" width height 25 1.

(** ** Member functions of [RTSPDashStreamer] *)

Section Orchestrator.

Variable E : Engine.

Definition connect_dummy_source : M bool :=
  dummy_convert ← gst_element_factory_make E "videoconvert" (Some "dummy-convert");
  dummy_caps ← gst_element_factory_make E "capsfilter" (Some "dummy-caps");
  if is_null dummy_caps || is_null dummy_convert then mret false else
  g_object_set dummy_caps [("caps", raw_caps 1920 1080)];;
  p ← get pipeline;
  gst_bin_add_many p [dummy_convert; dummy_caps];;
  dsrc ← get dummy_src;
  linked ← gst_element_link_many E [dsrc; dummy_convert; dummy_caps];
  if negb linked then mret false else
  dummy_pad ← gst_element_get_static_pad E dummy_caps "src";
  sel ← get input_selector;
  selector_pad ← gst_element_get_request_pad E sel "sink_%u";
  ok ← gst_pad_link E dummy_pad selector_pad;
  if negb ok then mret false else
  g_object_set_data sel "dummy-pad" selector_pad;;
  mret true.

Definition create_dash_pipeline (quality : string) (width height bitrate : Z) : M bool :=
  let sink_name := "dash-sink-" +:+ quality in
  let enc_name := "encoder-" +:+ quality in
  let scale_name := "scale-" +:+ quality in
  let rate_name := "rate-" +:+ quality in
  let parse_name := "parse-" +:+ quality in
  let queue_name := "queue-" +:+ quality in
  queue ← gst_element_factory_make E "queue" (Some queue_name);
  videoconvert ← gst_element_factory_make E "videoconvert" None;
  videoscale ← gst_element_factory_make E "videoscale" (Some scale_name);
  videorate ← gst_element_factory_make E "videorate" (Some rate_name);
  capsfilter ← gst_element_factory_make E "capsfilter" None;
  encoder ← gst_element_factory_make E "openh264enc" (Some enc_name);
  h264parse ← gst_element_factory_make E "h264parse" (Some parse_name);
  dash_sink ← gst_element_factory_make E "dashsink" (Some sink_name);
  if is_null queue || is_null videoconvert || is_null videoscale
     || is_null videorate || is_null capsfilter || is_null encoder
     || is_null h264parse || is_null dash_sink
  then mret false else
  g_object_set capsfilter [("caps", raw_caps width height)];;
  g_object_set encoder [("bitrate", VInt bitrate)];;
  let manifest_path := "./manifest.mpd" in
  out ← get output_path;
  g_object_set dash_sink
    [("mpd-filename", VString manifest_path);
     ("muxer", VInt 0);
     ("target-duration", VInt 4);
     ("use-segment-list", VBool true);
     ("mpd-baseurl", VString "./");
     ("mpd-root-path", VString out);
     ("send-keyframe-requests", VBool true)];;
  p ← get pipeline;
  gst_bin_add_many p
    [queue; videoconvert; videoscale; videorate; capsfilter; encoder;
     h264parse; dash_sink];;
  linked ← gst_element_link_many E
    [queue; videoconvert; videoscale; videorate; capsfilter; encoder;
     h264parse; dash_sink];
  if negb linked then mret false else
  t ← get tee;
  tee_pad ← gst_element_get_request_pad E t "src_%u";
  if is_null tee_pad then mret false else
  queue_pad ← gst_element_get_static_pad E queue "sink";
  if is_null queue_pad then mret false else
  gst_element_sync_state_with_parent E queue;;
  gst_element_sync_state_with_parent E videoconvert;;
  gst_element_sync_state_with_parent E videoscale;;
  gst_element_sync_state_with_parent E videorate;;
  gst_element_sync_state_with_parent E capsfilter;;
  gst_element_sync_state_with_parent E encoder;;
  gst_element_sync_state_with_parent E h264parse;;
  gst_element_sync_state_with_parent E dash_sink;;
  ok ← gst_pad_link E tee_pad queue_pad;
  if negb ok then mret false else
  (if bool_decide (quality = "fullhd")
   then put (set_dash_sink_fullhd dash_sink)
   else put (set_dash_sink_hd dash_sink));;
  mret true.

Definition setup_bus_monitoring : M unit :=
  p ← get pipeline;
  b ← gst_pipeline_get_bus p;
  put (set_bus b);;
  id ← gst_bus_add_watch b;
  put (set_bus_watch_id id).

(** [initialize] up to and including the link of the selector to the tee. *)
Definition initialize_core : M bool :=
  p ← gst_pipeline_new E "rtsp-dash-pipeline";
  put (set_pipeline p);;
  if is_null p then mret false else
  src ← gst_element_factory_make E "rtspsrc" (Some "rtsp-source");
  put (set_rtsp_src src);;
  if is_null src then mret false else
  uri ← get rtsp_uri;
  g_object_set src
    [("location", VString uri);
     ("retry", VInt 999);
     ("protocols", VInt 4);
     ("timeout", VUInt64 5000000);
     ("tcp-timeout", VUInt64 5000000);
     ("do-retransmission", VBool true);
     ("drop-on-latency", VBool true);
     ("latency", VInt 200)];;
  dummy ← gst_element_factory_make E "videotestsrc" (Some "dummy-source");
  put (set_dummy_src dummy);;
  if is_null dummy then mret false else
  g_object_set dummy [("pattern", VInt 18); ("is-live", VBool true)];;
  sel ← gst_element_factory_make E "input-selector" (Some "input-selector");
  put (set_input_selector sel);;
  if is_null sel then mret false else
  t ← gst_element_factory_make E "tee" (Some "tee");
  put (set_tee t);;
  if is_null t then mret false else
  gst_bin_add_many p [src; dummy; sel; t];;
  connected ← connect_dummy_source;
  if negb connected then mret false else
  linked ← gst_element_link E sel t;
  if negb linked then mret false else
  mret true.

(** [initialize] from the creation of the DASH pipelines on. *)
Definition initialize_outputs : M bool :=
  fullhd ← create_dash_pipeline "fullhd" 1920 1080 5000;
  if negb fullhd then mret false else
  hd ← create_dash_pipeline "hd" 1280 720 3000;
  if negb hd then mret false else
  setup_bus_monitoring;;
  src ← get rtsp_src;
  g_signal_connect src "pad-added";;
  g_signal_connect src "no-more-pads";;
  mret true.

Definition initialize : M bool :=
  anchored ← initialize_core;
  if negb anchored then mret false else initialize_outputs.

Definition stop : M unit :=
  l ← get loop;
  if is_null l then mret tt else g_main_loop_quit.

Definition switch_to_dummy_source : M unit :=
  sel ← get input_selector;
  dummy_pad ← g_object_get_data sel "dummy-pad";
  match dummy_pad with
  | Some pad => g_object_set sel [("active-pad", VPad pad)]
  | None => mret tt
  end.

Definition switch_to_rtsp_source : M unit :=
  sel ← get input_selector;
  rtsp_pad ← g_object_get_data sel "rtsp-pad";
  match rtsp_pad with
  | Some pad => g_object_set sel [("active-pad", VPad pad)]
  | None => mret tt
  end.

Definition schedule_rtsp_reconnect : M unit :=
  old ← get reconnect_timeout_id;
  (if (0 <? old)%nat then g_source_remove old else mret tt);;
  id ← g_timeout_add_seconds 5 reconnect_rtsp_source_cb;
  put (set_reconnect_timeout_id id).

(** The timeout callbacks return [FALSE]: the source is removed after the
    call. *)
Definition reconnect_rtsp_source : M bool :=
  src ← get rtsp_src;
  gst_element_set_state E src GST_STATE_NULL;;
  gst_element_set_state E src GST_STATE_PLAYING;;
  put (set_reconnect_timeout_id 0);;
  mret false.

Definition switch_to_rtsp_delayed : M bool :=
  switch_to_rtsp_source;;
  mret false.

(** [create_rtsp_decode_chain] up to the state synchronisation of the new
    elements: builds and links the decode chain and returns its last element,
    or nothing when the function returns early. *)
Definition link_rtsp_decode_chain (pad : Pad) : M (option handle) :=
  depay ← gst_element_factory_make E "rtph264depay" (Some "rtsp-depay");
  parse ← gst_element_factory_make E "h264parse" (Some "rtsp-parse");
  decode ← gst_element_factory_make E "avdec_h264" (Some "rtsp-decode");
  convert ← gst_element_factory_make E "videoconvert" (Some "rtsp-convert");
  rtsp_caps ← gst_element_factory_make E "capsfilter" (Some "rtsp-caps");
  if is_null depay || is_null parse || is_null decode || is_null convert
     || is_null rtsp_caps
  then mret None else
  g_object_set rtsp_caps [("caps", raw_caps 1920 1080)];;
  p ← get pipeline;
  gst_bin_add_many p [depay; parse; decode; convert; rtsp_caps];;
  linked ← gst_element_link_many E [depay; parse; decode; convert; rtsp_caps];
  if negb linked then mret None else
  depay_sink ← gst_element_get_static_pad E depay "sink";
  gst_pad_link E (Some pad) depay_sink;;
  convert_src ← gst_element_get_static_pad E rtsp_caps "src";
  sel ← get input_selector;
  selector_pad ← gst_element_get_request_pad E sel "sink_%u";
  gst_pad_link E convert_src selector_pad;;
  g_object_set_data sel "rtsp-pad" selector_pad;;
  gst_element_sync_state_with_parent E depay;;
  gst_element_sync_state_with_parent E parse;;
  gst_element_sync_state_with_parent E decode;;
  gst_element_sync_state_with_parent E convert;;
  gst_element_sync_state_with_parent E rtsp_caps;;
  mret rtsp_caps.

(** The end of [create_rtsp_decode_chain]: wait for the chain to settle and,
    on success, arm the one-second timer of [switch_to_rtsp_delayed]. *)
Definition await_rtsp_decode_chain (rtsp_caps : option handle) : M unit :=
  r ← gst_element_get_state E rtsp_caps;
  if bool_decide (r = GST_STATE_CHANGE_SUCCESS)
  then g_timeout_add_seconds 1 switch_to_rtsp_delayed_cb;; mret tt
  else mret tt.

Definition create_rtsp_decode_chain (pad : Pad) : M unit :=
  rtsp_caps ← link_rtsp_decode_chain pad;
  if is_null rtsp_caps then mret tt else await_rtsp_decode_chain rtsp_caps.

Definition connect_rtsp_pad (pad : Pad) (caps : option PadCaps) : M unit :=
  match caps with
  | Some c =>
      if String.prefix "application/x-rtp" (caps_name c) && negb (is_null (caps_media c))
      then
        if bool_decide (caps_media c = Some "video")
        then create_rtsp_decode_chain pad
        else mret tt
      else mret tt
  | None => mret tt
  end.

(** The handler returns [TRUE] in every case: the bus watch stays attached. *)
Definition handle_bus_message (msg : GstMessage) : M bool :=
  match msg with
  | GST_MESSAGE_ERROR src =>
      live ← get rtsp_src;
      (if bool_decide (src = live)
       then switch_to_dummy_source;; schedule_rtsp_reconnect
       else stop);;
      mret true
  | GST_MESSAGE_EOS _ =>
      stop;;
      mret true
  | GST_MESSAGE_STATE_CHANGED src old_state new_state =>
      live ← get rtsp_src;
      (if bool_decide (src = live) then
         if bool_decide (new_state = GST_STATE_PLAYING) then
           put (set_is_rtsp_connected true);;
           switch_to_rtsp_source
         else if bool_decide (old_state = GST_STATE_PLAYING)
                 && (state_value new_state <? state_value GST_STATE_PLAYING)%nat then
           put (set_is_rtsp_connected false);;
           switch_to_dummy_source;;
           schedule_rtsp_reconnect
         else mret tt
       else mret tt);;
      mret true
  | GST_MESSAGE_OTHER _ => mret true
  end.

Definition cleanup : M unit :=
  rid ← get reconnect_timeout_id;
  (if (0 <? rid)%nat then
     g_source_remove rid;;
     put (set_reconnect_timeout_id 0)
   else mret tt);;
  wid ← get bus_watch_id;
  (if (0 <? wid)%nat then
     g_source_remove wid;;
     put (set_bus_watch_id 0)
   else mret tt);;
  p ← get pipeline;
  (if is_null p then mret tt else
     gst_element_set_state E p GST_STATE_NULL;;
     gst_object_unref p;;
     put (set_pipeline None));;
  b ← get bus;
  (if is_null b then mret tt else
     gst_object_unref b;;
     put (set_bus None));;
  l ← get loop;
  (if is_null l then mret tt else
     g_main_loop_unref;;
     put (set_loop None)).

(** ** The main loop *)

Definition run_callback (cb : Callback) : M bool :=
  match cb with
  | switch_to_rtsp_delayed_cb => switch_to_rtsp_delayed
  | reconnect_rtsp_source_cb => reconnect_rtsp_source
  end.

Definition is_bus_watch (src : Source) : bool :=
  match src_kind src with BusWatch => true | Timeout _ _ => false end.

Definition rearm (id interval : nat) (l : list Source) : list Source :=
  map (λ src, if has_id id src
              then mkSource (src_id src) (src_kind src) (src_due src + interval)
              else src) l.

(** A timeout source is dispatched once its due time has come; it is removed
    when its callback returns [FALSE] and re-armed otherwise. *)
Definition dispatch_timeout (id : nat) : M unit :=
  found ← observe (λ w, List.find (has_id id) (w_sources w));
  match found with
  | Some (mkSource _ (Timeout cb interval) due) =>
      now ← observe w_now;
      if (due <=? now)%nat then
        again ← run_callback cb;
        if again : bool
        then effect (λ w, set_sources (rearm id interval (w_sources w)) w)
        else effect (λ w, set_sources (detach id (w_sources w)) w)
      else mret tt
  | _ => mret tt
  end.

Definition dispatch_bus (msg : GstMessage) : M unit :=
  watching ← observe (λ w, existsb is_bus_watch (w_sources w));
  if watching : bool then
    keep ← handle_bus_message msg;
    if keep : bool then mret tt
    else effect (λ w, set_sources (filter (λ s, ¬ is_bus_watch s) (w_sources w)) w)
  else mret tt.

Definition dispatch (ev : Event) : M unit :=
  match ev with
  | BusMessage m => dispatch_bus m
  | PadAdded pad caps => connect_rtsp_pad pad caps
  | NoMorePads => mret tt
  | TimeoutReady id => dispatch_timeout id
  | Second => effect advance_clock
  | Signal => stop
  end.

(** [g_main_loop_run]: the loop dispatches the events it is given, in order,
    until [g_main_loop_quit] has been called. *)
Fixpoint g_main_loop_run (evs : list Event) : M unit :=
  match evs with
  | [] => mret tt
  | ev :: rest =>
      quit ← observe w_quit;
      if quit : bool then mret tt else dispatch ev;; g_main_loop_run rest
  end.

(** [start] before it enters the main loop. *)
Definition start_prelude : M bool :=
  p ← get pipeline;
  if is_null p then mret false else
  switch_to_dummy_source;;
  r ← gst_element_set_state E p GST_STATE_PLAYING;
  if bool_decide (r = GST_STATE_CHANGE_FAILURE) then mret false else
  l ← g_main_loop_new;
  put (set_loop l);;
  mret true.

Definition start (evs : list Event) : M bool :=
  ready ← start_prelude;
  if negb ready then mret false else
  g_main_loop_run evs;;
  mret true.

(** [main]: [argv] includes the program name; [evs] is what the main loop
    gets to dispatch.  The destructor runs [cleanup] when [main] returns. *)
Definition main (argv : list string) (evs : list Event) : nat * option State :=
  match argv with
  | _ :: uri :: output :: _ =>
      let (ok, s1) := initialize (fresh uri output) in
      if negb ok then (1, Some (exec cleanup s1)) else
      let (ok', s2) := start evs s1 in
      if negb ok' then (1, Some (exec cleanup s2)) else
      (0, Some (exec cleanup s2))
  | _ => (1, None)
  end.

End Orchestrator.

(** ** A Hoare logic for the state monad *)

Definition hoare {A} (P : State → Prop) (m : M A) (Q : A → State → Prop) : Prop :=
  ∀ s, P s → Q (eval m s) (exec m s).

(** [m] keeps the state predicate [P], whatever it returns. *)
Definition preserves {A} (P : State → Prop) (m : M A) : Prop :=
  ∀ s, P s → P (exec m s).


(** ** The reconnect timer *)

Definition is_reconnect (src : Source) : bool :=
  match src_kind src with
  | Timeout reconnect_rtsp_source_cb _ => true
  | _ => false
  end.

(** The reconnect timers pending in the main context. *)
Definition reconnect_timers (s : State) : list Source :=
  filter (λ src, is_reconnect src) (w_sources (world s)).

(** Source identifiers are unique and were all handed out already, and every
    pending reconnect timer is the one recorded in [reconnect_timeout_id]. *)
Record timer_inv (s : State) : Prop := mk_timer_inv {
  ti_fresh : Forall (λ src, src_id src < w_next_source (world s)) (w_sources (world s));
  ti_nodup : NoDup (src_id <$> w_sources (world s));
  ti_positive : 0 < w_next_source (world s);
  ti_reconnect : Forall (λ src, is_reconnect src →
                     src_id src = reconnect_timeout_id (self s)
                     ∧ 0 < reconnect_timeout_id (self s)) (w_sources (world s))
}.


(** [n] error messages posted by the live source, handled in a row. *)
Fixpoint source_errors (n : nat) (s : State) : State :=
  match n with
  | 0 => s
  | S k =>
      source_errors k
        (exec (handle_bus_message (GST_MESSAGE_ERROR (rtsp_src (self s)))) s)
  end.

(** ** The selector *)

(** The pad stored on the selector under [key] ([g_object_get_data]). *)
Definition selector_data (key : string) (s : State) : option Pad :=
  eval (sel ← get input_selector; g_object_get_data sel key) s.

Definition fallback_pad : State → option Pad := selector_data "dummy-pad".
Definition live_pad : State → option Pad := selector_data "rtsp-pad".

(** The nodes of the live-source lineage: the live source itself and the
    five elements [create_rtsp_decode_chain] builds. *)
Definition decode_chain_names : list (option string) :=
  [Some "rtsp-depay"; Some "rtsp-parse"; Some "rtsp-decode";
   Some "rtsp-convert"; Some "rtsp-caps"].

Definition live_lineage (s : State) (node : handle) : bool :=
  bool_decide (Some node = rtsp_src (self s))
  || match w_elements (world s) !! node with
     | Some (_, name) => bool_decide (name ∈ decode_chain_names)
     | None => false
     end.

(** ** A concrete session *)

(** An engine in which every call succeeds. *)
Definition happy : Engine :=
  mkEngine (λ _, true) (λ _, GST_STATE_CHANGE_SUCCESS).

Definition video_caps : option PadCaps :=
  Some (mkPadCaps "application/x-rtp" (Some "video")).

(** The object after [initialize] and the part of [start] that precedes the
    main loop. *)
Definition booted : State :=
  exec (start_prelude happy)
    (exec (initialize happy) (fresh "rtsp://camera/stream" "/tmp/dash")).

(** The camera answers: its video pad appears, the decode chain is built and,
    one second later, the delayed switch routes the live branch. *)
Definition live_session : State :=
  exec (g_main_loop_run happy [PadAdded (StreamPad 1 0) video_caps; Second; TimeoutReady 2])
    booted.

(** The two inputs of the selector, and the switch operation for each. *)
Inductive Branch := FallbackBranch | LiveBranch.

Definition branch_pad (b : Branch) : State → option Pad :=
  match b with
  | FallbackBranch => fallback_pad
  | LiveBranch => live_pad
  end.

Definition switch_to (b : Branch) : M unit :=
  match b with
  | FallbackBranch => switch_to_dummy_source
  | LiveBranch => switch_to_rtsp_source
  end.

(** The calls that link elements or pads (the source never unlinks). *)
Definition is_link_call (e : Entry) : bool :=
  match e.1 with
  | ElementLink _ _ | ElementLinkMany _ | PadLink _ _ => true
  | _ => false
  end.

Definition link_calls (s : State) : list Entry :=
  filter (λ e, is_link_call e) (w_trace (world s)).

(** ** Routing while the live source is not connected *)

(** The selector carries pad [p] under [key]. *)
Definition stored (key : string) (p : Pad) (s : State) : Prop :=
  ∃ sel, input_selector (self s) = Some sel
         ∧ w_qdata (world s) !! (sel, key) = Some p.

(** While [is_rtsp_connected] is false the fallback pad is the active pad. *)
Definition fallback_inv (s : State) : Prop :=
  ∃ p, stored "dummy-pad" p s
       ∧ (is_rtsp_connected (self s) = false → w_active_pad (world s) = Some p).

(** Event [ev] makes a pending [switch_to_rtsp_delayed] timer fire in [s]. *)
Definition grace_fires (ev : Event) (s : State) : bool :=
  match ev with
  | TimeoutReady id =>
      match List.find (has_id id) (w_sources (world s)) with
      | Some (mkSource _ (Timeout switch_to_rtsp_delayed_cb _) due) =>
          (due <=? w_now (world s))%nat
      | _ => false
      end
  | _ => false
  end.

(** No [switch_to_rtsp_delayed] timer fires while the loop dispatches [evs]. *)
Fixpoint grace_free (E : Engine) (evs : list Event) (s : State) : bool :=
  match evs with
  | [] => true
  | ev :: rest =>
      if w_quit (world s) then true
      else negb (grace_fires ev s) && grace_free E rest (exec (dispatch E ev) s)
  end.


(** ** The life of a reconnect timer *)

(** The state [n] seconds later, nothing else having happened. *)
Definition later (n : nat) (s : State) : State :=
  mkState (self s) (Nat.iter n advance_clock (world s)).

(** The events on which [handle_bus_message] enters the disconnected state
    and calls [schedule_rtsp_reconnect]: an error of the live source, or the
    live source leaving [PLAYING]. *)
Definition enters_disconnected (live : option handle) (ev : Event) : bool :=
  match ev with
  | BusMessage (GST_MESSAGE_ERROR src) => bool_decide (src = live)
  | BusMessage (GST_MESSAGE_STATE_CHANGED src old_state new_state) =>
      bool_decide (src = live)
      && negb (bool_decide (new_state = GST_STATE_PLAYING))
      && bool_decide (old_state = GST_STATE_PLAYING)
      && (state_value new_state <? state_value GST_STATE_PLAYING)%nat
  | _ => false
  end.

(** No reconnect timer is pending and the live source is [live]. *)
Definition quiet (live : option handle) (s : State) : Prop :=
  Forall (λ src, ¬ is_reconnect src) (w_sources (world s))
  ∧ rtsp_src (self s) = live.

(** ** The grace period *)

Definition is_grace_timer (src : Source) : bool :=
  match src_kind src with
  | Timeout switch_to_rtsp_delayed_cb _ => true
  | _ => false
  end.





(** ** Shutdown *)

(** The decode chain has just been built when the process is interrupted:
    the state in which the main loop returns. *)
Definition interrupted_during_grace : State :=
  exec (g_main_loop_run happy [PadAdded (StreamPad 1 0) video_caps; Signal]) booted.

(** ** The packaging sinks *)

Definition prop_of (key : string) (props : list (string * Value)) : option Value :=
  snd <$> List.find (λ kv, bool_decide (kv.1 = key)) props.

(** The objects that were given a manifest file name, each with the root
    path and the file name it was given. *)
Definition manifest_writers (tr : list Entry) : list (handle * option Value * Value) :=
  omap (λ e : Entry,
          match e.1 with
          | ObjectSet o props =>
              match prop_of "mpd-filename" props with
              | Some file => Some (o, prop_of "mpd-root-path" props, file)
              | None => None
              end
          | _ => None
          end) tr.

(** ** Building the graph *)

(** A creation, link or pad request that failed. *)
Definition checked_failure (e : Entry) : bool :=
  match e with
  | (PipelineNew _, RHandle None)
  | (FactoryMake _ _, RHandle None)
  | (ElementLink _ _, RBool false)
  | (ElementLinkMany _, RBool false)
  | (PadLink _ _, RBool false)
  | (GetStaticPad _ _, RPad None)
  | (GetRequestPad _ _, RPad None) => true
  | _ => false
  end.

(** No creation, link or pad request has failed so far. *)
Definition clean (s : State) : Prop :=
  Forall (λ e, checked_failure e = false) (w_trace (world s)).

(** [m] returns a [good] value only if nothing it created or linked failed:
    when the trace was clean before (under whatever assumption [G]), it is
    still clean after [m] has returned a good value. *)
Definition checked {T} (good : T → Prop) (m : M T) : Prop :=
  ∀ G : Prop, hoare (λ s, G → clean s) m (λ r s, G ∧ good r → clean s).

(** Entry [e] is in the trace. *)
Definition logged (e : Entry) (s : State) : Prop := e ∈ w_trace (world s).

(** The configured profiles, and the calls that create the nodes of the
    branch of profile [q]. *)
Definition profiles : list string := ["fullhd"; "hd"].

Definition profile_creations (q : string) : list Call :=
  [FactoryMake "queue" (Some ("queue-" +:+ q));
   FactoryMake "videoconvert" None;
   FactoryMake "videoscale" (Some ("scale-" +:+ q));
   FactoryMake "videorate" (Some ("rate-" +:+ q));
   FactoryMake "capsfilter" None;
   FactoryMake "openh264enc" (Some ("encoder-" +:+ q));
   FactoryMake "h264parse" (Some ("parse-" +:+ q));
   FactoryMake "dashsink" (Some ("dash-sink-" +:+ q))].

Definition creates_profile_node (e : Entry) : bool :=
  existsb (λ q, bool_decide (e.1 ∈ profile_creations q)) profiles.

(** The fallback branch and the selector exist and are linked, and the
    selector is linked to the tee, all of it within the calls [pre]: [dsrc],
    [sel] and [t] are the object's [dummy_src], [input_selector] and [tee]. *)
Definition anchored (s : State) (pre : list Entry) : Prop :=
  ∃ dsrc dconv dcaps sel t k,
    dummy_src (self s) = Some dsrc
    ∧ input_selector (self s) = Some sel
    ∧ tee (self s) = Some t
    ∧ (FactoryMake "videotestsrc" (Some "dummy-source"), RHandle (Some dsrc)) ∈ pre
    ∧ (FactoryMake "videoconvert" (Some "dummy-convert"), RHandle (Some dconv)) ∈ pre
    ∧ (FactoryMake "capsfilter" (Some "dummy-caps"), RHandle (Some dcaps)) ∈ pre
    ∧ (FactoryMake "input-selector" (Some "input-selector"), RHandle (Some sel)) ∈ pre
    ∧ (FactoryMake "tee" (Some "tee"), RHandle (Some t)) ∈ pre
    ∧ (ElementLinkMany [dsrc; dconv; dcaps], RBool true) ∈ pre
    ∧ (PadLink (Some (StaticPad dcaps "src")) (Some (RequestPad sel k)), RBool true) ∈ pre
    ∧ (ElementLink sel t, RBool true) ∈ pre.

(** The calls by which streaming starts: the pipeline set to [PLAYING] and
    the creation of the main loop. *)
Definition starts_streaming (e : Entry) : bool :=
  match e.1 with
  | SetState _ GST_STATE_PLAYING | MainLoopNew => true
  | _ => false
  end.

Definition never_started (s : State) : Prop :=
  Forall (λ e, starts_streaming e = false) (w_trace (world s)).

(** An engine that cannot create the scaler of the [hd] profile (the call at
    position 44 of the trace), everything else succeeding. *)
Definition no_hd_scaler : Engine :=
  mkEngine (λ n, negb (n =? 44)%nat) (λ _, GST_STATE_CHANGE_SUCCESS).

(** No node of a profile branch has been created so far. *)
Definition no_profile (s : State) : Prop :=
  Forall (λ e, creates_profile_node e = false) (w_trace (world s)).

(** The trace of [s] starts with [t0]. *)
Definition extends (t0 : list Entry) (s : State) : Prop :=
  t0 `prefix_of` w_trace (world s).

(** ** The object during a session *)

(** The fields of the object that only [initialize], [start] and [cleanup]
    write. *)
Definition static_fields (t : Streamer) :=
  (pipeline t, rtsp_src t, dummy_src t, input_selector t, tee t,
   dash_sink_fullhd t, dash_sink_hd t, bus t, loop t, bus_watch_id t,
   rtsp_uri t, output_path t, tee_linked t).

(** The events on which [handle_bus_message] writes [is_rtsp_connected]: the
    live source entering or leaving [PLAYING]. *)
Definition reports_connection (live : option handle) (ev : Event) : bool :=
  match ev with
  | BusMessage (GST_MESSAGE_STATE_CHANGED src old_state new_state) =>
      bool_decide (src = live)
      && (bool_decide (new_state = GST_STATE_PLAYING)
          || bool_decide (old_state = GST_STATE_PLAYING))
  | _ => false
  end.

(** Every bus watch attached to the main context is the one recorded in
    [bus_watch_id], and a non-zero [bus_watch_id] or [reconnect_timeout_id]
    names a source that is still attached. *)
Record watch_inv (s : State) : Prop := mk_watch_inv {
  wi_watch : Forall (λ src, is_bus_watch src →
                 src_id src = bus_watch_id (self s)
                 ∧ 0 < bus_watch_id (self s)) (w_sources (world s));
  wi_watch_live : 0 < bus_watch_id (self s) →
                  ∃ src, src ∈ w_sources (world s) ∧ is_bus_watch src
                         ∧ src_id src = bus_watch_id (self s);
  wi_reconnect_live : 0 < reconnect_timeout_id (self s) →
                      ∃ src, src ∈ w_sources (world s) ∧ is_reconnect src
                             ∧ src_id src = reconnect_timeout_id (self s)
}.

(** The sources of the main context are the ones the object has recorded. *)
Definition session_inv (s : State) : Prop := timer_inv s ∧ watch_inv s.

(** ** Construction *)

(** What [initialize] leaves alone until it sets up the bus watch: the main
    context, the selector's active pad, and the fields written later. *)
Definition idle_part (s : State) :=
  (w_sources (world s), w_next_source (world s), w_now (world s), w_quit (world s),
   w_active_pad (world s), bus (self s), bus_watch_id (self s),
   reconnect_timeout_id (self s), loop (self s), is_rtsp_connected (self s),
   tee_linked (self s), rtsp_uri (self s), output_path (self s)).

(** The properties [initialize] gives the live source. *)
Definition rtsp_src_props (uri : string) : list (string * Value) :=
  [("location", VString uri);
   ("retry", VInt 999);
   ("protocols", VInt 4);
   ("timeout", VUInt64 5000000);
   ("tcp-timeout", VUInt64 5000000);
   ("do-retransmission", VBool true);
   ("drop-on-latency", VBool true);
   ("latency", VInt 200)].

(** ** New pads of the live source *)

(** The caps [connect_rtsp_pad] acts on: an RTP stream whose media is video. *)
Definition is_rtp_video (caps : option PadCaps) : bool :=
  match caps with
  | Some c =>
      String.prefix "application/x-rtp" (caps_name c)
      && bool_decide (caps_media c = Some "video")
  | None => false
  end.

Definition audio_caps : option PadCaps :=
  Some (mkPadCaps "application/x-rtp" (Some "audio")).

(** What [create_rtsp_decode_chain] can only change by storing the live pad
    and arming the grace timer. *)
Definition routing_part (s : State) :=
  (self s, w_qdata (world s), w_active_pad (world s), w_sources (world s),
   w_next_source (world s), w_now (world s), w_quit (world s)).

(** An engine that cannot create the H.264 decoder of the first decode chain
    of a session (the call at position 75 of the trace). *)
Definition no_decoder : Engine :=
  mkEngine (λ n, negb (n =? 75)%nat) (λ _, GST_STATE_CHANGE_SUCCESS).

(** An engine in which the two pad links of the first decode chain of a
    session fail (the calls at positions 82 and 85 of the trace). *)
Definition loose_pads : Engine :=
  mkEngine (λ n, negb ((n =? 82)%nat || (n =? 85)%nat)) (λ _, GST_STATE_CHANGE_SUCCESS).

(** ** Events that matter *)

(** The events on which the main loop is asked to quit: a signal, the end of
    the stream, and an error posted by anything but the live source. *)
Definition ends_session (live : option handle) (ev : Event) : bool :=
  match ev with
  | Signal => true
  | BusMessage (GST_MESSAGE_EOS _) => true
  | BusMessage (GST_MESSAGE_ERROR src) => negb (bool_decide (src = live))
  | _ => false
  end.

(** The live source has exposed a video pad. *)
Definition exposes_video (ev : Event) : bool :=
  match ev with
  | PadAdded _ caps => is_rtp_video caps
  | _ => false
  end.

(** The fallback pad is stored and active, no live pad is stored and no
    grace timer is pending. *)
Definition fallback_only (s : State) : Prop :=
  ∃ sel p,
    input_selector (self s) = Some sel
    ∧ w_qdata (world s) !! (sel, "dummy-pad") = Some p
    ∧ w_qdata (world s) !! (sel, "rtsp-pad") = None
    ∧ w_active_pad (world s) = Some p
    ∧ Forall (λ src, ¬ is_grace_timer src) (w_sources (world s)).

(** No object carries a live pad. *)
Definition no_live_pad (s : State) : Prop :=
  ∀ o, w_qdata (world s) !! (o, "rtsp-pad") = None.

(** ** Fields that are written and never read *)

(** The fields of the object that some member function reads. *)
Definition read_fields (t : Streamer) :=
  (pipeline t, rtsp_src t, dummy_src t, input_selector t, tee t, bus t, loop t,
   bus_watch_id t, reconnect_timeout_id t, rtsp_uri t, output_path t).

(** Two states that differ at most in [is_rtsp_connected], [tee_linked],
    [dash_sink_fullhd] and [dash_sink_hd]. *)
Definition unread_apart (s t : State) : Prop :=
  world s = world t ∧ read_fields (self s) = read_fields (self t).

(** [m] does not look at those four fields: run from two such states it
    returns the same value and leaves two such states. *)
Definition blind {A} (m : M A) : Prop :=
  ∀ s t, unread_apart s t →
    eval m s = eval m t ∧ unread_apart (exec m s) (exec m t).

(** ** The connection state of the specification *)

(** The live branch is [Live] from the moment the live source reports
    [PLAYING] until it posts an error or leaves [PLAYING].  [c] tells
    whether it was live before the event. *)
Definition observed_live (live : option handle) (ev : Event) (c : bool) : bool :=
  match ev with
  | BusMessage (GST_MESSAGE_ERROR src) =>
      if bool_decide (src = live) then false else c
  | BusMessage (GST_MESSAGE_STATE_CHANGED src old_state new_state) =>
      if bool_decide (src = live) then
        if bool_decide (new_state = GST_STATE_PLAYING) then true
        else if bool_decide (old_state = GST_STATE_PLAYING) then false
        else c
      else c
  | _ => c
  end.

(** The connection state once the loop has dispatched [evs] from [s]. *)
Fixpoint live_after (E : Engine) (evs : list Event) (c : bool) (s : State) : bool :=
  match evs with
  | [] => c
  | ev :: rest =>
      if w_quit (world s) then c
      else live_after E rest (observed_live (rtsp_src (self s)) ev c)
             (exec (dispatch E ev) s)
  end.

(** Event [ev] makes a [switch_to_rtsp_delayed] timer fire in [s] while a
    live pad is stored for it to route. *)
Definition grace_routes (ev : Event) (s : State) : bool :=
  grace_fires ev s && negb (is_null (live_pad s)).

(** While the loop dispatches [evs], no grace timer routes the live pad at a
    moment when [is_rtsp_connected] is false. *)
Fixpoint grace_waits_for_flag (E : Engine) (evs : list Event) (s : State) : bool :=
  match evs with
  | [] => true
  | ev :: rest =>
      if w_quit (world s) then true
      else negb (grace_routes ev s && negb (is_rtsp_connected (self s)))
           && grace_waits_for_flag E rest (exec (dispatch E ev) s)
  end.

(** While the loop dispatches [evs], no grace timer routes the live pad at a
    moment when the connection state is not [Live]. *)
Fixpoint grace_waits_for_live (E : Engine) (evs : list Event) (c : bool)
    (s : State) : bool :=
  match evs with
  | [] => true
  | ev :: rest =>
      if w_quit (world s) then true
      else negb (grace_routes ev s && negb c)
           && grace_waits_for_live E rest (observed_live (rtsp_src (self s)) ev c)
                (exec (dispatch E ev) s)
  end.


(** The live source connects, its decode chain is built, the source posts an
    error within the grace period, and the delayed switch fires all the
    same. *)
Definition failing_run : list Event :=
  [BusMessage (GST_MESSAGE_STATE_CHANGED (Some 1) GST_STATE_PAUSED GST_STATE_PLAYING);
   PadAdded (StreamPad 1 0) video_caps;
   BusMessage (GST_MESSAGE_ERROR (Some 1));
   Second;
   TimeoutReady 2].

Definition failed_during_grace : State :=
  exec (g_main_loop_run happy failing_run) booted.


(** ** Building the graph: what a build consists of *)

(** A creation, link or pad request has failed. *)
Definition failed (s : State) : Prop :=
  Exists (λ e, checked_failure e = true) (w_trace (world s)).

(** The branch of profile [q] exists: its eight nodes were created and
    linked into a chain, and a pad requested from the tee was linked to the
    sink pad of the chain's queue. *)
Definition profile_built (q : string) (s : State) : Prop :=
  ∃ queue conv scale rate capsf enc parse sink t k,
    tee (self s) = Some t
    ∧ logged (FactoryMake "queue" (Some ("queue-" +:+ q)), RHandle (Some queue)) s
    ∧ logged (FactoryMake "videoconvert" None, RHandle (Some conv)) s
    ∧ logged (FactoryMake "videoscale" (Some ("scale-" +:+ q)), RHandle (Some scale)) s
    ∧ logged (FactoryMake "videorate" (Some ("rate-" +:+ q)), RHandle (Some rate)) s
    ∧ logged (FactoryMake "capsfilter" None, RHandle (Some capsf)) s
    ∧ logged (FactoryMake "openh264enc" (Some ("encoder-" +:+ q)), RHandle (Some enc)) s
    ∧ logged (FactoryMake "h264parse" (Some ("parse-" +:+ q)), RHandle (Some parse)) s
    ∧ logged (FactoryMake "dashsink" (Some ("dash-sink-" +:+ q)), RHandle (Some sink)) s
    ∧ logged (ElementLinkMany [queue; conv; scale; rate; capsf; enc; parse; sink],
              RBool true) s
    ∧ logged (GetRequestPad t "src_%u", RPad (Some (RequestPad t k))) s
    ∧ logged (PadLink (Some (RequestPad t k)) (Some (StaticPad queue "sink")),
              RBool true) s.
(** * Proofs *)

Section HoareRules.

Context {A B : Type}.
Implicit Types (P : State → Prop) (m : M A) (k : A → M B).

Lemma exec_bind m k s : exec (m ≫= k) s = exec (k (eval m s)) (exec m s).
Proof. unfold exec, eval, mbind, M_bind. by destruct (m s). Qed.

Lemma eval_bind m k s : eval (m ≫= k) s = eval (k (eval m s)) (exec m s).
Proof. unfold exec, eval, mbind, M_bind. by destruct (m s). Qed.

Lemma hoare_bind P (R : A → State → Prop) (Q : B → State → Prop) m k :
  hoare P m R → (∀ a, hoare (R a) (k a) Q) → hoare P (m ≫= k) Q.
Proof.
  intros Hm Hk s HP. rewrite eval_bind, exec_bind. by apply Hk, Hm.
Qed.

Lemma hoare_ret P (Q : A → State → Prop) (a : A) :
  (∀ s, P s → Q a s) → hoare P (mret a) Q.
Proof. intros H s HP. by apply H. Qed.

Lemma hoare_conseq P P' (Q Q' : A → State → Prop) m :
  hoare P' m Q' → (∀ s, P s → P' s) → (∀ a s, Q' a s → Q a s) → hoare P m Q.
Proof. intros Hm HP HQ s Hs. by apply HQ, Hm, HP. Qed.

Lemma hoare_skip (Q : B → State → Prop) m k :
  (∀ a, hoare (λ _, True) (k a) Q) → hoare (λ _, True) (m ≫= k) Q.
Proof. intros Hk. by apply hoare_bind with (R := λ _ _, True). Qed.

Lemma preserves_hoare P m : preserves P m → hoare P m (λ _, P).
Proof. intros H s HP. by apply H. Qed.

Lemma preserves_bind P m k :
  preserves P m → (∀ a, preserves P (k a)) → preserves P (m ≫= k).
Proof. intros Hm Hk s HP. rewrite exec_bind. by apply Hk, Hm. Qed.

Lemma preserves_ret P (a : A) : preserves P (mret a).
Proof. by intros s HP. Qed.

Lemma preserves_get P (f : Streamer → A) : preserves P (get f).
Proof. by intros s HP. Qed.

Lemma preserves_observe P (f : World → A) : preserves P (observe f).
Proof. by intros s HP. Qed.

End HoareRules.

Lemma preserves_put (P : State → Prop) f :
  (∀ s, P s → P (mkState (f (self s)) (world s))) → preserves P (put f).
Proof. intros H s HP. by apply H. Qed.

Lemma preserves_effect (P : State → Prop) f :
  (∀ s, P s → P (mkState (self s) (f (world s)))) → preserves P (effect f).
Proof. intros H s HP. by apply H. Qed.

Ltac head_of t :=
  lazymatch t with
  | ?f _ => head_of f
  | _ => t
  end.

(** Walks through a member function: the monadic structure is handled by the
    rules above, the writes to the object and to the world are left to
    [solve_write], and [known] may close a call as a whole. *)
Ltac preserved known solve_write :=
  repeat first
    [ apply preserves_ret
    | apply preserves_get
    | apply preserves_observe
    | known
    | apply preserves_put; solve_write
    | apply preserves_effect; solve_write
    | apply preserves_bind; [| intros ?]
    | lazymatch goal with
      | |- preserves _ (match ?c with _ => _ end) => destruct c
      | |- preserves _ (let _ := _ in _) => cbv zeta
      end
    | lazymatch goal with
      | |- preserves _ ?m => let h := head_of m in progress unfold h
      end ].

(** Unfolds the monadic plumbing, the primitives and the member functions,
    so that running a function on a symbolic state only leaves the tests
    whose outcome is not known. *)
Ltac run :=
  cbv beta iota zeta delta
    [exec eval mbind M_bind mret M_ret get put observe effect fst snd
     answer answer_state new_object gst_pipeline_new gst_element_factory_make
     g_object_set g_object_set_data g_object_get_data gst_bin_add_many
     fallible gst_element_link gst_element_link_many gst_element_get_static_pad
     gst_element_get_request_pad gst_pad_link gst_element_sync_state_with_parent
     state_call gst_element_set_state gst_element_get_state gst_pipeline_get_bus
     attach_source gst_bus_add_watch g_timeout_add_seconds g_source_remove
     g_signal_connect g_main_loop_new g_main_loop_quit gst_object_unref
     g_main_loop_unref
     stop switch_to_dummy_source switch_to_rtsp_source schedule_rtsp_reconnect
     reconnect_rtsp_source switch_to_rtsp_delayed run_callback
     handle_bus_message dispatch_timeout dispatch_bus dispatch
     connect_rtsp_pad start_prelude setup_bus_monitoring cleanup
     connect_dummy_source initialize_core await_rtsp_decode_chain
     is_null negb orb andb all_present];
  cbn [self world
       pipeline rtsp_src dummy_src input_selector tee dash_sink_fullhd
       dash_sink_hd bus loop bus_watch_id reconnect_timeout_id rtsp_uri
       output_path is_rtsp_connected tee_linked
       set_pipeline set_rtsp_src set_dummy_src set_input_selector set_tee
       set_dash_sink_fullhd set_dash_sink_hd set_bus set_loop set_bus_watch_id
       set_reconnect_timeout_id set_is_rtsp_connected
       w_elements w_trace w_qdata w_active_pad w_sources w_next_source w_now
       w_quit log add_element set_qdata set_active set_sources attach
       advance_clock request_quit].

(** [run], then a case analysis on every test that blocks the execution. *)
Ltac run_cases :=
  run;
  repeat (match goal with
          | |- context [match ?x with _ => _ end] =>
              lazymatch x with
              | context [match _ with _ => _ end] => fail
              | _ => destruct x eqn:?
              end
          end; run).

Lemma active_pad_of_switch pad old :
  active_pad_of [("active-pad", VPad pad)] old = Some pad.
Proof. reflexivity. Qed.


(** ** The reconnect timer: invariant *)

Lemma timer_inv_fresh uri output : timer_inv (fresh uri output).
Proof. split; cbn; try constructor; lia. Qed.

Lemma detach_sublist id l : detach id l `sublist_of` l.
Proof. apply sublist_filter. Qed.

Lemma detach_forall (P : Source → Prop) id l : Forall P l → Forall P (detach id l).
Proof.
  rewrite !Forall_forall. intros H x [_ Hx]%list_elem_of_filter. by apply H.
Qed.

Lemma detach_nodup id l : NoDup (src_id <$> l) → NoDup (src_id <$> detach id l).
Proof. intros H. eapply sublist_NoDup; [done | apply fmap_sublist, detach_sublist]. Qed.

Lemma detach_gone id l : Forall (λ src, src_id src ≠ id) (detach id l).
Proof. apply Forall_forall. intros x [H _]%list_elem_of_filter. done. Qed.

(** Writes that leave the sources and [reconnect_timeout_id] alone. *)
Ltac timer_frame := intros ? [? ? ? ?]; split; cbn; assumption.

Lemma timer_inv_attach k delay :
  is_reconnect (mkSource 0 k 0) = false →
  ∀ s, timer_inv s → timer_inv (mkState (self s) (attach k delay (world s))).
Proof.
  intros Hk s [Hf Hn Hp Hr]. split; cbn.
  - apply Forall_app. split.
    + eapply Forall_impl; [exact Hf | cbn; lia].
    + apply Forall_singleton. cbn. lia.
  - rewrite fmap_app. apply NoDup_app. split_and!; [done | | apply NoDup_singleton].
    intros x Hx ->%list_elem_of_singleton.
    apply list_elem_of_fmap in Hx as (src & Hid & Hsrc).
    rewrite Forall_forall in Hf. specialize (Hf _ Hsrc). cbn in Hid. lia.
  - lia.
  - apply Forall_app. split; [exact Hr |].
    apply Forall_singleton. unfold is_reconnect in *. cbn in *. by rewrite Hk.
Qed.


Section Timers.

Variable E : Engine.

(** What [schedule_rtsp_reconnect] leaves behind: the old timer is gone and
    one new timer, due in five seconds, is recorded in the object. *)
Lemma schedule_rtsp_reconnect_sources s :
  let s' := exec schedule_rtsp_reconnect s in
  let old := reconnect_timeout_id (self s) in
  reconnect_timeout_id (self s') = w_next_source (world s)
  ∧ w_next_source (world s') = S (w_next_source (world s))
  ∧ w_sources (world s') =
      (if (0 <? old)%nat then detach old (w_sources (world s)) else w_sources (world s))
      ++ [mkSource (w_next_source (world s)) (Timeout reconnect_rtsp_source_cb 5)
            (w_now (world s) + 5)].
Proof. run. by destruct (0 <? reconnect_timeout_id (self s))%nat. Qed.

Lemma no_reconnect_after_cancel s :
  timer_inv s →
  Forall (λ src, ¬ is_reconnect src)
    (if (0 <? reconnect_timeout_id (self s))%nat
     then detach (reconnect_timeout_id (self s)) (w_sources (world s))
     else w_sources (world s)).
Proof.
  intros [_ _ _ Hr].
  destruct (0 <? reconnect_timeout_id (self s))%nat eqn:Hold.
  - apply Forall_forall. intros x [Hx Hin]%list_elem_of_filter Hrec.
    rewrite Forall_forall in Hr. destruct (Hr _ Hin Hrec). done.
  - apply Nat.ltb_ge in Hold. eapply Forall_impl; [done |].
    intros x Hx Hrec. destruct (Hx Hrec). lia.
Qed.

Lemma schedule_rtsp_reconnect_inv : preserves timer_inv schedule_rtsp_reconnect.
Proof.
  intros s Hinv.
  destruct (schedule_rtsp_reconnect_sources s) as (Hid & Hnext & Hsrc).
  cbv zeta in Hid, Hnext, Hsrc.
  pose proof (no_reconnect_after_cancel s Hinv) as Hnone.
  destruct Hinv as [Hf Hn Hp Hr].
  set (rest := if (0 <? reconnect_timeout_id (self s))%nat then _ else _) in *.
  assert (Forall (λ src, src_id src < w_next_source (world s)) rest) as Hf'.
  { subst rest. destruct (0 <? reconnect_timeout_id (self s))%nat;
      [by apply detach_forall | done]. }
  assert (NoDup (src_id <$> rest)) as Hn'.
  { subst rest. destruct (0 <? reconnect_timeout_id (self s))%nat;
      [by apply detach_nodup | done]. }
  split; rewrite ?Hid, ?Hnext, ?Hsrc.
  - apply Forall_app. split.
    + eapply Forall_impl; [exact Hf' | cbn; lia].
    + apply Forall_singleton. cbn. lia.
  - rewrite fmap_app. apply NoDup_app. split_and!; [done | | apply NoDup_singleton].
    intros x Hx ->%list_elem_of_singleton.
    apply list_elem_of_fmap in Hx as (src & Heq & Hsrc').
    rewrite Forall_forall in Hf'. specialize (Hf' _ Hsrc'). cbn in Heq. lia.
  - lia.
  - apply Forall_app. split.
    + eapply Forall_impl; [exact Hnone | cbn; intros; done].
    + apply Forall_singleton. cbn. lia.
Qed.

End Timers.

Section TimerSteps.

Variable E : Engine.

(** Both callbacks return [FALSE] and leave the sources alone; the reconnect
    callback clears [reconnect_timeout_id]. *)
Lemma run_callback_effect cb s :
  eval (run_callback E cb) s = false
  ∧ w_sources (world (exec (run_callback E cb) s)) = w_sources (world s)
  ∧ w_next_source (world (exec (run_callback E cb) s)) = w_next_source (world s)
  ∧ reconnect_timeout_id (self (exec (run_callback E cb) s)) =
      match cb with
      | reconnect_rtsp_source_cb => 0
      | switch_to_rtsp_delayed_cb => reconnect_timeout_id (self s)
      end.
Proof.
  destruct cb; run.
  - destruct (input_selector (self s)) as [sel|]; [| done].
    by destruct (w_qdata (world s) !! (sel, "rtsp-pad")).
  - by destruct (rtsp_src (self s)).
Qed.

Lemma dispatch_timeout_exec id s :
  exec (dispatch_timeout E id) s =
    match List.find (has_id id) (w_sources (world s)) with
    | Some (mkSource _ (Timeout cb _) due) =>
        if (due <=? w_now (world s))%nat then
          let s1 := exec (run_callback E cb) s in
          mkState (self s1) (set_sources (detach id (w_sources (world s1))) (world s1))
        else s
    | _ => s
    end.
Proof.
  unfold dispatch_timeout. rewrite exec_bind.
  change (eval (observe ?f) s) with (f (world s)).
  change (exec (observe ?f) s) with s.
  cbv beta.
  destruct (List.find _ _) as [[i [|cb interval] due]|]; [done | | done].
  rewrite exec_bind.
  change (eval (observe ?f) s) with (f (world s)).
  change (exec (observe ?f) s) with s.
  cbv beta.
  destruct (due <=? _)%nat; [| done].
  rewrite exec_bind.
  destruct (run_callback_effect cb s) as (-> & _). done.
Qed.

Lemma find_has_id id l src :
  List.find (has_id id) l = Some src → src ∈ l ∧ src_id src = id.
Proof.
  intros [Hin Hid]%find_some. split; [by apply list_elem_of_In |].
  unfold has_id in Hid. by apply bool_decide_eq_true in Hid.
Qed.

Lemma dispatch_timeout_inv id : preserves timer_inv (dispatch_timeout E id).
Proof.
  intros s Hinv. rewrite dispatch_timeout_exec.
  destruct (List.find _ _) as [[i [|cb interval] due]|] eqn:Hfind; [done | | done].
  destruct (due <=? _)%nat; [| done].
  apply find_has_id in Hfind as [Hin Hid]. cbn in Hid. subst i.
  destruct (run_callback_effect cb s) as (_ & Hsrc & Hnext & Hrid).
  destruct Hinv as [Hf Hn Hp Hr].
  split; cbn; rewrite ?Hsrc, ?Hnext, ?Hrid.
  - by apply detach_forall.
  - by apply detach_nodup.
  - done.
  - destruct cb.
    + by apply detach_forall.
    + apply Forall_forall. intros x [Hx Hxin]%list_elem_of_filter Hrec.
      rewrite Forall_forall in Hr.
      destruct (Hr _ Hxin Hrec) as [Hx1 _]. destruct (Hr _ Hin) as [Hx2 _]; [done |].
      cbn in Hx2. congruence.
Qed.

End TimerSteps.

Lemma filter_none {A} (P : A → Prop) `{∀ x, Decision (P x)} (l : list A) :
  Forall (λ x, ¬ P x) l → filter P l = [].
Proof.
  induction 1 as [|x l Hx _ IH]; [done |].
  rewrite filter_cons. by case_decide.
Qed.

Lemma timer_inv_filter (P : Source → Prop) `{∀ x, Decision (P x)} :
  ∀ s, timer_inv s →
    timer_inv (mkState (self s)
                 (set_sources (filter P (w_sources (world s))) (world s))).
Proof.
  intros s [Hf Hn Hp Hr]. split; cbn; [| | done |].
  - rewrite !Forall_forall in *. intros x [_ Hx]%list_elem_of_filter. by apply Hf.
  - eapply sublist_NoDup; [done | apply fmap_sublist, sublist_filter].
  - rewrite !Forall_forall in *. intros x [_ Hx]%list_elem_of_filter. by apply Hr.
Qed.

Ltac timer_write :=
  first [ timer_frame
        | apply timer_inv_attach; reflexivity
        | apply timer_inv_filter ].

Section TimerInvariant.

Variable E : Engine.

Ltac timer_known :=
  first [ apply schedule_rtsp_reconnect_inv | apply (dispatch_timeout_inv E) ].

Lemma handle_bus_message_timer_inv msg : preserves timer_inv (handle_bus_message msg).
Proof. preserved timer_known timer_write. Qed.

Lemma dispatch_timer_inv ev : preserves timer_inv (dispatch E ev).
Proof. preserved timer_known timer_write. Qed.

Lemma g_main_loop_run_timer_inv evs : preserves timer_inv (g_main_loop_run E evs).
Proof.
  induction evs as [|ev evs IH]; cbn [g_main_loop_run]; [apply preserves_ret |].
  apply preserves_bind; [apply preserves_observe |].
  intros [|]; [apply preserves_ret |].
  apply preserves_bind; [apply dispatch_timer_inv | done].
Qed.

Lemma initialize_timer_inv : preserves timer_inv (initialize E).
Proof. preserved timer_known timer_write. Qed.

Lemma start_prelude_timer_inv : preserves timer_inv (start_prelude E).
Proof. preserved timer_known timer_write. Qed.

Lemma source_errors_timer_inv n s : timer_inv s → timer_inv (source_errors n s).
Proof.
  revert s. induction n as [|n IH]; intros s Hs; [done |].
  cbn [source_errors]. by apply IH, handle_bus_message_timer_inv.
Qed.

(** Under the invariant no two reconnect timers are pending. *)
Lemma timer_inv_at_most_one s : timer_inv s → (length (reconnect_timers s) ≤ 1)%nat.
Proof.
  intros [_ Hn _ Hr]. unfold reconnect_timers.
  assert (NoDup (src_id <$> filter (λ src, is_reconnect src) (w_sources (world s)))) as Hnd.
  { eapply sublist_NoDup; [done | apply fmap_sublist, sublist_filter]. }
  assert (Forall (λ src, src_id src = reconnect_timeout_id (self s))
            (filter (λ src, is_reconnect src) (w_sources (world s)))) as Hall.
  { rewrite !Forall_forall in *. intros x [Hx Hin]%list_elem_of_filter.
    by destruct (Hr _ Hin Hx). }
  destruct (filter _ _) as [|a [|b l]]; cbn; [lia | lia |].
  apply Forall_cons in Hall as [Ha Hall]. apply Forall_cons in Hall as [Hb _].
  cbn in Hnd. apply NoDup_cons in Hnd as [Hnot _].
  exfalso. apply Hnot. rewrite Ha, Hb. apply list_elem_of_here.
Qed.

(** Every call of [schedule_rtsp_reconnect] leaves exactly one reconnect
    timer: the new one, due after the fixed interval of five seconds. *)
Lemma schedule_rtsp_reconnect_single s :
  timer_inv s →
  reconnect_timers (exec schedule_rtsp_reconnect s) =
    [mkSource (w_next_source (world s)) (Timeout reconnect_rtsp_source_cb 5)
       (w_now (world s) + 5)].
Proof.
  intros Hinv. unfold reconnect_timers.
  destruct (schedule_rtsp_reconnect_sources s) as (_ & _ & ->).
  rewrite filter_app, filter_none; [done |].
  apply (no_reconnect_after_cancel s Hinv).
Qed.

End TimerInvariant.

(** ** Bus errors *)

Lemma handle_error_exec src s :
  exec (handle_bus_message (GST_MESSAGE_ERROR src)) s =
    if decide (src = rtsp_src (self s))
    then exec schedule_rtsp_reconnect (exec switch_to_dummy_source s)
    else exec stop s.
Proof.
  unfold handle_bus_message. rewrite !exec_bind.
  change (eval (get rtsp_src) s) with (rtsp_src (self s)).
  change (exec (get rtsp_src) s) with s.
  change (exec (mret true) ?x) with x.
  destruct (decide (src = rtsp_src (self s))).
  - rewrite bool_decide_eq_true_2 by done. by rewrite exec_bind.
  - by rewrite bool_decide_eq_false_2 by done.
Qed.

Lemma switch_to_dummy_source_timer_inv : preserves timer_inv switch_to_dummy_source.
Proof. preserved fail timer_write. Qed.

Lemma source_error_single s :
  timer_inv s →
  length (reconnect_timers
            (exec (handle_bus_message (GST_MESSAGE_ERROR (rtsp_src (self s)))) s)) = 1.
Proof.
  intros Hinv. rewrite handle_error_exec, decide_True by done.
  rewrite schedule_rtsp_reconnect_single; [done |].
  by apply switch_to_dummy_source_timer_inv.
Qed.

Lemma source_errors_single n s :
  timer_inv s → length (reconnect_timers (source_errors (S n) s)) = 1.
Proof.
  revert s. induction n as [|n IH]; intros s Hinv.
  - by apply source_error_single.
  - change (source_errors (S (S n)) s) with
      (source_errors (S n)
         (exec (handle_bus_message (GST_MESSAGE_ERROR (rtsp_src (self s)))) s)).
    by apply IH, handle_bus_message_timer_inv.
Qed.

(** The timer invariant holds whenever the main loop is running. *)
Lemma session_timer_inv E uri output evs s1 s2 :
  initialize E (fresh uri output) = (true, s1) →
  start_prelude E s1 = (true, s2) →
  timer_inv (exec (g_main_loop_run E evs) s2).
Proof.
  intros Hinit Hstart.
  apply g_main_loop_run_timer_inv.
  replace s2 with (exec (start_prelude E) s1) by (unfold exec; by rewrite Hstart).
  apply start_prelude_timer_inv.
  replace s1 with (exec (initialize E) (fresh uri output))
    by (unfold exec; by rewrite Hinit).
  apply initialize_timer_inv, timer_inv_fresh.
Qed.

(** ** Routing while the live source is not connected *)

Lemma stored_fallback_pad p s : stored "dummy-pad" p s → fallback_pad s = Some p.
Proof. intros (sel & Hsel & Hp). unfold fallback_pad, selector_data. run. by rewrite Hsel. Qed.

Lemma stored_set_data key key' o d p :
  key ≠ key' →
  ∀ s, stored key p s →
    stored key p
      (mkState (self s)
         (set_qdata (match d with
                     | Some x => <[(o, key') := x]> (w_qdata (world s))
                     | None => delete (o, key') (w_qdata (world s))
                     end) (world s))).
Proof.
  intros Hne s (sel & Hsel & Hp). exists sel. split; [done |]. cbn.
  destruct d.
  - rewrite lookup_insert_ne; [done | congruence].
  - rewrite lookup_delete_ne; [done | congruence].
Qed.

Ltac stored_write :=
  first [ let sel := fresh "sel" in
          intros ? (sel & ? & ?); exists sel; split; cbn; assumption
        | apply stored_set_data; done ].

Lemma fallback_inv_set_data key' o d :
  "dummy-pad" ≠ key' →
  ∀ s, fallback_inv s →
    fallback_inv
      (mkState (self s)
         (set_qdata (match d with
                     | Some x => <[(o, key') := x]> (w_qdata (world s))
                     | None => delete (o, key') (w_qdata (world s))
                     end) (world s))).
Proof.
  intros Hne s (p & Hst & Hact). exists p. split; [| done].
  by apply stored_set_data.
Qed.

Ltac fallback_write :=
  first [ let p := fresh "p" in
          let sel := fresh "sel" in
          intros ? (p & (sel & ? & ?) & ?); exists p;
          (split; [exists sel; split; cbn; assumption | cbn; assumption])
        | apply fallback_inv_set_data; done ].

Section Routing.

Variable E : Engine.

Lemma handle_bus_message_fallback_inv msg :
  preserves fallback_inv (handle_bus_message msg).
Proof.
  intros s (p & (sel & Hsel & Hp) & Hact). unfold fallback_inv, stored.
  destruct msg; run_cases; rewrite ?active_pad_of_switch;
    (exists p; split;
       [exists sel; split; cbn; congruence
       | cbn; intros; first [congruence | auto]]).
Qed.

Lemma connect_rtsp_pad_fallback_inv pad caps :
  preserves fallback_inv (connect_rtsp_pad E pad caps).
Proof. preserved fail fallback_write. Qed.

Lemma reconnect_rtsp_source_fallback_inv :
  preserves fallback_inv (reconnect_rtsp_source E).
Proof. preserved fail fallback_write. Qed.

Lemma dispatch_fallback_inv ev s :
  grace_fires ev s = false → fallback_inv s → fallback_inv (exec (dispatch E ev) s).
Proof.
  intros Hgrace Hinv. destruct ev as [m|pad caps| |id| |].
  - clear Hgrace. revert s Hinv. change (preserves fallback_inv (dispatch_bus m)).
    preserved ltac:(apply handle_bus_message_fallback_inv) fallback_write.
  - by apply connect_rtsp_pad_fallback_inv.
  - done.
  - change (dispatch E (TimeoutReady id)) with (dispatch_timeout E id).
    rewrite dispatch_timeout_exec. cbn in Hgrace.
    destruct (List.find _ _) as [[i [|[|] interval] due]|]; [done | | | done].
    + by rewrite Hgrace.
    + destruct (due <=? _)%nat; [| done].
      revert Hinv. cbv zeta. generalize (reconnect_rtsp_source_fallback_inv s).
      unfold run_callback. intros H Hinv. specialize (H Hinv).
      revert H. generalize (exec (reconnect_rtsp_source E) s). by fallback_write.
  - clear Hgrace. revert s Hinv. change (preserves fallback_inv (dispatch E Second)).
    preserved fail fallback_write.
  - clear Hgrace. revert s Hinv. change (preserves fallback_inv (dispatch E Signal)).
    preserved fail fallback_write.
Qed.

Lemma g_main_loop_run_fallback_inv evs s :
  grace_free E evs s = true → fallback_inv s → fallback_inv (exec (g_main_loop_run E evs) s).
Proof.
  revert s. induction evs as [|ev evs IH]; intros s Hfree Hinv; [done |].
  cbn [g_main_loop_run grace_free] in *. rewrite exec_bind.
  change (eval (observe w_quit) s) with (w_quit (world s)).
  change (exec (observe w_quit) s) with s.
  destruct (w_quit (world s)); [done |].
  apply andb_prop in Hfree as [Hev Hrest]. apply negb_true_iff in Hev.
  rewrite exec_bind. apply IH; [done |]. by apply dispatch_fallback_inv.
Qed.

End Routing.

(** Writes that leave a field of the object or of the world alone. *)
Ltac field_write := intros ? ?; cbn; assumption.

Section Startup.

Variable E : Engine.

Lemma connect_dummy_source_run s :
  let (r, s') := connect_dummy_source E s in
  r = true → ∃ p, stored "dummy-pad" p s'.
Proof.
  unfold stored. run_cases; intros Hr; try discriminate Hr.
  all: eexists _, _; (split; [eassumption | apply lookup_insert_eq]).
Qed.

Lemma connect_dummy_source_stores :
  hoare (λ _, True) (connect_dummy_source E)
    (λ r s, r = true → ∃ p, stored "dummy-pad" p s).
Proof.
  intros s _. pose proof (connect_dummy_source_run s) as Hrun.
  unfold eval, exec. by destruct (connect_dummy_source E s).
Qed.

Lemma gst_element_link_stored key p a b :
  preserves (stored key p) (gst_element_link E a b).
Proof. preserved fail stored_write. Qed.

Lemma initialize_core_stores :
  hoare (λ _, True) (initialize_core E)
    (λ r s, r = true → ∃ p, stored "dummy-pad" p s).
Proof.
  unfold initialize_core.
  repeat first
    [ lazymatch goal with
      | |- hoare _ (connect_dummy_source _ ≫= _) _ => fail
      | |- hoare _ (_ ≫= _) _ => apply hoare_skip; intros ?
      end
    | lazymatch goal with
      | |- hoare _ (if ?c then _ else _) _ =>
          destruct c; [by apply hoare_ret |]
      end ].
  eapply hoare_bind; [apply connect_dummy_source_stores |].
  intros [|]; cbn [negb]; [| by apply hoare_ret].
  apply hoare_bind with (R := λ _ s, ∃ p, stored "dummy-pad" p s).
  { intros s Hs. destruct (Hs eq_refl) as [p Hp].
    exists p. by apply gst_element_link_stored. }
  intros [|]; cbn [negb]; apply hoare_ret; [by intros s [p Hp] _; exists p | done].
Qed.

Lemma initialize_outputs_stored key p :
  preserves (stored key p) (initialize_outputs E).
Proof. preserved fail stored_write. Qed.

Lemma initialize_stores s s1 :
  initialize E s = (true, s1) → ∃ p, stored "dummy-pad" p s1.
Proof.
  intros Hinit.
  assert (eval (initialize E) s = true) as Heval by (unfold eval; by rewrite Hinit).
  assert (exec (initialize E) s = s1) as Hexec by (unfold exec; by rewrite Hinit).
  unfold initialize in Heval, Hexec. rewrite eval_bind in Heval. rewrite exec_bind in Hexec.
  destruct (eval (initialize_core E) s) eqn:Hcore; [| done].
  destruct (initialize_core_stores s I Hcore) as [p Hp]. exists p.
  subst s1. by apply initialize_outputs_stored.
Qed.

Lemma start_prelude_routes s p :
  stored "dummy-pad" p s →
  eval (start_prelude E) s = true →
  stored "dummy-pad" p (exec (start_prelude E) s)
  ∧ w_active_pad (world (exec (start_prelude E) s)) = Some p
  ∧ is_rtsp_connected (self (exec (start_prelude E) s)) = is_rtsp_connected (self s).
Proof.
  intros (sel & Hsel & Hp). unfold stored.
  run_cases; intros; try discriminate; rewrite ?active_pad_of_switch;
    (split_and!; [exists sel; split; cbn; congruence | cbn; congruence | done]).
Qed.


End Startup.

(** ** The life of a reconnect timer *)

Lemma later_world n s :
  w_sources (world (later n s)) = w_sources (world s)
  ∧ w_trace (world (later n s)) = w_trace (world s)
  ∧ w_next_source (world (later n s)) = w_next_source (world s)
  ∧ w_now (world (later n s)) = w_now (world s) + n
  ∧ self (later n s) = self s.
Proof.
  unfold later. cbn [self world]. induction n as [|n IH]; [cbn [Nat.iter] |].
  - split_and!; first [done | lia].
  - destruct IH as (IH1 & IH2 & IH3 & IH4 & _).
    change (Nat.iter (S n) advance_clock (world s))
      with (advance_clock (Nat.iter n advance_clock (world s))).
    cbn [advance_clock w_sources w_trace w_next_source w_now].
    rewrite IH1, IH2, IH3, IH4. split_and!; first [done | lia].
Qed.

Lemma find_last_source id rest x :
  Forall (λ src, src_id src ≠ id) rest → src_id x = id →
  List.find (has_id id) (rest ++ [x]) = Some x.
Proof.
  intros Hrest Hx. induction Hrest as [|y l Hy _ IH]; cbn.
  - unfold has_id. by rewrite bool_decide_eq_true_2.
  - unfold has_id at 1. by rewrite bool_decide_eq_false_2.
Qed.

Lemma find_detached id l : List.find (has_id id) (detach id l) = None.
Proof.
  destruct (List.find _ _) as [src|] eqn:Hfind; [| done].
  apply find_has_id in Hfind as [[Hne _]%list_elem_of_filter Hid]. done.
Qed.

Lemma quiet_no_timers live s : quiet live s → reconnect_timers s = [].
Proof. intros [Hnone _]. by apply filter_none. Qed.

Lemma quiet_filter live (P : Source → Prop) `{∀ x, Decision (P x)} :
  ∀ s, quiet live s →
    quiet live (mkState (self s)
                  (set_sources (filter P (w_sources (world s))) (world s))).
Proof.
  intros s [Hnone Hlive]. split; [| done]. cbn.
  rewrite !Forall_forall in *. intros x [_ Hx]%list_elem_of_filter. by apply Hnone.
Qed.

Lemma quiet_attach live k delay :
  is_reconnect (mkSource 0 k 0) = false →
  ∀ s, quiet live s → quiet live (mkState (self s) (attach k delay (world s))).
Proof.
  intros Hk s [Hnone Hlive]. split; [| done]. cbn.
  apply Forall_app. split; [done |]. apply Forall_singleton.
  intros Hrec. unfold is_reconnect in *. cbn [src_kind] in *. by rewrite Hk in Hrec.
Qed.

Ltac quiet_write :=
  first [ intros ? [? ?]; split; cbn; assumption
        | apply quiet_attach; reflexivity
        | apply quiet_filter ].

Section ReconnectTimer.

Variable E : Engine.

Lemma handle_bus_message_quiet live msg s :
  enters_disconnected live (BusMessage msg) = false →
  quiet live s → quiet live (exec (handle_bus_message msg) s).
Proof.
  intros Hev [Hnone Hlive]. subst live. unfold quiet.
  destruct msg; cbn [enters_disconnected] in Hev; run_cases;
    repeat match goal with
           | H : _ = _ |- _ =>
               tryif constr_eq H Hev then fail else rewrite H in Hev
           end;
    try discriminate Hev; split; cbn; done.
Qed.

Lemma connect_rtsp_pad_quiet live pad caps :
  preserves (quiet live) (connect_rtsp_pad E pad caps).
Proof. preserved fail quiet_write. Qed.

Lemma switch_to_rtsp_delayed_quiet live : preserves (quiet live) switch_to_rtsp_delayed.
Proof. preserved fail quiet_write. Qed.

Lemma dispatch_quiet live ev s :
  enters_disconnected live ev = false →
  quiet live s → quiet live (exec (dispatch E ev) s).
Proof.
  intros Hev Hq. destruct ev as [m|pad caps| |id| |].
  - change (dispatch E (BusMessage m)) with (dispatch_bus m).
    unfold dispatch_bus. rewrite exec_bind.
    change (exec (observe ?f) s) with s.
    destruct (eval (observe _) s); [| done].
    rewrite exec_bind.
    pose proof (handle_bus_message_quiet live m s Hev Hq) as Hq'.
    destruct (eval (handle_bus_message m) s); [done |].
    revert Hq'. generalize (exec (handle_bus_message m) s). by quiet_write.
  - by apply connect_rtsp_pad_quiet.
  - done.
  - change (dispatch E (TimeoutReady id)) with (dispatch_timeout E id).
    rewrite dispatch_timeout_exec.
    destruct (List.find _ _) as [[i [|[|] interval] due]|] eqn:Hfind; [done | | | done].
    + destruct (due <=? _)%nat; [| done].
      cbv zeta. unfold run_callback.
      pose proof (switch_to_rtsp_delayed_quiet live s Hq) as Hq'.
      revert Hq'. generalize (exec switch_to_rtsp_delayed s). by quiet_write.
    + apply find_has_id in Hfind as [Hin _]. destruct Hq as [Hnone _].
      rewrite Forall_forall in Hnone. by destruct (Hnone _ Hin).
  - revert s Hq. change (preserves (quiet live) (dispatch E Second)).
    preserved fail quiet_write.
  - revert s Hq. change (preserves (quiet live) (dispatch E Signal)).
    preserved fail quiet_write.
Qed.

Lemma g_main_loop_run_quiet evs s :
  existsb (enters_disconnected (rtsp_src (self s))) evs = false →
  quiet (rtsp_src (self s)) s →
  reconnect_timers (exec (g_main_loop_run E evs) s) = [].
Proof.
  intros Hevs Hq. apply (quiet_no_timers (rtsp_src (self s))).
  revert Hevs Hq. generalize (rtsp_src (self s)) as live. intros live.
  revert s. induction evs as [|ev evs IH]; intros s Hevs Hq; [done |].
  cbn [g_main_loop_run existsb] in *. apply orb_false_elim in Hevs as [Hev Hevs].
  rewrite exec_bind.
  change (eval (observe w_quit) s) with (w_quit (world s)).
  change (exec (observe w_quit) s) with s.
  destruct (w_quit (world s)); [done |].
  rewrite exec_bind. apply IH; [done |]. by apply dispatch_quiet.
Qed.

End ReconnectTimer.

Section ReconnectFiring.

Variable E : Engine.

Lemma timer_inv_later n s : timer_inv s → timer_inv (later n s).
Proof.
  intros [Hf Hn Hp Hr]. destruct (later_world n s) as (Hs & _ & Hx & _ & Hself).
  split; rewrite ?Hs, ?Hx, ?Hself; done.
Qed.

(** The reconnect callback forces the live source to [NULL] and then back to
    [PLAYING], and does nothing else to the engine. *)
Lemma reconnect_rtsp_source_trace s :
  ∃ r1 r2,
    w_trace (world (exec (reconnect_rtsp_source E) s)) =
      w_trace (world s)
      ++ match rtsp_src (self s) with
         | Some src => [(SetState src GST_STATE_NULL, RStateChange r1);
                        (SetState src GST_STATE_PLAYING, RStateChange r2)]
         | None => []
         end.
Proof.
  run_cases;
    [eexists _, _ | exists GST_STATE_CHANGE_FAILURE, GST_STATE_CHANGE_FAILURE];
    cbn; rewrite <- ?app_assoc, ?app_nil_r; reflexivity.
Qed.

Lemma reconnect_rtsp_source_live s :
  rtsp_src (self (exec (reconnect_rtsp_source E) s)) = rtsp_src (self s).
Proof. by run_cases. Qed.

(** The sources right after [schedule_rtsp_reconnect]: what was there, minus
    the cancelled timer, and the new timer at the end. *)
Lemma scheduled_find s0 :
  timer_inv s0 →
  let s := exec schedule_rtsp_reconnect s0 in
  ∃ rest,
    w_sources (world s) =
      rest ++ [mkSource (reconnect_timeout_id (self s))
                 (Timeout reconnect_rtsp_source_cb 5) (w_now (world s0) + 5)]
    ∧ Forall (λ src, ¬ is_reconnect src) rest
    ∧ List.find (has_id (reconnect_timeout_id (self s))) (w_sources (world s)) =
        Some (mkSource (reconnect_timeout_id (self s))
                (Timeout reconnect_rtsp_source_cb 5) (w_now (world s0) + 5)).
Proof.
  intros Hinv. cbv zeta.
  destruct (schedule_rtsp_reconnect_sources s0) as (Hid & _ & Hsrc).
  cbv zeta in Hid, Hsrc. rewrite Hid, Hsrc.
  eexists. split_and!; [reflexivity | apply (no_reconnect_after_cancel s0 Hinv) |].
  apply find_last_source; [| done].
  destruct Hinv as [Hf _ _ _].
  assert (Forall (λ src, src_id src < w_next_source (world s0))
            (if (0 <? reconnect_timeout_id (self s0))%nat
             then detach (reconnect_timeout_id (self s0)) (w_sources (world s0))
             else w_sources (world s0))) as Hf'.
  { destruct (0 <? _)%nat; [by apply detach_forall | done]. }
  eapply Forall_impl; [exact Hf' | cbn; lia].
Qed.

End ReconnectFiring.

(** ** The grace period *)

Section GracePeriod.

Variable E : Engine.





Lemma create_rtsp_decode_chain_exec pad s :
  exec (create_rtsp_decode_chain E pad) s =
    match eval (link_rtsp_decode_chain E pad) s with
    | Some caps =>
        exec (await_rtsp_decode_chain E (Some caps))
          (exec (link_rtsp_decode_chain E pad) s)
    | None => exec (link_rtsp_decode_chain E pad) s
    end.
Proof.
  unfold create_rtsp_decode_chain. rewrite exec_bind.
  by destruct (eval (link_rtsp_decode_chain E pad) s).
Qed.


End GracePeriod.

(** ** Building the graph: failures *)

Lemma clean_log c r :
  checked_failure (c, r) = false →
  ∀ s, clean s → clean (mkState (self s) (log c r (world s))).
Proof.
  intros Hok s Hs. unfold clean. cbn. apply Forall_app. split; [done |].
  by apply Forall_singleton.
Qed.

Ltac clean_write :=
  first [ intros ? ?; assumption
        | apply clean_log; reflexivity ].

Lemma neutral_checked {T} (m : M T) : preserves clean m → checked (λ _, True) m.
Proof. intros Hm G s Hs [HG _]. by apply Hm, Hs. Qed.

Section Checked.

Variable E : Engine.

Lemma checked_new_object c factory name :
  (∀ h, checked_failure (c, RHandle (Some h)) = false) →
  checked (λ a, is_null a = false) (new_object E c factory name).
Proof.
  intros Hc G s Hs. unfold eval, exec. run.
  destruct (eng_ok E (length (w_trace (world s)))); run; intros [HG Hgood];
    [| done].
  unfold clean. cbn. apply Forall_app. split; [by apply Hs |].
  by apply Forall_singleton.
Qed.

Lemma checked_pipeline_new name :
  checked (λ a, is_null a = false) (gst_pipeline_new E name).
Proof. by apply checked_new_object. Qed.

Lemma checked_factory_make factory name :
  checked (λ a, is_null a = false) (gst_element_factory_make E factory name).
Proof. by apply checked_new_object. Qed.

Lemma checked_fallible c :
  checked_failure (c, RBool true) = false →
  checked (λ ok, ok = true) (fallible E c).
Proof.
  intros Hc G s Hs. unfold eval, exec. run. intros [HG ->].
  unfold clean. cbn. apply Forall_app. split; [by apply Hs |].
  by apply Forall_singleton.
Qed.

Lemma checked_element_link a b : checked (λ ok, ok = true) (gst_element_link E a b).
Proof.
  destruct a, b; try (by intros G s Hs [_ [=]]). by apply checked_fallible.
Qed.

Lemma checked_element_link_many es :
  checked (λ ok, ok = true) (gst_element_link_many E es).
Proof.
  unfold gst_element_link_many.
  destruct (all_present es); [by apply checked_fallible | by intros G s Hs [_ [=]]].
Qed.

(** A pad link that succeeds was given two pads: it settles the requests
    that produced them. *)
Lemma checked_pad_link (G : Prop) a b :
  hoare (λ s, G → clean s) (gst_pad_link E a b)
    (λ ok s, (is_null a = false ∧ is_null b = false → G) ∧ ok = true → clean s).
Proof.
  destruct a, b; try (by intros s Hs [_ [=]]).
  intros s Hs [HG Hok].
  apply (checked_fallible (PadLink (Some p) (Some p0)) eq_refl G s Hs).
  split; [by apply HG | done].
Qed.

Lemma checked_get_static_pad e name :
  checked (λ p, is_null p = false) (gst_element_get_static_pad E e name).
Proof.
  destruct e as [h|]; [| by intros G s Hs [_ [=]]].
  intros G s Hs. unfold eval, exec. run.
  destruct (eng_ok E (length (w_trace (world s)))); intros [HG Hgood]; [| done].
  unfold clean. cbn. apply Forall_app. split; [by apply Hs |].
  by apply Forall_singleton.
Qed.

Lemma checked_get_request_pad e template :
  checked (λ p, is_null p = false) (gst_element_get_request_pad E e template).
Proof.
  destruct e as [h|]; [| by intros G s Hs [_ [=]]].
  intros G s Hs. unfold eval, exec. run.
  destruct (eng_ok E (length (w_trace (world s)))); intros [HG Hgood]; [| done].
  unfold clean. cbn. apply Forall_app. split; [by apply Hs |].
  by apply Forall_singleton.
Qed.

End Checked.

(** Closes the triple of a [return]: a good value comes with every check
    made on the way, which the tests taken have recorded in the context. *)
Ltac checked_return :=
  apply hoare_ret;
  let H := fresh in
  intros ? H [? ?]; try discriminate; apply H;
  repeat match goal with
         | Hc : _ || _ = false |- _ => apply orb_false_elim in Hc as [? ?]
         | Hc : negb _ = false |- _ => apply negb_false_iff in Hc
         end;
  intuition (first [assumption | reflexivity]).

(** Walks through a function whose calls are all checked or neutral. *)
Ltac checked_walk known :=
  repeat first
    [ checked_return
    | lazymatch goal with
      | |- hoare _ (if ?c then _ else _) _ => destruct c eqn:?
      end
    | eapply hoare_bind;
      [ first [ known
              | apply checked_factory_make
              | apply checked_pipeline_new
              | apply checked_element_link
              | apply checked_element_link_many
              | apply checked_pad_link
              | apply checked_get_static_pad
              | apply checked_get_request_pad
              | apply neutral_checked; solve [preserved fail clean_write] ]
      | intros ? ] ].

Section CheckedBuild.

Variable E : Engine.

Lemma checked_connect_dummy_source :
  checked (λ r, r = true) (connect_dummy_source E).
Proof. intros G. unfold connect_dummy_source. checked_walk fail. Qed.

Lemma checked_create_dash_pipeline quality width height bitrate :
  checked (λ r, r = true) (create_dash_pipeline E quality width height bitrate).
Proof. intros G. unfold create_dash_pipeline. cbv zeta. checked_walk fail. Qed.

Lemma checked_initialize_core : checked (λ r, r = true) (initialize_core E).
Proof.
  intros G. unfold initialize_core.
  checked_walk ltac:(apply checked_connect_dummy_source).
Qed.

Lemma checked_initialize_outputs : checked (λ r, r = true) (initialize_outputs E).
Proof.
  intros G. unfold initialize_outputs.
  checked_walk ltac:(apply checked_create_dash_pipeline).
Qed.

Lemma checked_initialize : checked (λ r, r = true) (initialize E).
Proof.
  intros G. unfold initialize.
  eapply hoare_bind; [apply checked_initialize_core |].
  intros [|]; cbn [negb]; [| checked_return].
  intros s Hs [HG Hr].
  apply (checked_initialize_outputs (G ∧ true = true) s Hs). by split.
Qed.

End CheckedBuild.

(** ** Building the graph: order *)

Lemma logged_log e c r :
  ∀ s, logged e s → logged e (mkState (self s) (log c r (world s))).
Proof. intros s H. unfold logged in *. cbn. apply elem_of_app. by left. Qed.

(** Writes under which logged entries and fields of the object persist. *)
Ltac anchor_write :=
  intros ? ?;
  repeat match goal with H : _ ∧ _ |- _ => destruct H end;
  repeat split;
  first [ exact I
        | cbn; assumption
        | apply logged_log; assumption ].

Lemma hoare_frame {T} (P : State → Prop) (m : M T) (Q : T → State → Prop) :
  preserves P m → hoare (λ _, True) m Q → hoare P m (λ a s, P s ∧ Q a s).
Proof. intros Hp Hq s Hs. split; [by apply Hp | by apply Hq]. Qed.

Lemma hoare_put {X} (proj : Streamer → X) f v :
  (∀ t, proj (f t) = v) →
  hoare (λ _, True) (put f) (λ _ s, proj (self s) = v).
Proof. intros H s _. apply H. Qed.

Lemma extends_refl s : w_trace (world s) `prefix_of` w_trace (world s).
Proof. done. Qed.

(** A profile creation found in [l1 ++ l2] when [l1] has none lies in [l2]. *)
Lemma split_after {A} (f : A → bool) (l1 l2 pre post : list A) (e : A) :
  Forall (λ x, f x = false) l1 → f e = true →
  l1 ++ l2 = pre ++ e :: post → ∃ mid, pre = l1 ++ mid.
Proof.
  revert pre. induction l1 as [|x l1 IH]; intros pre Hl1 He Heq; [by exists pre |].
  apply Forall_cons in Hl1 as [Hx Hl1].
  destruct pre as [|y pre]; cbn in Heq.
  - injection Heq as -> _. congruence.
  - injection Heq as -> Heq. destruct (IH pre Hl1 He Heq) as [mid ->]. by exists mid.
Qed.

Section BuildOrder.

Variable E : Engine.

Lemma new_object_logged c factory name :
  hoare (λ _, True) (new_object E c factory name)
    (λ a s, match a with
            | Some h => logged (c, RHandle (Some h)) s
            | None => True
            end).
Proof.
  intros s _. unfold eval, exec, logged. run.
  destruct (eng_ok E (length (w_trace (world s)))); run; [| done].
  cbn. apply elem_of_app. right. apply list_elem_of_here.
Qed.

Lemma gst_element_link_logged a b :
  hoare (λ _, True) (gst_element_link E a b)
    (λ ok s, ok = true →
             ∃ x y, a = Some x ∧ b = Some y ∧ logged (ElementLink x y, RBool true) s).
Proof.
  intros s _. destruct a as [x|], b as [y|]; try done.
  unfold eval, exec, logged. run. intros ->. exists x, y. split_and!; [done .. |].
  cbn. apply elem_of_app. right. apply list_elem_of_here.
Qed.

(** What a successful [connect_dummy_source] has logged. *)
Lemma connect_dummy_source_entries s :
  let (r, s') := connect_dummy_source E s in
  r = true →
  ∃ dsrc dconv dcaps sel k,
    dummy_src (self s) = Some dsrc
    ∧ input_selector (self s) = Some sel
    ∧ logged (FactoryMake "videoconvert" (Some "dummy-convert"), RHandle (Some dconv)) s'
    ∧ logged (FactoryMake "capsfilter" (Some "dummy-caps"), RHandle (Some dcaps)) s'
    ∧ logged (ElementLinkMany [dsrc; dconv; dcaps], RBool true) s'
    ∧ logged (PadLink (Some (StaticPad dcaps "src")) (Some (RequestPad sel k)),
              RBool true) s'.
Proof.
  unfold logged. run_cases; intros Hr; try discriminate Hr.
  all: eexists _, _, _, _, _; split_and!; [reflexivity | reflexivity | ..].
  all: cbn; rewrite <- ?app_assoc; cbn [app];
    rewrite elem_of_app; right;
    repeat first [apply list_elem_of_here | apply list_elem_of_further].
Qed.

Lemma connect_dummy_source_logged :
  hoare (λ _, True) (connect_dummy_source E)
    (λ r s, r = true →
       ∃ dsrc dconv dcaps sel k,
         dummy_src (self s) = Some dsrc
         ∧ input_selector (self s) = Some sel
         ∧ logged (FactoryMake "videoconvert" (Some "dummy-convert"),
                   RHandle (Some dconv)) s
         ∧ logged (FactoryMake "capsfilter" (Some "dummy-caps"),
                   RHandle (Some dcaps)) s
         ∧ logged (ElementLinkMany [dsrc; dconv; dcaps], RBool true) s
         ∧ logged (PadLink (Some (StaticPad dcaps "src")) (Some (RequestPad sel k)),
                   RBool true) s).
Proof.
  intros s _. pose proof (connect_dummy_source_entries s) as Hrun.
  assert (preserves (λ s', dummy_src (self s') = dummy_src (self s)
                           ∧ input_selector (self s') = input_selector (self s))
            (connect_dummy_source E)) as Hfields
    by (preserved fail anchor_write).
  specialize (Hfields s (conj eq_refl eq_refl)). revert Hrun Hfields.
  unfold eval, exec. destruct (connect_dummy_source E s) as [r s']. cbn [fst snd].
  intros Hrun [Hd Hsel] Hr.
  destruct (Hrun Hr) as (dsrc & dconv & dcaps & sel & k & H1 & H2 & H3).
  exists dsrc, dconv, dcaps, sel, k. by rewrite Hd, Hsel.
Qed.

Lemma hoare_forget {T} (P : State → Prop) (m : M T) (Q : T → State → Prop) :
  hoare (λ _, True) m Q → hoare P m Q.
Proof. intros H s _. by apply H. Qed.

(** One step that the assertion survives. *)
Ltac keep :=
  eapply hoare_bind;
  [ apply preserves_hoare; solve [preserved fail anchor_write] | intros ? ].

(** One step that the assertion survives and that adds the fact [spec]
    establishes. *)
Ltac record spec :=
  eapply hoare_bind;
  [ apply hoare_frame; [ solve [preserved fail anchor_write] | spec ] | ].

(** A branch that can only return [false]. *)
Ltac bail :=
  apply hoare_forget;
  repeat first [ apply hoare_skip; intros ? | cbn [is_null negb] ];
  by apply hoare_ret.

Lemma initialize_core_anchored :
  hoare (λ _, True) (initialize_core E)
    (λ r s, r = true → anchored s (w_trace (world s))).
Proof.
  unfold initialize_core.
  apply hoare_skip; intros p. apply hoare_skip; intros _.
  destruct (is_null p); [by apply hoare_ret |].
  apply hoare_skip; intros src. apply hoare_skip; intros _.
  destruct (is_null src); [by apply hoare_ret |].
  apply hoare_skip; intros uri. apply hoare_skip; intros _.
  eapply hoare_bind; [apply new_object_logged |].
  intros [dummy|]; cbv beta iota; [| bail].
  record ltac:(apply (hoare_put dummy_src); intros ?; cbn; reflexivity). intros ?. cbv beta. cbn [is_null].
  keep.
  record ltac:(apply new_object_logged).
  intros [sel|]; cbv beta iota; [| bail].
  record ltac:(apply (hoare_put input_selector); intros ?; cbn; reflexivity). intros ?. cbv beta. cbn [is_null].
  record ltac:(apply new_object_logged).
  intros [t|]; cbv beta iota; [| bail].
  record ltac:(apply (hoare_put tee); intros ?; cbn; reflexivity). intros ?. cbv beta. cbn [is_null].
  keep.
  record ltac:(apply connect_dummy_source_logged).
  intros [|]; cbn [negb]; [| by apply hoare_ret].
  intros s ((((((Hdummy & Hfd) & Hsel) & Hfs) & Htee) & Hft) & Hconn).
  destruct (Hconn eq_refl) as (dsrc & dconv & dcaps & sel' & k & Hd & Hs & H1 & H2 & H3 & H4).
  clear Hconn. rewrite Hfd in Hd. rewrite Hfs in Hs.
  injection Hd as <-. injection Hs as <-.
  assert (preserves
            (λ s, ((((((((logged (FactoryMake "videotestsrc" (Some "dummy-source"),
                                  RHandle (Some dummy)) s
                          ∧ dummy_src (self s) = Some dummy)
                         ∧ logged (FactoryMake "input-selector" (Some "input-selector"),
                                   RHandle (Some sel)) s)
                        ∧ input_selector (self s) = Some sel)
                       ∧ logged (FactoryMake "tee" (Some "tee"), RHandle (Some t)) s)
                      ∧ tee (self s) = Some t)
                     ∧ logged (FactoryMake "videoconvert" (Some "dummy-convert"),
                               RHandle (Some dconv)) s)
                    ∧ logged (FactoryMake "capsfilter" (Some "dummy-caps"),
                              RHandle (Some dcaps)) s)
                   ∧ logged (ElementLinkMany [dummy; dconv; dcaps], RBool true) s)
                  ∧ logged (PadLink (Some (StaticPad dcaps "src"))
                              (Some (RequestPad sel k)), RBool true) s)
            (gst_element_link E (Some sel) (Some t))) as Hframe
    by (preserved fail anchor_write).
  specialize (Hframe s). cbv beta in Hframe.
  destruct Hframe as (((((((((F1 & F2) & F3) & F4) & F5) & F6) & F7) & F8) & F9) & F10);
    [by repeat split |].
  pose proof (gst_element_link_logged (Some sel) (Some t) s I) as Hlink.
  rewrite eval_bind, exec_bind.
  destruct (eval (gst_element_link E (Some sel) (Some t)) s); cbn [negb]; [| done].
  destruct (Hlink eq_refl) as (x & y & [= <-] & [= <-] & F11).
  intros _. change (exec (mret true) ?x) with x.
  exists dummy, dconv, dcaps, sel, t, k. by split_and!.
Qed.

End BuildOrder.

Lemma no_profile_log c r :
  creates_profile_node (c, r) = false →
  ∀ s, no_profile s → no_profile (mkState (self s) (log c r (world s))).
Proof.
  intros Hc s Hs. unfold no_profile. cbn. apply Forall_app. split; [done |].
  by apply Forall_singleton.
Qed.

Ltac no_profile_write :=
  first [ intros ? ?; assumption
        | apply no_profile_log; reflexivity ].

Lemma never_started_log c r :
  starts_streaming (c, r) = false →
  ∀ s, never_started s → never_started (mkState (self s) (log c r (world s))).
Proof.
  intros Hc s Hs. unfold never_started. cbn. apply Forall_app. split; [done |].
  by apply Forall_singleton.
Qed.

Ltac never_started_write :=
  first [ intros ? ?; assumption
        | apply never_started_log; reflexivity ].

Ltac extends_write :=
  intros ? ?; unfold extends in *; cbn; first [assumption | by apply prefix_app_r].

Lemma anchored_mono s pre pre' :
  pre `prefix_of` pre' → anchored s pre → anchored s pre'.
Proof.
  intros [ext ->] (dsrc & dconv & dcaps & sel & t & k & H).
  exists dsrc, dconv, dcaps, sel, t, k.
  repeat match goal with H : _ ∧ _ |- _ => destruct H end.
  split_and!; try done; apply elem_of_app; by left.
Qed.

Ltac anchored_write :=
  let dsrc := fresh "dsrc" in
  let dconv := fresh "dconv" in
  let dcaps := fresh "dcaps" in
  let sel := fresh "sel" in
  let t := fresh "t" in
  let k := fresh "k" in
  intros ? (dsrc & dconv & dcaps & sel & t & k & ?);
  exists dsrc, dconv, dcaps, sel, t, k;
  repeat match goal with H : _ ∧ _ |- _ => destruct H end;
  split_and!; cbn; assumption.

Section BuildTheorem.

Variable E : Engine.

Lemma initialize_core_no_profile : preserves no_profile (initialize_core E).
Proof. preserved fail no_profile_write. Qed.

Lemma initialize_outputs_extends t0 : preserves (extends t0) (initialize_outputs E).
Proof. preserved fail extends_write. Qed.

Lemma initialize_outputs_anchored pre :
  preserves (λ s, anchored s pre) (initialize_outputs E).
Proof. preserved fail anchored_write. Qed.

Lemma initialize_never_started : preserves never_started (initialize E).
Proof. preserved fail never_started_write. Qed.

Lemma cleanup_never_started : preserves never_started (cleanup E).
Proof. preserved fail never_started_write. Qed.

(** Every creation of a profile node comes after the creation and the
    linking of the fallback branch, the selector and the tee. *)
Lemma initialize_order s0 pre e post :
  no_profile s0 →
  w_trace (world (exec (initialize E) s0)) = pre ++ e :: post →
  creates_profile_node e = true →
  anchored (exec (initialize E) s0) pre.
Proof.
  intros Hs0 Htrace He. revert Htrace.
  unfold initialize. rewrite exec_bind.
  pose proof (initialize_core_no_profile s0 Hs0) as Hcore.
  pose proof (initialize_core_anchored E s0 I) as Hanch.
  destruct (eval (initialize_core E) s0); cbn [negb].
  - set (sc := exec (initialize_core E) s0) in *.
    pose proof (initialize_outputs_extends (w_trace (world sc)) sc (extends_refl sc))
      as [ext Hext].
    intros Htrace. rewrite Hext in Htrace.
    destruct (split_after creates_profile_node _ _ _ _ _ Hcore He Htrace) as [mid ->].
    apply anchored_mono with (pre := w_trace (world sc)); [by exists mid |].
    apply (initialize_outputs_anchored (w_trace (world sc)) sc). by apply Hanch.
  - change (exec (mret false) ?x) with x. intros Htrace.
    unfold no_profile in Hcore. rewrite Htrace in Hcore.
    apply Forall_app in Hcore as [_ Hcore]. apply Forall_cons in Hcore as [Hcore _].
    congruence.
Qed.

End BuildTheorem.

(** ** Shutdown *)

Section Shutdown.

Variable E : Engine.

(** What [cleanup] leaves in the object and in the main context. *)
Lemma cleanup_exec s :
  let s' := exec (cleanup E) s in
  reconnect_timeout_id (self s') = 0
  ∧ bus_watch_id (self s') = 0
  ∧ pipeline (self s') = None
  ∧ bus (self s') = None
  ∧ loop (self s') = None
  ∧ w_sources (world s') =
      (if (0 <? bus_watch_id (self s))%nat
       then detach (bus_watch_id (self s)) else id)
        ((if (0 <? reconnect_timeout_id (self s))%nat
          then detach (reconnect_timeout_id (self s)) else id)
           (w_sources (world s))).
Proof.
  cbv zeta. run_cases; cbn;
    repeat match goal with
           | H : (0 <? _)%nat = false |- _ => apply Nat.ltb_ge in H
           end;
    split_and!; first [done | lia].
Qed.

(** A second [cleanup] does nothing. *)
Lemma cleanup_idempotent s :
  exec (cleanup E) (exec (cleanup E) s) = exec (cleanup E) s.
Proof.
  destruct (cleanup_exec s) as (Hr & Hw & Hp & Hb & Hl & _).
  generalize dependent (exec (cleanup E) s). intros s' Hr Hw Hp Hb Hl.
  run. rewrite Hr. change (0 <? 0)%nat with false. run.
  rewrite Hw. change (0 <? 0)%nat with false. run.
  rewrite Hp. run. rewrite Hb. run. rewrite Hl. run.
  by destruct s'.
Qed.

(** [cleanup] cancels the reconnect timer. *)
Lemma cleanup_cancels_reconnect s :
  timer_inv s → reconnect_timers (exec (cleanup E) s) = [].
Proof.
  intros Hinv. unfold reconnect_timers.
  destruct (cleanup_exec s) as (_ & _ & _ & _ & _ & ->).
  apply filter_none.
  pose proof (no_reconnect_after_cancel s Hinv) as Hnone.
  assert (Forall (λ src, ¬ is_reconnect src)
            ((if (0 <? reconnect_timeout_id (self s))%nat
              then detach (reconnect_timeout_id (self s)) else id)
               (w_sources (world s)))) as Hnone'.
  { by destruct (0 <? reconnect_timeout_id (self s))%nat. }
  destruct (0 <? bus_watch_id (self s))%nat; [| done].
  rewrite !Forall_forall in *. intros x [_ Hx]%list_elem_of_filter. by apply Hnone'.
Qed.

End Shutdown.

(** * Further properties of the orchestrator *)

(** ** More Hoare rules *)

Ltac step_keep :=
  eapply hoare_bind;
  [ apply preserves_hoare; solve [preserved fail anchor_write] | ].

Ltac step_record spec :=
  eapply hoare_bind;
  [ apply hoare_frame; [ solve [preserved fail anchor_write] | spec ] | ].

Lemma hoare_get {X} (f : Streamer → X) :
  hoare (λ _, True) (get f) (λ a s, a = f (self s)).
Proof. by intros s _. Qed.

Lemma hoare_exists {T X} (P : X → State → Prop) (m : M T) (Q : T → State → Prop) :
  (∀ x, hoare (P x) m Q) → hoare (λ s, ∃ x, P x s) m Q.
Proof. intros H s [x Hx]. by apply (H x). Qed.

Lemma preserves_and {T} (P Q : State → Prop) (m : M T) :
  preserves P m → preserves Q m → preserves (λ s, P s ∧ Q s) m.
Proof. intros HP HQ s [? ?]. split; [by apply HP | by apply HQ]. Qed.

Lemma g_object_set_logged o props :
  hoare (λ _, True) (g_object_set (Some o) props)
    (λ _ s, logged (ObjectSet o props, RUnit) s).
Proof.
  intros s _. unfold exec, logged. run. cbn.
  apply elem_of_app. right. apply list_elem_of_here.
Qed.

(** ** Bus messages *)

Lemma below_playing (st : GstState) :
  st ≠ GST_STATE_PLAYING → (state_value st <? state_value GST_STATE_PLAYING)%nat = true.
Proof. by destruct st. Qed.

Lemma handle_state_changed (src : option handle) (old_state new_state : GstState) (s : State) :
  handle_bus_message (GST_MESSAGE_STATE_CHANGED src old_state new_state) s =
    (true,
     if decide (src = rtsp_src (self s)) then
       if decide (new_state = GST_STATE_PLAYING) then
         exec switch_to_rtsp_source
           (mkState (set_is_rtsp_connected true (self s)) (world s))
       else if decide (old_state = GST_STATE_PLAYING) then
         exec schedule_rtsp_reconnect
           (exec switch_to_dummy_source
              (mkState (set_is_rtsp_connected false (self s)) (world s)))
       else s
     else s).
Proof.
  unfold handle_bus_message.
  cbv beta iota zeta delta [mbind M_bind mret M_ret get exec fst snd].
  destruct (decide (src = rtsp_src (self s))) as [Heq|Hne].
  - rewrite (bool_decide_eq_true_2 _ Heq).
    destruct (decide (new_state = GST_STATE_PLAYING)) as [Hnew|Hnew].
    + rewrite (bool_decide_eq_true_2 _ Hnew).
      change (put (set_is_rtsp_connected true) s)
        with (tt, mkState (set_is_rtsp_connected true (self s)) (world s)).
      cbv beta iota. by destruct (switch_to_rtsp_source _).
    + rewrite (bool_decide_eq_false_2 _ Hnew), (below_playing _ Hnew), andb_true_r.
      destruct (decide (old_state = GST_STATE_PLAYING)) as [Hold|Hold].
      * rewrite (bool_decide_eq_true_2 _ Hold).
        change (put (set_is_rtsp_connected false) s)
          with (tt, mkState (set_is_rtsp_connected false (self s)) (world s)).
        cbv beta iota. destruct (switch_to_dummy_source _) as [[] s1].
        by destruct (schedule_rtsp_reconnect s1).
      * by rewrite (bool_decide_eq_false_2 _ Hold).
  - by rewrite (bool_decide_eq_false_2 _ Hne).
Qed.

(** The handler never asks for the bus watch to be removed. *)
Lemma handle_bus_message_true (msg : GstMessage) (s : State) :
  eval (handle_bus_message msg) s = true.
Proof.
  destruct msg as [src|src|src o n|src].
  - unfold handle_bus_message. rewrite eval_bind. cbv beta. by rewrite eval_bind.
  - unfold handle_bus_message. by rewrite eval_bind.
  - unfold eval. by rewrite handle_state_changed.
  - done.
Qed.

(** ** What the main loop leaves alone *)

Section LoopFrame.

Variable E : Engine.

Lemma dispatch_static v ev :
  preserves (λ s, static_fields (self s) = v) (dispatch E ev).
Proof. preserved fail field_write. Qed.

Lemma g_main_loop_run_static v evs :
  preserves (λ s, static_fields (self s) = v) (g_main_loop_run E evs).
Proof.
  induction evs as [|ev evs IH]; [by apply preserves_ret |].
  cbn [g_main_loop_run]. apply preserves_bind; [apply preserves_observe |].
  intros [|]; [apply preserves_ret |].
  apply preserves_bind; [apply dispatch_static | intros _; apply IH].
Qed.

Lemma dispatch_connection v ev s :
  reports_connection (rtsp_src (self s)) ev = false →
  is_rtsp_connected (self s) = v →
  is_rtsp_connected (self (exec (dispatch E ev) s)) = v.
Proof.
  intros Hev Hv.
  assert (∀ ev', (∀ src o n, ev' ≠ BusMessage (GST_MESSAGE_STATE_CHANGED src o n)) →
            preserves (λ s, is_rtsp_connected (self s) = v) (dispatch E ev')) as Hother.
  { intros ev' Hne. destruct ev' as [[src|src|src o n|src]| | | | |];
      [| | by destruct (Hne src o n) | ..]; preserved fail field_write. }
  destruct ev as [[src|src|src o n|src]| | | | |]; try (by apply Hother).
  cbn [dispatch]. unfold dispatch_bus. rewrite exec_bind.
  change (exec (observe ?f) s) with s. destruct (eval (observe _) s); [| done].
  rewrite exec_bind, handle_bus_message_true.
  change (exec (mret tt) ?x) with x.
  unfold exec at 1. rewrite handle_state_changed. cbn [snd].
  cbn [reports_connection] in Hev.
  destruct (decide (src = rtsp_src (self s))) as [Heq|]; [| done].
  rewrite (bool_decide_eq_true_2 _ Heq) in Hev. cbn [andb] in Hev.
  apply orb_false_elim in Hev as [Hn Ho].
  apply bool_decide_eq_false in Hn, Ho.
  by rewrite !decide_False.
Qed.

Lemma g_main_loop_run_connection v evs s :
  existsb (reports_connection (rtsp_src (self s))) evs = false →
  is_rtsp_connected (self s) = v →
  is_rtsp_connected (self (exec (g_main_loop_run E evs) s)) = v.
Proof.
  revert s. induction evs as [|ev evs IH]; intros s Hevs Hv; [done |].
  cbn [existsb] in Hevs. apply orb_false_elim in Hevs as [Hev Hevs].
  cbn [g_main_loop_run]. rewrite exec_bind.
  change (exec (observe ?f) s) with s. destruct (eval (observe _) s); [done |].
  rewrite exec_bind. apply IH.
  - pose proof (dispatch_static _ ev s eq_refl) as Hst.
    unfold static_fields in Hst. injection Hst as _ Hsrc _ _ _ _ _ _ _ _ _ _ _.
    by rewrite Hsrc.
  - by apply dispatch_connection.
Qed.

End LoopFrame.

(** ** The switch operation *)

Lemma selector_data_lookup (key : string) (sel : handle) (s : State) :
  input_selector (self s) = Some sel →
  selector_data key s = w_qdata (world s) !! (sel, key).
Proof. intros Hsel. unfold selector_data. run. by rewrite Hsel. Qed.

Lemma switch_to_exec (b : Branch) (s : State) :
  exec (switch_to b) s =
    match input_selector (self s), branch_pad b s with
    | Some sel, Some p =>
        mkState (self s)
          (log (ObjectSet sel [("active-pad", VPad p)]) RUnit
             (set_active (Some p) (world s)))
    | _, _ => s
    end.
Proof.
  destruct b; unfold branch_pad, fallback_pad, live_pad, selector_data, switch_to; run;
    (destruct (input_selector (self s)) as [sel|]; run; [| done]);
    (destruct (w_qdata (world s) !! _); run; [| done]);
    by rewrite active_pad_of_switch.
Qed.

Lemma branch_pad_frame (b : Branch) (s s' : State) :
  input_selector (self s') = input_selector (self s) →
  w_qdata (world s') = w_qdata (world s) →
  branch_pad b s' = branch_pad b s.
Proof.
  intros Hsel Hq.
  destruct b; unfold branch_pad, fallback_pad, live_pad, selector_data; run;
    rewrite Hsel; destruct (input_selector (self s)); run; by rewrite ?Hq.
Qed.

Lemma branch_pad_selector (b : Branch) (s : State) (p : Pad) :
  branch_pad b s = Some p → ∃ sel, input_selector (self s) = Some sel.
Proof.
  destruct b; unfold branch_pad, fallback_pad, live_pad, selector_data; run;
    (destruct (input_selector (self s)); [eauto | done]).
Qed.

(** ** The sources of a session *)

Lemma same_id (l : list Source) (x y : Source) :
  NoDup (src_id <$> l) → x ∈ l → y ∈ l → src_id x = src_id y → x = y.
Proof.
  induction l as [|a l IH]; intros Hnd Hx Hy Hid; [by apply elem_of_nil in Hx |].
  rewrite fmap_cons in Hnd. apply NoDup_cons in Hnd as [Ha Hnd].
  apply elem_of_cons in Hx as [->|Hx]; apply elem_of_cons in Hy as [->|Hy].
  - done.
  - destruct Ha. rewrite Hid. by apply list_elem_of_fmap_2.
  - destruct Ha. rewrite <- Hid. by apply list_elem_of_fmap_2.
  - by apply IH.
Qed.

Lemma kinds_apart (src : Source) :
  (is_bus_watch src → is_reconnect src → False)
  ∧ (is_bus_watch src → is_grace_timer src → False)
  ∧ (is_reconnect src → is_grace_timer src → False).
Proof. destruct src as [i [|[] n] d]; cbn; tauto. Qed.

Lemma watch_inv_attach_timeout cb interval delay s :
  watch_inv s → watch_inv (mkState (self s) (attach (Timeout cb interval) delay (world s))).
Proof.
  intros [Hw Hwl Hrl]. split; cbn.
  - apply Forall_app. split; [done |]. apply Forall_singleton. cbn. tauto.
  - intros H. destruct (Hwl H) as (src & ? & ? & ?). exists src.
    split_and!; [apply elem_of_app; by left | done..].
  - intros H. destruct (Hrl H) as (src & ? & ? & ?). exists src.
    split_and!; [apply elem_of_app; by left | done..].
Qed.

Ltac watch_frame := intros ? [? ? ?]; split; cbn; assumption.

Ltac session_write :=
  let s := fresh "s" in
  let Ht := fresh "Ht" in
  let Hw := fresh "Hw" in
  intros s [Ht Hw]; split;
  [ clear Hw; revert s Ht; first [ timer_frame | apply timer_inv_attach; reflexivity ]
  | clear Ht; revert s Hw; first [ watch_frame | apply watch_inv_attach_timeout ] ].

Lemma schedule_rtsp_reconnect_self s :
  self (exec schedule_rtsp_reconnect s) =
    set_reconnect_timeout_id (w_next_source (world s)) (self s).
Proof. by run_cases. Qed.

Lemma schedule_rtsp_reconnect_session : preserves session_inv schedule_rtsp_reconnect.
Proof.
  intros s [Ht [Hw Hwl Hrl]]. split; [by apply schedule_rtsp_reconnect_inv |].
  destruct (schedule_rtsp_reconnect_sources s) as (_ & _ & Hsrc). cbv zeta in Hsrc.
  set (base := if (0 <? reconnect_timeout_id (self s))%nat
               then detach (reconnect_timeout_id (self s)) (w_sources (world s))
               else w_sources (world s)) in Hsrc.
  assert (∀ P : Source → Prop, Forall P (w_sources (world s)) → Forall P base) as Hall.
  { intros P HP. subst base. destruct (0 <? _)%nat; [by apply detach_forall | done]. }
  assert (∀ src, src ∈ w_sources (world s) →
            (0 < reconnect_timeout_id (self s) → src_id src ≠ reconnect_timeout_id (self s)) →
            src ∈ base) as Hin.
  { intros src Hsrc' Hne. subst base.
    destruct (0 <? reconnect_timeout_id (self s))%nat eqn:Hold; [| done].
    apply Nat.ltb_lt in Hold. unfold detach. apply list_elem_of_filter. by split; [apply Hne |]. }
  clearbody base.
  split; rewrite Hsrc, schedule_rtsp_reconnect_self; cbn.
  - apply Forall_app. split; [by apply Hall | apply Forall_singleton; cbn; tauto].
  - intros H. destruct (Hwl H) as (src & Hin' & Hb & Hid). exists src.
    split_and!; [| done..]. apply elem_of_app. left. apply Hin; [done |].
    intros Hold Heq. destruct (Hrl Hold) as (src' & Hin'' & Hr' & Hid').
    assert (src = src') as <-
      by (eapply same_id; [apply (ti_nodup _ Ht) | done.. | congruence]).
    destruct (kinds_apart src) as (K & _). by apply K.
  - intros _. eexists. split_and!; [apply elem_of_app; right; apply list_elem_of_here | done..].
Qed.

Section SessionSteps.

Variable E : Engine.

Lemma run_callback_watch_id cb v :
  preserves (λ s, bus_watch_id (self s) = v) (run_callback E cb).
Proof. destruct cb; preserved fail field_write. Qed.

Lemma dispatch_timeout_session id : preserves session_inv (dispatch_timeout E id).
Proof.
  intros s [Ht [Hw Hwl Hrl]]. split; [by apply dispatch_timeout_inv |].
  rewrite dispatch_timeout_exec.
  destruct (List.find (has_id id) (w_sources (world s))) as [[i [|cb n] due]|] eqn:Hfind;
    [done | | done].
  destruct (due <=? w_now (world s))%nat; [| done].
  apply find_has_id in Hfind as [Hin Hid]. cbn in Hid. subst i.
  destruct (run_callback_effect E cb s) as (_ & Hsrc & _ & Hrid).
  pose proof (run_callback_watch_id cb _ s eq_refl) as Hwid.
  cbv zeta. split; cbn; rewrite Hsrc, ?Hwid, ?Hrid.
  - by apply detach_forall.
  - intros H. destruct (Hwl H) as (src & Hin' & Hb & Hid'). exists src.
    split_and!; [| done..]. unfold detach. apply list_elem_of_filter. split; [| done].
    intros Heq.
    assert (src = mkSource id (Timeout cb n) due) as ->
      by (eapply same_id; [apply (ti_nodup _ Ht) | done.. ]).
    done.
  - destruct cb; [| lia].
    intros H. destruct (Hrl H) as (src & Hin' & Hr & Hid'). exists src.
    split_and!; [| done..]. unfold detach. apply list_elem_of_filter. split; [| done].
    intros Heq.
    assert (src = mkSource id (Timeout switch_to_rtsp_delayed_cb n) due) as ->
      by (eapply same_id; [apply (ti_nodup _ Ht) | done.. ]).
    done.
Qed.

Ltac session_known :=
  first [ apply schedule_rtsp_reconnect_session | apply dispatch_timeout_session ].

Lemma handle_bus_message_session msg : preserves session_inv (handle_bus_message msg).
Proof. preserved session_known session_write. Qed.

Lemma connect_rtsp_pad_session pad caps :
  preserves session_inv (connect_rtsp_pad E pad caps).
Proof. preserved session_known session_write. Qed.

Lemma dispatch_session ev : preserves session_inv (dispatch E ev).
Proof.
  destruct ev as [msg|pad caps| | | |]; cbn [dispatch].
  - unfold dispatch_bus. intros s Hs. rewrite exec_bind.
    change (exec (observe ?f) s) with s. destruct (eval (observe _) s); [| done].
    rewrite exec_bind, handle_bus_message_true.
    by apply handle_bus_message_session.
  - apply connect_rtsp_pad_session.
  - apply preserves_ret.
  - apply dispatch_timeout_session.
  - preserved fail session_write.
  - preserved fail session_write.
Qed.

Lemma g_main_loop_run_session evs : preserves session_inv (g_main_loop_run E evs).
Proof.
  induction evs as [|ev evs IH]; [by apply preserves_ret |].
  cbn [g_main_loop_run]. apply preserves_bind; [apply preserves_observe |].
  intros [|]; [apply preserves_ret |].
  apply preserves_bind; [apply dispatch_session | intros _; apply IH].
Qed.

Lemma start_prelude_session : preserves session_inv (start_prelude E).
Proof. preserved fail session_write. Qed.

End SessionSteps.

(** ** A successful [initialize] *)

Section Built.

Variable E : Engine.

Lemma initialize_core_source uri :
  hoare (λ s, rtsp_uri (self s) = uri) (initialize_core E)
    (λ r s, r = true →
       ∃ p src, pipeline (self s) = Some p ∧ rtsp_src (self s) = Some src
                ∧ logged (ObjectSet src (rtsp_src_props uri), RUnit) s).
Proof.
  unfold initialize_core.
  step_keep. intros p.
  step_record ltac:(apply (hoare_put pipeline); intros ?; cbn; reflexivity).
  intros ?. cbv beta.
  destruct p as [p|]; cbn [is_null]; [| by apply hoare_ret].
  step_keep. intros src.
  step_record ltac:(apply (hoare_put rtsp_src); intros ?; cbn; reflexivity).
  intros ?. cbv beta.
  destruct src as [src|]; cbn [is_null]; [| by apply hoare_ret].
  step_record ltac:(apply hoare_get). intros uri'. cbv beta.
  step_record ltac:(apply g_object_set_logged). intros ?. cbv beta.
  eapply hoare_conseq;
    [ apply preserves_hoare with
        (P := λ s, pipeline (self s) = Some p ∧ rtsp_src (self s) = Some src
                   ∧ logged (ObjectSet src (rtsp_src_props uri), RUnit) s);
      preserved fail anchor_write | |].
  - unfold rtsp_src_props. intros s ((((Huri & Hp) & Hsrc) & ->) & Hlog).
    rewrite <- Huri. done.
  - intros r s H _. by exists p, src.
Qed.

Lemma initialize_core_idle v : preserves (λ s, idle_part s = v) (initialize_core E).
Proof. preserved fail field_write. Qed.

Lemma create_dash_pipeline_idle v quality width height bitrate :
  preserves (λ s, idle_part s = v) (create_dash_pipeline E quality width height bitrate).
Proof. preserved fail field_write. Qed.

(** A profile branch that was built has its sink recorded in the object. *)
Lemma create_dash_pipeline_sink quality width height bitrate :
  hoare (λ _, True) (create_dash_pipeline E quality width height bitrate)
    (λ r s, r = true →
       if bool_decide (quality = "fullhd")
       then is_Some (dash_sink_fullhd (self s))
       else is_Some (dash_sink_hd (self s))).
Proof.
  unfold create_dash_pipeline. cbv zeta.
  do 7 (apply hoare_skip; intros ?).
  apply hoare_skip; intros dash_sink.
  destruct dash_sink as [sink|];
    [| rewrite !orb_true_r; by apply hoare_ret ].
  repeat first
    [ lazymatch goal with
      | |- hoare _ (if bool_decide _ then _ else _) _ => fail
      | |- hoare _ (if ?c then _ else _) _ => destruct c; [by apply hoare_ret |]
      | |- hoare _ ((if bool_decide _ then _ else _) ≫= _) _ => fail
      | |- hoare _ (_ ≫= _) _ => apply hoare_skip; intros ?
      end ].
  destruct (bool_decide (quality = "fullhd")).
  - eapply hoare_bind;
      [apply (hoare_put dash_sink_fullhd); intros ?; cbn; reflexivity |].
    intros ?. apply hoare_ret. intros s -> _. by eexists.
  - eapply hoare_bind;
      [apply (hoare_put dash_sink_hd); intros ?; cbn; reflexivity |].
    intros ?. apply hoare_ret. intros s -> _. by eexists.
Qed.

Ltac quality_known :=
  idtac;
  lazymatch goal with
  | |- preserves _ (if bool_decide (?q = "fullhd") then _ else _) =>
      destruct (bool_decide (q = "fullhd")) eqn:?;
      [ intros ? [? ?]; congruence |]
  end.

Lemma create_dash_pipeline_keeps_fullhd v quality width height bitrate :
  quality ≠ "fullhd" →
  preserves (λ s, dash_sink_fullhd (self s) = v)
    (create_dash_pipeline E quality width height bitrate).
Proof.
  intros Hq s Hs.
  assert (preserves (λ s, bool_decide (quality = "fullhd") = false
                          ∧ dash_sink_fullhd (self s) = v)
            (create_dash_pipeline E quality width height bitrate)) as Hpres.
  { preserved quality_known anchor_write. }
  apply Hpres. split; [by apply bool_decide_eq_false_2 | done].
Qed.

Lemma initialize_outputs_run
    srcs next now quit active b0 wid0 rid lp conn tl uri out p src :
  hoare (λ s, idle_part s =
                (srcs, next, now, quit, active, b0, wid0, rid, lp, conn, tl, uri, out)
              ∧ pipeline (self s) = Some p ∧ rtsp_src (self s) = Some src)
    (initialize_outputs E)
    (λ r s, if r then
              idle_part s =
                (srcs ++ [mkSource next BusWatch (now + 0)], S next, now, quit, active,
                 Some p, next, rid, lp, conn, tl, uri, out)
              ∧ is_Some (dash_sink_fullhd (self s))
              ∧ is_Some (dash_sink_hd (self s))
              ∧ logged (SignalConnect src "pad-added", RUnit) s
              ∧ logged (SignalConnect src "no-more-pads", RUnit) s
            else
              idle_part s =
                (srcs, next, now, quit, active, b0, wid0, rid, lp, conn, tl, uri, out)).
Proof.
  unfold initialize_outputs.
  eapply hoare_bind.
  { apply hoare_frame;
      [solve [preserved fail anchor_write] | apply create_dash_pipeline_sink]. }
  intros [|]; cbn [negb]; [| apply hoare_ret; by intros s [[? ?] _] ].
  eapply hoare_conseq with
    (P' := λ s, ∃ fh, (idle_part s =
                         (srcs, next, now, quit, active, b0, wid0, rid, lp, conn, tl, uri, out)
                       ∧ pipeline (self s) = Some p ∧ rtsp_src (self s) = Some src)
                      ∧ dash_sink_fullhd (self s) = Some fh);
    [| intros s [H Hs]; specialize (Hs eq_refl);
       rewrite bool_decide_eq_true_2 in Hs by done;
       destruct Hs as [fh Hfh]; by exists fh
     | intros a s H; exact H].
  apply hoare_exists. intros fh.
  eapply hoare_bind.
  { apply hoare_frame; [| apply create_dash_pipeline_sink].
    apply preserves_and;
      [solve [preserved fail anchor_write] | by apply create_dash_pipeline_keeps_fullhd]. }
  intros [|]; cbn [negb]; [| apply hoare_ret; by intros s [[[? ?] _] _] ].
  intros s [[[Hidle [Hp Hsrc]] Hfh] Hhd].
  specialize (Hhd eq_refl). rewrite bool_decide_eq_false_2 in Hhd by done.
  destruct Hhd as [hd Hhd].
  unfold idle_part in Hidle. injection Hidle as <- <- <- <- <- <- <- <- <- <- <- <- <-.
  unfold eval, exec, logged, idle_part. run. rewrite Hp. run. rewrite Hsrc. run. cbn.
  rewrite Hfh, Hhd. split_and!; [done | by eexists | by eexists | |].
  - rewrite <- !app_assoc. cbn [app]. rewrite elem_of_app. right.
    repeat first [apply list_elem_of_here | apply list_elem_of_further].
  - rewrite elem_of_app. right. apply list_elem_of_here.
Qed.

Lemma initialize_success uri output s1 :
  initialize E (fresh uri output) = (true, s1) →
  ∃ p src dummy sel t fullhd hd b,
    self s1 = mkStreamer (Some p) (Some src) (Some dummy) (Some sel) (Some t)
                (Some fullhd) (Some hd) (Some b) None 1 0 uri output false false
    ∧ w_sources (world s1) = [mkSource 1 BusWatch 0]
    ∧ w_next_source (world s1) = 2
    ∧ w_now (world s1) = 0
    ∧ w_quit (world s1) = false
    ∧ w_active_pad (world s1) = None
    ∧ logged (ObjectSet src (rtsp_src_props uri), RUnit) s1
    ∧ logged (SignalConnect src "pad-added", RUnit) s1
    ∧ logged (SignalConnect src "no-more-pads", RUnit) s1.
Proof.
  intros Hinit.
  assert (eval (initialize E) (fresh uri output) = true) as Heval
    by (unfold eval; by rewrite Hinit).
  assert (exec (initialize E) (fresh uri output) = s1) as Hexec
    by (unfold exec; by rewrite Hinit).
  unfold initialize in Heval, Hexec. rewrite eval_bind in Heval. rewrite exec_bind in Hexec.
  destruct (eval (initialize_core E) (fresh uri output)) eqn:Hcore; [| done].
  cbn [negb] in Heval, Hexec.
  destruct (initialize_core_source uri (fresh uri output) eq_refl Hcore)
    as (p & src & Hp & Hsrc & Hloc).
  destruct (initialize_core_anchored E (fresh uri output) I Hcore)
    as (dummy & _ & _ & sel & t & _ & Hdummy & Hsel & Htee & _).
  pose proof (initialize_core_idle _ (fresh uri output) eq_refl) as Hidle.
  set (s0 := exec (initialize_core E) (fresh uri output)) in *.
  pose proof (initialize_outputs_run _ _ _ _ _ _ _ _ _ _ _ _ _ p src s0
                (conj Hidle (conj Hp Hsrc))) as Hrun.
  cbv beta in Hrun. rewrite Heval in Hrun.
  destruct Hrun as (Hidle' & [fullhd Hfh] & [hd Hhd] & Hpad & Hnomore).
  assert (preserves (λ s, pipeline (self s) = Some p ∧ rtsp_src (self s) = Some src
                          ∧ dummy_src (self s) = Some dummy
                          ∧ input_selector (self s) = Some sel
                          ∧ tee (self s) = Some t
                          ∧ logged (ObjectSet src (rtsp_src_props uri), RUnit) s)
            (initialize_outputs E)) as Hkeep.
  { preserved fail anchor_write. }
  destruct (Hkeep s0) as (Hp' & Hsrc' & Hdummy' & Hsel' & Htee' & Hloc'); [done |].
  rewrite Hexec in *. clear Hkeep.
  unfold idle_part in Hidle'. cbn in Hidle'.
  injection Hidle' as H1 H2 H3 H4 H5 H6 H7 H8 H9 H10 H11 H12 H13.
  exists p, src, dummy, sel, t, fullhd, hd, p.
  split_and!; try done.
  destruct s1 as [[] w]. cbn in *. by f_equal.
Qed.

End Built.

Lemma session_inv_idle s :
  w_sources (world s) = [] → 0 < w_next_source (world s) →
  bus_watch_id (self s) = 0 → reconnect_timeout_id (self s) = 0 → session_inv s.
Proof.
  intros Hs Hn Hw Hr. split; split; rewrite ?Hs, ?Hw, ?Hr;
    first [done | constructor | lia].
Qed.

Lemma session_inv_watched s due :
  w_sources (world s) = [mkSource 1 BusWatch due] → w_next_source (world s) = 2 →
  bus_watch_id (self s) = 1 → reconnect_timeout_id (self s) = 0 → session_inv s.
Proof.
  intros Hs Hn Hw Hr. split; split; rewrite ?Hs, ?Hw, ?Hr, ?Hn; try lia.
  - apply Forall_singleton. cbn. lia.
  - apply NoDup_singleton.
  - apply Forall_singleton. intros [].
  - apply Forall_singleton. cbn. lia.
  - intros _. eexists. split_and!; [apply list_elem_of_here | done..].
Qed.

Section Session.

Variable E : Engine.

(** Whatever [initialize] returns, the sources of the main context are the
    ones the object has recorded. *)
Lemma initialize_session uri output :
  session_inv (exec (initialize E) (fresh uri output)).
Proof.
  destruct (initialize E (fresh uri output)) as [r s1] eqn:Hinit.
  unfold exec. rewrite Hinit. cbn [snd]. destruct r.
  - destruct (initialize_success E uri output s1 Hinit)
      as (p & src & dummy & sel & t & fh & hd & b & Hself & Hsrcs & Hnext & _).
    apply (session_inv_watched s1 0); rewrite ?Hself; done.
  - assert (eval (initialize E) (fresh uri output) = false) as Heval
      by (unfold eval; by rewrite Hinit).
    assert (exec (initialize E) (fresh uri output) = s1) as Hexec
      by (unfold exec; by rewrite Hinit).
    unfold initialize in Heval, Hexec. rewrite eval_bind in Heval.
    rewrite exec_bind in Hexec.
    pose proof (initialize_core_idle E _ (fresh uri output) eq_refl) as Hidle.
    assert (idle_part s1 = idle_part (fresh uri output)) as Hidle1.
    { destruct (eval (initialize_core E) (fresh uri output)) eqn:Hcore;
        cbn [negb] in Heval, Hexec; [| by rewrite <- Hexec].
      destruct (initialize_core_source E uri (fresh uri output) eq_refl Hcore)
        as (p & src & Hp & Hsrc & _).
      pose proof (initialize_outputs_run E _ _ _ _ _ _ _ _ _ _ _ _ _ p src _
                    (conj Hidle (conj Hp Hsrc))) as Hrun.
      cbv beta in Hrun. rewrite Heval, Hexec in Hrun. exact Hrun. }
    unfold idle_part in Hidle1. cbn in Hidle1.
    injection Hidle1 as H1 H2 H3 H4 H5 H6 H7 H8 H9 H10 H11 H12 H13.
    apply session_inv_idle; [done | lia | done..].
Qed.

End Session.

(** ** Shutdown of a session *)

Lemma filter_ext_in {A} (P Q : A → Prop)
    `{!∀ x, Decision (P x), !∀ x, Decision (Q x)} (l : list A) :
  Forall (λ x, P x ↔ Q x) l → filter P l = filter Q l.
Proof.
  induction 1 as [|x l Hx _ IH]; [done |].
  rewrite !filter_cons, IH. by apply decide_ext.
Qed.

Lemma detach_if (k : nat) (l : list Source) :
  (if (0 <? k)%nat then detach k else id) l = filter (λ src, 0 < k → src_id src ≠ k) l.
Proof.
  destruct (0 <? k)%nat eqn:Hk.
  - apply Nat.ltb_lt in Hk. apply list_filter_iff. naive_solver.
  - apply Nat.ltb_ge in Hk. cbn [id].
    induction l as [|x l IH]; [done |].
    rewrite filter_cons_True by lia. by f_equal.
Qed.

Section SessionEnd.

Variable E : Engine.

(** With the sources the object has recorded, [cleanup] removes the bus
    watch and the reconnect timer and leaves exactly the grace timers. *)
Lemma cleanup_leaves_grace_timers s :
  session_inv s →
  w_sources (world (exec (cleanup E) s)) =
    filter (λ src, is_grace_timer src) (w_sources (world s)).
Proof.
  intros [Ht [Hw Hwl Hrl]].
  destruct (cleanup_exec E s) as (_ & _ & _ & _ & _ & ->).
  rewrite !detach_if, list_filter_filter.
  apply filter_ext_in. apply Forall_forall. intros src Hin.
  pose proof (proj1 (Forall_forall _ _) Hw src Hin) as Hbw.
  pose proof (proj1 (Forall_forall _ _) (ti_reconnect _ Ht) src Hin) as Hrc.
  destruct (kinds_apart src) as (K1 & K2 & K3).
  split.
  - intros [Hnw Hnr].
    destruct src as [i [|[|] n] d]; cbn in *; [| done |].
    + destruct (Hbw I) as [-> Hpos]. by destruct (Hnw Hpos).
    + destruct (Hrc I) as [-> Hpos]. by destruct (Hnr Hpos).
  - intros Hg. split.
    + intros Hpos Heq. destruct (Hwl Hpos) as (src' & Hin' & Hb' & Hid').
      assert (src = src') as <-
        by (eapply same_id; [apply (ti_nodup _ Ht) | done.. | congruence]).
      by apply K2.
    + intros Hpos Heq. destruct (Hrl Hpos) as (src' & Hin' & Hr' & Hid').
      assert (src = src') as <-
        by (eapply same_id; [apply (ti_nodup _ Ht) | done.. | congruence]).
      by apply K3.
Qed.

(** The state [main] hands to the destructor always satisfies the session
    invariant. *)
Lemma main_session argv evs code s :
  main E argv evs = (code, Some s) →
  ∃ s', session_inv s' ∧ s = exec (cleanup E) s'.
Proof.
  unfold main. destruct argv as [|prog [|uri [|output rest]]]; try done.
  pose proof (initialize_session E uri output) as Hinit. unfold exec in Hinit.
  destruct (initialize E (fresh uri output)) as [ok s1]. cbn [snd] in Hinit.
  destruct ok; cbn [negb]; [| intros [= <- <-]; by exists s1].
  pose proof (start_prelude_session E s1 Hinit) as Hpre.
  pose proof (g_main_loop_run_session E evs _ Hpre) as Hrun.
  assert (exec (start E evs) s1 =
            if eval (start_prelude E) s1
            then exec (g_main_loop_run E evs) (exec (start_prelude E) s1)
            else exec (start_prelude E) s1) as Hstart.
  { unfold start. rewrite exec_bind.
    destruct (eval (start_prelude E) s1); cbn [negb]; [| done].
    by rewrite exec_bind. }
  unfold exec at 1 in Hstart.
  destruct (start E evs s1) as [ok' s2]. cbn [snd] in Hstart. subst s2.
  destruct (eval (start_prelude E) s1);
    destruct ok'; cbn [negb]; intros [= <- <-]; eauto.
Qed.

End SessionEnd.

(** ** [start] *)

Lemma start_exec E evs s :
  start E evs s =
    if eval (start_prelude E) s
    then (true, exec (g_main_loop_run E evs) (exec (start_prelude E) s))
    else (false, exec (start_prelude E) s).
Proof.
  unfold start, eval, exec. cbv beta iota zeta delta [mbind M_bind mret M_ret].
  destruct (start_prelude E s) as [[|] s1]; cbn [negb fst snd]; [| done].
  by destruct (g_main_loop_run E evs s1) as [[] s2].
Qed.

(** ** The decode chain *)

Section DecodeChain.

Variable E : Engine.

Lemma link_rtsp_decode_chain_early pad v :
  hoare (λ s, routing_part s = v) (link_rtsp_decode_chain E pad)
    (λ r s, r = None → routing_part s = v).
Proof.
  unfold link_rtsp_decode_chain.
  do 4 (step_keep; intros ?).
  step_keep. intros rtsp_caps.
  destruct rtsp_caps as [caps|];
    [| rewrite !orb_true_r; apply hoare_ret; by intros s Hs _ ].
  cbn [is_null]. rewrite orb_false_r.
  match goal with
  | |- hoare _ (if ?c then _ else _) _ =>
      destruct c; [apply hoare_ret; by intros s Hs _ |]
  end.
  do 3 (step_keep; intros ?).
  step_keep. intros linked.
  destruct linked; cbn [negb]; [| apply hoare_ret; by intros s Hs _ ].
  apply hoare_forget.
  repeat (apply hoare_skip; intros ?).
  by apply hoare_ret.
Qed.

Lemma get_request_pad_spec sel template :
  hoare (λ _, True) (gst_element_get_request_pad E (Some sel) template)
    (λ r s, logged (GetRequestPad sel template, RPad r) s
            ∧ (r = None ∨ ∃ k, r = Some (RequestPad sel k))).
Proof.
  intros s _. unfold eval, exec, logged. run.
  destruct (eng_ok E (length (w_trace (world s)))); run; cbn.
  - split; [apply elem_of_app; right; apply list_elem_of_here | right; by eexists].
  - split; [apply elem_of_app; right; apply list_elem_of_here | by left].
Qed.

Lemma g_object_set_data_spec sel key d q :
  hoare (λ s, w_qdata (world s) = q) (g_object_set_data (Some sel) key d)
    (λ _ s, w_qdata (world s) =
              match d with
              | Some p => <[(sel, key) := p]> q
              | None => delete (sel, key) q
              end).
Proof. intros s <-. unfold exec. run. by cbn. Qed.

Lemma link_rtsp_decode_chain_stores pad sel q :
  hoare (λ s, input_selector (self s) = Some sel ∧ w_qdata (world s) = q)
    (link_rtsp_decode_chain E pad)
    (λ r s, is_Some r →
       ∃ d, logged (GetRequestPad sel "sink_%u", RPad d) s
            ∧ (d = None ∨ ∃ k, d = Some (RequestPad sel k))
            ∧ w_qdata (world s) =
                match d with
                | Some p => <[(sel, "rtsp-pad") := p]> q
                | None => delete (sel, "rtsp-pad") q
                end).
Proof.
  unfold link_rtsp_decode_chain.
  step_keep; intros depay. step_keep; intros parse. step_keep; intros decode.
  step_keep; intros convert. step_keep; intros rtsp_caps.
  match goal with
  | |- hoare _ (if ?c then _ else _) _ =>
      destruct c; [apply hoare_ret; by intros s Hs [? [=]] |]
  end.
  step_keep; intros ?. step_keep; intros p. step_keep; intros ?.
  step_keep. intros linked.
  destruct linked; cbn [negb]; [| apply hoare_ret; by intros s Hs [? [=]] ].
  step_keep; intros depay_sink. step_keep; intros ?. step_keep; intros convert_src.
  step_record ltac:(apply hoare_get). intros sel'. cbv beta.
  eapply hoare_conseq with
    (P' := λ s, (input_selector (self s) = Some sel ∧ w_qdata (world s) = q)
                ∧ sel' = Some sel) (Q' := _);
    [| intros s [[Hsel Hq] ->]; by rewrite Hsel | intros r0 s0 H; exact H].
  eapply hoare_bind with
    (R := λ d s, (input_selector (self s) = Some sel ∧ w_qdata (world s) = q)
                 ∧ sel' = Some sel
                 ∧ logged (GetRequestPad sel "sink_%u", RPad d) s
                 ∧ (d = None ∨ ∃ k, d = Some (RequestPad sel k))).
  { intros s [Hs ->]. split; [| split; [done |]].
    - assert (preserves (λ s, input_selector (self s) = Some sel ∧ w_qdata (world s) = q)
                (gst_element_get_request_pad E (Some sel) "sink_%u")) as H
        by (preserved fail anchor_write).
      by apply H.
    - by apply get_request_pad_spec. }
  intros d.
  eapply hoare_bind with
    (R := λ _ s, (w_qdata (world s) = q ∧ sel' = Some sel)
                 ∧ logged (GetRequestPad sel "sink_%u", RPad d) s
                 ∧ (d = None ∨ ∃ k, d = Some (RequestPad sel k))).
  { intros s ((Hsel & Hq) & -> & Hlog & Hd).
    assert (preserves (λ s, w_qdata (world s) = q
                            ∧ logged (GetRequestPad sel "sink_%u", RPad d) s)
              (gst_pad_link E convert_src d)) as H
      by (preserved fail anchor_write).
    destruct (H s) as [? ?]; [done |]. by split_and!. }
  intros ?.
  eapply hoare_bind with
    (R := λ _ s, logged (GetRequestPad sel "sink_%u", RPad d) s
                 ∧ (d = None ∨ ∃ k, d = Some (RequestPad sel k))
                 ∧ w_qdata (world s) =
                     match d with
                     | Some p => <[(sel, "rtsp-pad") := p]> q
                     | None => delete (sel, "rtsp-pad") q
                     end).
  { intros s ((Hq & ->) & Hlog & Hd). split_and!; [| done |].
    - assert (preserves (λ s, logged (GetRequestPad sel "sink_%u", RPad d) s)
                (g_object_set_data (Some sel) "rtsp-pad" d)) as H
        by (preserved fail anchor_write).
      by apply H.
    - by apply (g_object_set_data_spec sel "rtsp-pad" d q). }
  intros ?.
  do 5 (step_keep; intros ?).
  apply hoare_ret. intros s (Hlog & Hd & Hq) _. by exists d.
Qed.

End DecodeChain.

(** ** What ends a session *)

Section Quit.

Variable E : Engine.

Lemma dispatch_quit v ev s :
  ends_session (rtsp_src (self s)) ev = false →
  w_quit (world s) = v →
  w_quit (world (exec (dispatch E ev) s)) = v.
Proof.
  intros Hev Hv.
  destruct ev as [[src|src|src o n|src]|pad caps| |id| |]; try done.
  - cbn [ends_session] in Hev. apply negb_false_iff, bool_decide_eq_true in Hev.
    cbn [dispatch]. unfold dispatch_bus. rewrite exec_bind.
    change (exec (observe ?f) s) with s. destruct (eval (observe _) s); [| done].
    rewrite exec_bind, handle_bus_message_true.
    change (exec (mret tt) ?x) with x.
    rewrite handle_error_exec, decide_True by done.
    assert (preserves (λ s, w_quit (world s) = v)
              (switch_to_dummy_source;; schedule_rtsp_reconnect)) as H
      by (preserved fail field_write).
    specialize (H s Hv). by rewrite exec_bind in H.
  - clear Hev. revert s Hv. change (preserves (λ s, w_quit (world s) = v)
                               (dispatch E (BusMessage (GST_MESSAGE_STATE_CHANGED src o n)))).
    preserved fail field_write.
  - clear Hev. revert s Hv. change (preserves (λ s, w_quit (world s) = v)
                               (dispatch E (BusMessage (GST_MESSAGE_OTHER src)))).
    preserved fail field_write.
  - clear Hev. revert s Hv. change (preserves (λ s, w_quit (world s) = v)
                               (dispatch E (PadAdded pad caps))).
    preserved fail field_write.
  - clear Hev. revert s Hv. change (preserves (λ s, w_quit (world s) = v)
                               (dispatch E (TimeoutReady id))).
    preserved fail field_write.
Qed.

Lemma g_main_loop_run_quit v evs s :
  existsb (ends_session (rtsp_src (self s))) evs = false →
  w_quit (world s) = v →
  w_quit (world (exec (g_main_loop_run E evs) s)) = v.
Proof.
  revert s. induction evs as [|ev evs IH]; intros s Hevs Hv; [done |].
  cbn [existsb] in Hevs. apply orb_false_elim in Hevs as [Hev Hevs].
  cbn [g_main_loop_run]. rewrite exec_bind.
  change (exec (observe ?f) s) with s. destruct (eval (observe _) s); [done |].
  rewrite exec_bind. apply IH.
  - pose proof (dispatch_static E _ ev s eq_refl) as Hst.
    unfold static_fields in Hst. injection Hst as _ Hsrc _ _ _ _ _ _ _ _ _ _ _.
    by rewrite Hsrc.
  - by apply dispatch_quit.
Qed.

End Quit.

(** ** Routing before the live source has a video pad *)

Lemma forall_filter {A} (P Q : A → Prop) `{!∀ x, Decision (Q x)} (l : list A) :
  Forall P l → Forall P (filter Q l).
Proof.
  intros Hall. apply Forall_forall. intros x [_ Hx]%list_elem_of_filter.
  by apply (proj1 (Forall_forall _ _) Hall).
Qed.

Lemma fallback_only_sources (f : list Source → list Source) s :
  (∀ l, Forall (λ src, ¬ is_grace_timer src) l →
        Forall (λ src, ¬ is_grace_timer src) (f l)) →
  fallback_only s →
  fallback_only (mkState (self s) (set_sources (f (w_sources (world s))) (world s))).
Proof.
  intros Hf (sel & p & ? & ? & ? & ? & Hg). exists sel, p.
  split_and!; [done.. |]. cbn. by apply Hf.
Qed.

Lemma fallback_only_attach cb interval delay s :
  is_grace_timer (mkSource 0 (Timeout cb interval) 0) = false →
  fallback_only s →
  fallback_only (mkState (self s) (attach (Timeout cb interval) delay (world s))).
Proof.
  intros Hcb (sel & p & ? & ? & ? & ? & Hg). exists sel, p.
  split_and!; [done.. |]. cbn. apply Forall_app. split; [done |].
  apply Forall_singleton. destruct cb; [discriminate Hcb | intros []].
Qed.

Ltac fallback_only_write :=
  first [ let sel := fresh "sel" in
          let p := fresh "p" in
          intros ? (sel & p & ? & ? & ? & ? & ?); exists sel, p;
          split_and!; cbn; assumption
        | intros ? ?; apply fallback_only_attach; [reflexivity | assumption]
        | intros ? ?; apply (fallback_only_sources (filter _)); [| assumption];
          intros ? ?; by apply forall_filter ].

Ltac no_live_pad_write :=
  first [ intros ? ?; assumption
        | let s := fresh "s" in
          let H := fresh "H" in
          let o := fresh "o" in
          intros s H o; cbn;
          lazymatch goal with
          | |- context [match ?d with _ => _ end] => destruct d
          end;
          [ rewrite lookup_insert_ne by congruence
          | rewrite lookup_delete_ne by congruence ];
          apply H ].

Lemma switch_to_fallback_only b : preserves fallback_only (switch_to b).
Proof.
  intros s (sel & p & Hsel & Hd & Hl & Ha & Hg).
  rewrite switch_to_exec, Hsel.
  assert (branch_pad b s = match b with FallbackBranch => Some p | LiveBranch => None end)
    as -> by (destruct b; unfold branch_pad, fallback_pad, live_pad;
              by rewrite (selector_data_lookup _ sel s Hsel)).
  destruct b; [| by exists sel, p].
  exists sel, p. by split_and!.
Qed.

Lemma schedule_rtsp_reconnect_fallback_only :
  preserves fallback_only schedule_rtsp_reconnect.
Proof. preserved fail fallback_only_write. Qed.

Ltac fallback_only_known :=
  first [ apply (switch_to_fallback_only FallbackBranch)
        | apply (switch_to_fallback_only LiveBranch)
        | apply schedule_rtsp_reconnect_fallback_only ].

Section BeforeVideo.

Variable E : Engine.

Lemma dispatch_bus_fallback_only msg : preserves fallback_only (dispatch_bus msg).
Proof. preserved fallback_only_known fallback_only_write. Qed.

Lemma dispatch_timeout_fallback_only id : preserves fallback_only (dispatch_timeout E id).
Proof.
  intros s Hs. rewrite dispatch_timeout_exec.
  destruct (List.find (has_id id) (w_sources (world s))) as [[i [|cb n] due]|] eqn:Hfind;
    [done | | done].
  destruct (due <=? w_now (world s))%nat; [| done].
  apply find_has_id in Hfind as [Hin _].
  destruct cb.
  - destruct Hs as (sel & p & _ & _ & _ & _ & Hg).
    by destruct (proj1 (Forall_forall _ _) Hg _ Hin).
  - cbv zeta. apply (fallback_only_sources (detach id)); [intros l; apply detach_forall |].
    revert s Hs Hin. intros s Hs _. revert s Hs.
    change (preserves fallback_only (reconnect_rtsp_source E)).
    preserved fail fallback_only_write.
Qed.

Lemma dispatch_fallback_only ev s :
  exposes_video ev = false → fallback_only s → fallback_only (exec (dispatch E ev) s).
Proof.
  intros Hev Hs. destruct ev as [msg|pad caps| |id| |]; cbn [dispatch].
  - by apply dispatch_bus_fallback_only.
  - cbn [exposes_video] in Hev.
    assert (connect_rtsp_pad E pad caps s = (tt, s)) as Hpad.
    { unfold connect_rtsp_pad, is_rtp_video in *.
      destruct caps as [[name media]|]; [| done]. cbn [caps_name caps_media] in *.
      destruct (String.prefix _ name); cbn [andb] in *; [| done].
      destruct media as [m|]; cbn [is_null negb]; [| done]. by rewrite Hev. }
    unfold exec. by rewrite Hpad.
  - done.
  - by apply dispatch_timeout_fallback_only.
  - revert s Hs. change (preserves fallback_only (dispatch E Second)).
    preserved fail fallback_only_write.
  - revert s Hs. change (preserves fallback_only (dispatch E Signal)).
    preserved fail fallback_only_write.
Qed.

Lemma g_main_loop_run_fallback_only evs s :
  existsb exposes_video evs = false →
  fallback_only s → fallback_only (exec (g_main_loop_run E evs) s).
Proof.
  revert s. induction evs as [|ev evs IH]; intros s Hevs Hs; [done |].
  cbn [existsb] in Hevs. apply orb_false_elim in Hevs as [Hev Hevs].
  cbn [g_main_loop_run]. rewrite exec_bind.
  change (exec (observe ?f) s) with s. destruct (eval (observe _) s); [done |].
  rewrite exec_bind. apply IH; [done |]. by apply dispatch_fallback_only.
Qed.

Lemma initialize_no_live_pad : preserves no_live_pad (initialize E).
Proof. preserved fail no_live_pad_write. Qed.

Lemma start_prelude_no_live_pad : preserves no_live_pad (start_prelude E).
Proof. preserved fail no_live_pad_write. Qed.

(** When the main loop starts, only the fallback branch can be routed. *)
Lemma session_fallback_only uri output s1 s2 :
  initialize E (fresh uri output) = (true, s1) →
  start_prelude E s1 = (true, s2) →
  fallback_only s2.
Proof.
  intros Hinit Hstart.
  destruct (initialize_stores E _ _ Hinit) as [p Hp].
  assert (eval (start_prelude E) s1 = true) as Heval by (unfold eval; by rewrite Hstart).
  assert (exec (start_prelude E) s1 = s2) as Hexec by (unfold exec; by rewrite Hstart).
  destruct (start_prelude_routes E s1 p Hp Heval) as ((sel & Hsel & Hd) & Hact & _).
  assert (no_live_pad s2) as Hlive.
  { rewrite <- Hexec. apply start_prelude_no_live_pad.
    replace s1 with (exec (initialize E) (fresh uri output))
      by (unfold exec; by rewrite Hinit).
    apply initialize_no_live_pad. intros o. apply lookup_empty. }
  assert (w_sources (world s2) = [mkSource 1 BusWatch 0]) as Hsrc.
  { destruct (initialize_success E uri output s1 Hinit)
      as (? & ? & ? & ? & ? & ? & ? & ? & _ & Hsrcs & _).
    assert (preserves (λ s, w_sources (world s) = [mkSource 1 BusWatch 0])
              (start_prelude E)) as H by (preserved fail field_write).
    rewrite <- Hexec. by apply H. }
  rewrite Hexec in *. exists sel, p. split_and!; [done.. |].
  rewrite Hsrc. apply Forall_singleton. intros [].
Qed.

End BeforeVideo.

(** ** Fields that are written and never read *)

Section Blind.

Context {A B : Type}.

Lemma blind_ret (a : A) : blind (mret a).
Proof. by intros s t H. Qed.

Lemma blind_bind (m : M A) (k : A → M B) :
  blind m → (∀ a, blind (k a)) → blind (m ≫= k).
Proof.
  intros Hm Hk s t Hst. rewrite !eval_bind, !exec_bind.
  destruct (Hm s t Hst) as [-> Hst']. by apply Hk.
Qed.

Lemma blind_get (f : Streamer → A) :
  (∀ s t, unread_apart s t → f (self s) = f (self t)) → blind (get f).
Proof. intros Hf s t Hst. split; [by apply Hf | done]. Qed.

Lemma blind_observe (f : World → A) : blind (observe f).
Proof. intros s t [Hw Hf]. split; [| done]. unfold eval. cbn. by rewrite Hw. Qed.

End Blind.

Lemma blind_put (f : Streamer → Streamer) :
  (∀ x y, read_fields x = read_fields y → read_fields (f x) = read_fields (f y)) →
  blind (put f).
Proof. intros Hf s t [Hw Hr]. split; [done |]. split; [done | by apply Hf]. Qed.

Lemma blind_effect (f : World → World) : blind (effect f).
Proof. intros s t [Hw Hr]. split; [done |]. split; [cbn; by rewrite Hw | done]. Qed.

Ltac blind_read :=
  let Hr := fresh "Hr" in
  intros ? ? [_ Hr]; unfold read_fields in Hr; by injection Hr.

Ltac blind_write :=
  let Hr := fresh "Hr" in
  intros ? ? Hr; unfold read_fields in *; cbn; injection Hr; clear Hr; intros;
  repeat match goal with H : _ = _ |- _ => rewrite ?H; clear H end;
  reflexivity.

Ltac blinded known :=
  repeat first
    [ apply blind_ret
    | apply blind_observe
    | apply blind_effect
    | known
    | apply blind_get; blind_read
    | apply blind_put; blind_write
    | apply blind_bind; [| intros ?]
    | lazymatch goal with
      | |- blind (match ?c with _ => _ end) => destruct c
      | |- blind (let _ := _ in _) => cbv zeta
      end
    | lazymatch goal with
      | |- blind ?m => let h := head_of m in progress unfold h
      end ].

Section BlindFunctions.

Variable E : Engine.

Lemma initialize_blind : blind (initialize E).
Proof. blinded fail. Qed.

Lemma cleanup_blind : blind (cleanup E).
Proof. blinded fail. Qed.

Lemma dispatch_blind ev : blind (dispatch E ev).
Proof. blinded fail. Qed.

Lemma g_main_loop_run_blind evs : blind (g_main_loop_run E evs).
Proof.
  induction evs as [|ev evs IH]; cbn [g_main_loop_run]; [apply blind_ret |].
  apply blind_bind; [apply blind_observe |].
  intros [|]; [apply blind_ret |].
  apply blind_bind; [apply dispatch_blind | intros _; apply IH].
Qed.

Lemma start_blind evs : blind (start E evs).
Proof.
  unfold start. apply blind_bind; [blinded fail |].
  intros [|]; cbn [negb]; [| apply blind_ret].
  apply blind_bind; [apply g_main_loop_run_blind | intros _; apply blind_ret].
Qed.

End BlindFunctions.

(** ** Routing and the connection state *)











Section ConnectionState.

Variable E : Engine.











End ConnectionState.

(** A run in which no grace timer fires at all is one in which none fires
    at the wrong moment. *)
Lemma grace_free_waits_for_flag E evs s :
  grace_free E evs s = true → grace_waits_for_flag E evs s = true.
Proof.
  revert s. induction evs as [|ev evs IH]; intros s; [done |].
  cbn [grace_free grace_waits_for_flag]. destruct (w_quit (world s)); [done |].
  intros [Hev Hrest]%andb_prop. apply negb_true_iff in Hev.
  unfold grace_routes. rewrite Hev. cbn [andb negb]. by apply IH.
Qed.

Lemma grace_free_waits_for_live E evs c s :
  grace_free E evs s = true → grace_waits_for_live E evs c s = true.
Proof.
  revert c s. induction evs as [|ev evs IH]; intros c s; [done |].
  cbn [grace_free grace_waits_for_live]. destruct (w_quit (world s)); [done |].
  intros [Hev Hrest]%andb_prop. apply negb_true_iff in Hev.
  unfold grace_routes. rewrite Hev. cbn [andb negb]. by apply IH.
Qed.

(** ** Building the graph: what a build consists of *)

Lemma failed_log c r :
  ∀ s, failed s → failed (mkState (self s) (log c r (world s))).
Proof. intros s H. unfold failed in *. cbn. apply Exists_app. by left. Qed.

Lemma failed_here c r (s : State) :
  checked_failure (c, r) = true → failed (mkState (self s) (log c r (world s))).
Proof. intros H. unfold failed. cbn. apply Exists_app. right. by apply Exists_cons_hd. Qed.

Lemma profile_built_log q c r :
  ∀ s, profile_built q s → profile_built q (mkState (self s) (log c r (world s))).
Proof.
  intros s (queue & conv & scale & rate & capsf & enc & parse & sink & t & k & H).
  exists queue, conv, scale, rate, capsf, enc, parse, sink, t, k.
  repeat match goal with H : _ ∧ _ |- _ => destruct H end.
  split_and!; first [assumption | by apply logged_log].
Qed.

(** Writes under which logged entries, recorded failures, built branches
    and fields of the object persist. *)
Ltac build_write :=
  intros ? ?; cbv beta iota in *;
  repeat match goal with H : _ ∧ _ |- _ => destruct H end;
  repeat match goal with |- _ ∧ _ => split end;
  first [ exact I
        | assumption
        | cbn; assumption
        | apply logged_log; assumption
        | apply failed_log; assumption
        | apply profile_built_log; assumption ].

Ltac build_keep :=
  eapply hoare_bind;
  [ apply preserves_hoare; solve [preserved fail build_write] | ].

Ltac build_record spec :=
  eapply hoare_bind;
  [ apply hoare_frame; [ solve [preserved fail build_write] | spec ] | ].

(** The rest of a function after a failure it tests: the failure stays
    recorded, and the function returns [false]. *)
Ltac bail_out :=
  cbv beta iota;
  repeat first
    [ lazymatch goal with
      | |- hoare _ (_ ≫= _) _ => build_keep; intros ?
      end
    | progress cbn [is_null orb negb] ];
  apply hoare_ret;
  intros ? ?; cbv beta iota in *;
  repeat match goal with H : _ ∧ _ |- _ => destruct H end;
  assumption.

(** The rest of a function after a failure, whatever it returns: the
    failure stays recorded. *)
Ltac fail_through :=
  cbv beta iota;
  lazymatch goal with
  | |- hoare ?P _ _ => eapply (hoare_conseq P P _ (λ _, P))
  end;
  [ apply preserves_hoare; solve [preserved fail build_write]
  | intros ? H; exact H
  | let a := fresh "a" in
    intros a ? ?; cbv beta iota in *;
    repeat match goal with H : _ ∧ _ |- _ => destruct H end;
    try destruct a; first [exact I | assumption] ].

(** A precondition that cannot hold. *)
Ltac no_such_pad :=
  intros ? ?; cbv beta iota in *;
  repeat match goal with H : _ ∧ _ |- _ => destruct H end;
  contradiction.

(** The field read is known from the precondition. *)
Ltac read_field :=
  intros ? ?; cbv beta iota in *;
  repeat match goal with H : _ ∧ _ |- _ => destruct H end;
  eassumption.

Lemma hoare_read {X T} (P : State → Prop) (f : Streamer → X) (v : X)
    (k : X → M T) (Q : T → State → Prop) :
  (∀ s, P s → f (self s) = v) → hoare P (k v) Q → hoare P (get f ≫= k) Q.
Proof.
  intros Hv Hk s HP. rewrite eval_bind, exec_bind.
  change (eval (get f) s) with (f (self s)). change (exec (get f) s) with s.
  rewrite (Hv s HP). by apply Hk.
Qed.

Lemma hoare_frame_pre {T} (P P' : State → Prop) (m : M T) (Q : T → State → Prop) :
  preserves P m → (∀ s, P s → P' s) → hoare P' m Q →
  hoare P m (λ a s, P s ∧ Q a s).
Proof. intros Hp Himp Hq s Hs. split; [by apply Hp | by apply Hq, Himp]. Qed.

Ltac build_record_pre spec :=
  eapply hoare_bind;
  [ eapply hoare_frame_pre;
    [ solve [preserved fail build_write] | | spec ];
    cbv beta; intros ? ?; cbv beta iota in *;
    repeat match goal with H : _ ∧ _ |- _ => destruct H end;
    repeat match goal with |- _ ∧ _ => split end; eassumption | ].

Lemma logged_here c r (s : State) : logged (c, r) (mkState (self s) (log c r (world s))).
Proof. unfold logged. cbn. apply elem_of_app. right. apply list_elem_of_here. Qed.

Section BuildSteps.

Variable E : Engine.

Lemma new_object_settled c factory name :
  checked_failure (c, RHandle None) = true →
  hoare (λ _, True) (new_object E c factory name)
    (λ a s, match a with
            | Some h => logged (c, RHandle (Some h)) s
            | None => failed s
            end).
Proof.
  intros Hc s _. unfold eval, exec. run.
  destruct (eng_ok E (length (w_trace (world s)))); run.
  - apply logged_here.
  - by apply failed_here.
Qed.

Lemma factory_make_settled factory name :
  hoare (λ _, True) (gst_element_factory_make E factory name)
    (λ a s, match a with
            | Some h => logged (FactoryMake factory name, RHandle (Some h)) s
            | None => failed s
            end).
Proof. by apply new_object_settled. Qed.

Lemma pipeline_new_settled name :
  hoare (λ _, True) (gst_pipeline_new E name)
    (λ a s, match a with
            | Some h => logged (PipelineNew name, RHandle (Some h)) s
            | None => failed s
            end).
Proof. by apply new_object_settled. Qed.

Lemma fallible_settled c :
  checked_failure (c, RBool false) = true →
  hoare (λ _, True) (fallible E c)
    (λ ok s, if ok then logged (c, RBool true) s else failed s).
Proof.
  intros Hc s _. unfold eval, exec. run.
  destruct (eng_ok E (length (w_trace (world s)))).
  - apply logged_here.
  - by apply failed_here.
Qed.

Lemma element_link_settled x y :
  hoare (λ _, True) (gst_element_link E (Some x) (Some y))
    (λ ok s, if ok then logged (ElementLink x y, RBool true) s else failed s).
Proof. by apply fallible_settled. Qed.

Lemma element_link_many_settled es l :
  all_present es = Some l →
  hoare (λ _, True) (gst_element_link_many E es)
    (λ ok s, if ok then logged (ElementLinkMany l, RBool true) s else failed s).
Proof. intros Hl. unfold gst_element_link_many. rewrite Hl. by apply fallible_settled. Qed.

Lemma pad_link_settled a b :
  hoare (λ _, True) (gst_pad_link E (Some a) (Some b))
    (λ ok s, if ok then logged (PadLink (Some a) (Some b), RBool true) s else failed s).
Proof. by apply fallible_settled. Qed.

Lemma get_static_pad_settled h name :
  hoare (λ _, True) (gst_element_get_static_pad E (Some h) name)
    (λ r s, match r with
            | Some p => p = StaticPad h name
                        ∧ logged (GetStaticPad h name, RPad (Some p)) s
            | None => failed s
            end).
Proof.
  intros s _. unfold eval, exec. run.
  destruct (eng_ok E (length (w_trace (world s)))).
  - split; [done | apply logged_here].
  - by apply failed_here.
Qed.

Lemma get_request_pad_settled h template :
  hoare (λ _, True) (gst_element_get_request_pad E (Some h) template)
    (λ r s, match r with
            | Some (RequestPad o k) =>
                o = h ∧ logged (GetRequestPad h template, RPad (Some (RequestPad o k))) s
            | Some _ => False
            | None => failed s
            end).
Proof.
  intros s _. unfold eval, exec. run.
  destruct (eng_ok E (length (w_trace (world s)))).
  - split; [done | apply logged_here].
  - by apply failed_here.
Qed.


Lemma create_dash_pipeline_settled q width height bitrate t :
  hoare (λ s, tee (self s) = Some t) (create_dash_pipeline E q width height bitrate)
    (λ r s, if r then profile_built q s else failed s).
Proof.
  unfold create_dash_pipeline. cbv zeta.
  build_record ltac:(apply factory_make_settled).
  intros [queue|]; cbv beta iota; [| bail_out].
  build_record ltac:(apply factory_make_settled).
  intros [conv|]; cbv beta iota; [| bail_out].
  build_record ltac:(apply factory_make_settled).
  intros [scale|]; cbv beta iota; [| bail_out].
  build_record ltac:(apply factory_make_settled).
  intros [rate|]; cbv beta iota; [| bail_out].
  build_record ltac:(apply factory_make_settled).
  intros [capsf|]; cbv beta iota; [| bail_out].
  build_record ltac:(apply factory_make_settled).
  intros [enc|]; cbv beta iota; [| bail_out].
  build_record ltac:(apply factory_make_settled).
  intros [parse|]; cbv beta iota; [| bail_out].
  build_record ltac:(apply factory_make_settled).
  intros [sink|]; cbv beta iota; [| bail_out].
  cbn [is_null orb].
  build_keep; intros ?. build_keep; intros ?. build_keep; intros out.
  build_keep; intros ?. build_keep; intros p. build_keep; intros ?.
  build_record ltac:(by apply element_link_many_settled).
  intros [|]; cbv beta iota; cbn [negb]; [| bail_out].
  eapply hoare_read; [read_field |].
  build_record ltac:(apply get_request_pad_settled).
  intros [[? ?|o k|? ?]|]; cbv beta iota; [no_such_pad | | no_such_pad | bail_out].
  cbn [is_null].
  build_record ltac:(apply get_static_pad_settled).
  intros [queue_pad|]; cbv beta iota; [| bail_out].
  cbn [is_null].
  do 8 (build_keep; intros ?).
  build_record ltac:(apply pad_link_settled).
  intros [|]; cbv beta iota; cbn [negb]; [| bail_out].
  build_keep; intros ?. apply hoare_ret.
  intros s H. cbv beta iota in H.
  repeat match goal with H : _ ∧ _ |- _ => destruct H end. subst.
  exists queue, conv, scale, rate, capsf, enc, parse, sink, t, k.
  by split_and!.
Qed.

Lemma connect_dummy_source_failed d sel :
  hoare (λ s, dummy_src (self s) = Some d ∧ input_selector (self s) = Some sel)
    (connect_dummy_source E)
    (λ r s, if r then True else failed s).
Proof.
  unfold connect_dummy_source.
  build_record ltac:(apply factory_make_settled).
  intros [dconv|]; cbv beta iota; [| fail_through].
  build_record ltac:(apply factory_make_settled).
  intros [dcaps|]; cbv beta iota; [| fail_through].
  cbn [is_null orb].
  build_keep; intros ?. build_keep; intros p. build_keep; intros ?.
  eapply hoare_read; [read_field |].
  build_record ltac:(by apply element_link_many_settled).
  intros [|]; cbv beta iota; cbn [negb]; [| fail_through].
  build_record ltac:(apply get_static_pad_settled).
  intros [dummy_pad|]; cbv beta iota; [| fail_through].
  eapply hoare_read; [read_field |].
  build_record ltac:(apply get_request_pad_settled).
  intros [[? ?|o k|? ?]|]; cbv beta iota; [no_such_pad | | no_such_pad | fail_through].
  build_record ltac:(apply pad_link_settled).
  intros [|]; cbv beta iota; cbn [negb]; [| fail_through].
  build_keep; intros ?. by apply hoare_ret.
Qed.

Lemma initialize_core_failed :
  hoare (λ _, True) (initialize_core E) (λ r s, if r then True else failed s).
Proof.
  unfold initialize_core.
  build_record ltac:(apply pipeline_new_settled).
  intros [p|]; cbv beta iota; [| fail_through].
  build_keep; intros ?. cbn [is_null].
  build_record ltac:(apply factory_make_settled).
  intros [src|]; cbv beta iota; [| fail_through].
  build_keep; intros ?. cbn [is_null].
  build_keep; intros uri. build_keep; intros ?.
  build_record ltac:(apply factory_make_settled).
  intros [dummy|]; cbv beta iota; [| fail_through].
  build_record ltac:(apply (hoare_put dummy_src); intros ?; cbn; reflexivity).
  intros ?. cbv beta. cbn [is_null].
  build_keep; intros ?.
  build_record ltac:(apply factory_make_settled).
  intros [sel|]; cbv beta iota; [| fail_through].
  build_record ltac:(apply (hoare_put input_selector); intros ?; cbn; reflexivity).
  intros ?. cbv beta. cbn [is_null].
  build_record ltac:(apply factory_make_settled).
  intros [t|]; cbv beta iota; [| fail_through].
  build_keep; intros ?. cbn [is_null].
  build_keep; intros ?.
  build_record_pre ltac:(apply (connect_dummy_source_failed dummy sel)).
  intros [|]; cbv beta iota; cbn [negb]; [| fail_through].
  build_record ltac:(apply element_link_settled).
  intros [|]; cbv beta iota; cbn [negb]; [| fail_through].
  by apply hoare_ret.
Qed.

Lemma initialize_outputs_settled t :
  hoare (λ s, tee (self s) = Some t) (initialize_outputs E)
    (λ r s, if r then profile_built "fullhd" s ∧ profile_built "hd" s else failed s).
Proof.
  unfold initialize_outputs.
  build_record_pre ltac:(apply (create_dash_pipeline_settled "fullhd" 1920 1080 5000 t)).
  intros [|]; cbv beta iota; cbn [negb]; [| bail_out].
  build_record_pre ltac:(apply (create_dash_pipeline_settled "hd" 1280 720 3000 t)).
  intros [|]; cbv beta iota; cbn [negb]; [| bail_out].
  do 4 (build_keep; intros ?).
  apply hoare_ret. intros s H. cbv beta iota in H.
  repeat match goal with H : _ ∧ _ |- _ => destruct H end. by split.
Qed.

(** What [initialize] has done when it returns: on success the anchor and
    both profile branches are built, on failure a failed creation, link or
    pad request is in the trace. *)
Lemma initialize_settled s0 :
  if eval (initialize E) s0
  then anchored (exec (initialize E) s0) (w_trace (world (exec (initialize E) s0)))
       ∧ profile_built "fullhd" (exec (initialize E) s0)
       ∧ profile_built "hd" (exec (initialize E) s0)
  else failed (exec (initialize E) s0).
Proof.
  unfold initialize. rewrite eval_bind, exec_bind.
  pose proof (initialize_core_anchored E s0 I) as Hanch.
  pose proof (initialize_core_failed s0 I) as Hfail.
  destruct (eval (initialize_core E) s0); cbn [negb]; cbv beta iota in *.
  - set (sc := exec (initialize_core E) s0) in *.
    specialize (Hanch eq_refl).
    pose proof (initialize_outputs_extends E (w_trace (world sc)) sc (extends_refl sc))
      as Hext.
    pose proof (initialize_outputs_anchored E (w_trace (world sc)) sc Hanch) as Hanch'.
    destruct Hanch as (dsrc & dconv & dcaps & sel & t & k & _ & _ & Ht & _).
    pose proof (initialize_outputs_settled t sc Ht) as Hout.
    cbv beta in Hout.
    destruct (eval (initialize_outputs E) sc); [| exact Hout].
    split; [| exact Hout].
    eapply anchored_mono; [exact Hext | exact Hanch'].
  - exact Hfail.
Qed.

End BuildSteps.

(** * The claims *)

(** ** C1: attribution of bus errors *)

(** C1, as amended.  An error message is handled by comparing the object that
    posted it with [rtsp_src] only.  When they are the same object the
    handler switches the selector to the fallback pad (when one is stored),
    schedules a reconnect timer due in five seconds and does not ask the
    main loop to quit; for every other poster, the elements of the decode
    chain included, the handler does what [stop] does: it quits the main
    loop (when there is one) and neither the selector nor the timers
    change. *)
Theorem C1_error_attribution (src : option handle) (s : State) :
  let s' := exec (handle_bus_message (GST_MESSAGE_ERROR src)) s in
  if decide (src = rtsp_src (self s)) then
    s' = exec schedule_rtsp_reconnect (exec switch_to_dummy_source s)
    ∧ w_quit (world s') = w_quit (world s)
    ∧ w_active_pad (world s') =
        match fallback_pad s with
        | Some pad => Some pad
        | None => w_active_pad (world s)
        end
    ∧ mkSource (reconnect_timeout_id (self s'))
        (Timeout reconnect_rtsp_source_cb 5) (w_now (world s) + 5)
      ∈ w_sources (world s')
  else
    s' = exec stop s
    ∧ w_quit (world s') = (if is_null (loop (self s)) then w_quit (world s) else true)
    ∧ w_active_pad (world s') = w_active_pad (world s)
    ∧ w_sources (world s') = w_sources (world s)
    ∧ reconnect_timeout_id (self s') = reconnect_timeout_id (self s).
Proof.
  cbv zeta. unfold handle_bus_message. rewrite !exec_bind.
  change (eval (get rtsp_src) s) with (rtsp_src (self s)).
  change (exec (get rtsp_src) s) with s.
  change (exec (mret true) ?x) with x.
  destruct (decide (src = rtsp_src (self s))) as [Heq|Hne].
  - rewrite bool_decide_eq_true_2 by done. rewrite exec_bind.
    split; [done |].
    unfold fallback_pad, selector_data.
    run_cases; rewrite ?active_pad_of_switch; cbn; (split_and!; [done | done | set_solver]).
  - rewrite bool_decide_eq_false_2 by done.
    split; [done |]. by run_cases.
Qed.

(** C1, counterexample.  In [live_session] object 23 is the depayloader of the
    decode chain, a node of the live-source lineage.  An error posted by it
    quits the main loop, schedules no reconnect and leaves the selector on
    the live pad. *)
Lemma C1_decode_chain_error_is_fatal :
  w_elements (world live_session) !! 23 = Some ("rtph264depay", Some "rtsp-depay")
  ∧ live_lineage live_session 23 = true
  ∧ w_quit (world live_session) = false
  ∧ let s' := exec (handle_bus_message (GST_MESSAGE_ERROR (Some 23))) live_session in
    w_quit (world s') = true
    ∧ reconnect_timers s' = []
    ∧ w_active_pad (world s') = live_pad live_session
    ∧ w_active_pad (world s') ≠ fallback_pad live_session.
Proof. vm_compute. split_and!; done. Qed.

(** ** C2: routing while the live source is not connected *)




(** The same after an error of the live source: the bus handler leaves
    [is_rtsp_connected] set, the connection state is not [Live], and the
    delayed switch has routed the live pad. *)
Example grace_timer_overrides_error :
  live_after happy failing_run false booted = false
  ∧ is_rtsp_connected (self failed_during_grace) = true
  ∧ fallback_pad failed_during_grace = Some (RequestPad 3 0)
  ∧ w_active_pad (world failed_during_grace) = Some (RequestPad 3 1)
  ∧ w_active_pad (world failed_during_grace) = live_pad failed_during_grace.
Proof. vm_compute. split_and!; done. Qed.

(** ** C3: a single reconnect timer *)

(** C3.  At every point of the main loop at most one reconnect timer is
    pending.  A call of [schedule_rtsp_reconnect] cancels the pending one and
    leaves exactly one, the new timer due five seconds later, and so does any
    run of one or more error events of the live source. *)
Theorem C3_single_reconnect_timer E uri output evs s1 s2 n :
  initialize E (fresh uri output) = (true, s1) →
  start_prelude E s1 = (true, s2) →
  let s := exec (g_main_loop_run E evs) s2 in
  (length (reconnect_timers s) ≤ 1)%nat
  ∧ reconnect_timers (exec schedule_rtsp_reconnect s) =
      [mkSource (w_next_source (world s)) (Timeout reconnect_rtsp_source_cb 5)
         (w_now (world s) + 5)]
  ∧ length (reconnect_timers (source_errors (S n) s)) = 1.
Proof.
  intros Hinit Hstart s.
  pose proof (session_timer_inv E uri output evs s1 s2 Hinit Hstart) as Hinv.
  split_and!.
  - by apply timer_inv_at_most_one.
  - by apply schedule_rtsp_reconnect_single.
  - by apply source_errors_single.
Qed.

(** C3, witness: two errors of the live source while the first reconnect
    timer is still pending, then two more. *)
Lemma C3_single_reconnect_timer_witness :
  let s := exec (g_main_loop_run happy
                   [BusMessage (GST_MESSAGE_ERROR (Some 1)); Second;
                    BusMessage (GST_MESSAGE_ERROR (Some 1))]) booted in
  (length (reconnect_timers s) ≤ 1)%nat
  ∧ reconnect_timers (exec schedule_rtsp_reconnect s) =
      [mkSource (w_next_source (world s)) (Timeout reconnect_rtsp_source_cb 5)
         (w_now (world s) + 5)]
  ∧ length (reconnect_timers (source_errors 2 s)) = 1.
Proof.
  apply (C3_single_reconnect_timer happy "rtsp://camera/stream" "/tmp/dash" _
           (exec (initialize happy) (fresh "rtsp://camera/stream" "/tmp/dash"))
           booted 1); vm_compute; reflexivity.
Defined.

(** ** C4: the reconnect timer is one-shot *)

(** C4.  Once [schedule_rtsp_reconnect] has run, a single reconnect timer is
    pending, due five seconds later whatever happened before.  Dispatching it
    earlier does nothing.  Dispatching it once it is due sets the live source
    to [NULL] and then to [PLAYING], clears [reconnect_timeout_id] and removes
    the timer: dispatching it again does nothing, and no reconnect timer is
    pending after any run of events none of which enters the disconnected
    state. *)
Theorem C4_reconnect_timer_one_shot E s0 :
  timer_inv s0 →
  let s := exec schedule_rtsp_reconnect s0 in
  let id := reconnect_timeout_id (self s) in
  reconnect_timers s =
    [mkSource id (Timeout reconnect_rtsp_source_cb 5) (w_now (world s0) + 5)]
  ∧ (∀ n : nat, (n < 5)%nat → exec (dispatch E (TimeoutReady id)) (later n s) = later n s)
  ∧ (∀ n : nat, (5 ≤ n)%nat →
       let s' := exec (dispatch E (TimeoutReady id)) (later n s) in
       (∃ r1 r2,
          w_trace (world s') =
            w_trace (world s)
            ++ match rtsp_src (self s) with
               | Some src => [(SetState src GST_STATE_NULL, RStateChange r1);
                              (SetState src GST_STATE_PLAYING, RStateChange r2)]
               | None => []
               end)
       ∧ reconnect_timers s' = []
       ∧ reconnect_timeout_id (self s') = 0
       ∧ exec (dispatch E (TimeoutReady id)) s' = s'
       ∧ ∀ evs,
           existsb (enters_disconnected (rtsp_src (self s'))) evs = false →
           reconnect_timers (exec (g_main_loop_run E evs) s') = []).
Proof.
  intros Hinv s id.
  destruct (scheduled_find s0 Hinv) as (rest & Hsrc & Hrest & Hfind).
  fold s in Hsrc, Hfind. fold id in Hsrc, Hfind.
  assert (w_now (world s) = w_now (world s0)) as Hnow.
  { subst s. by run_cases. }
  split_and!.
  - subst id s. rewrite schedule_rtsp_reconnect_single by done.
    by destruct (schedule_rtsp_reconnect_sources s0) as (-> & _).
  - intros n Hn.
    change (dispatch E (TimeoutReady id)) with (dispatch_timeout E id).
    rewrite dispatch_timeout_exec.
    destruct (later_world n s) as (-> & _ & _ & -> & _). rewrite Hfind, Hnow.
    by rewrite (proj2 (Nat.leb_gt _ _)) by lia.
  - intros n Hn.
    change (dispatch E (TimeoutReady id)) with (dispatch_timeout E id).
    rewrite dispatch_timeout_exec.
    destruct (later_world n s) as (Hlsrc & Hltrace & _ & Hlnow & Hlself).
    rewrite Hlsrc, Hlnow, Hfind, Hnow.
    rewrite (proj2 (Nat.leb_le _ _)) by lia.
    cbv zeta. unfold run_callback.
    set (s1 := exec (reconnect_rtsp_source E) (later n s)).
    destruct (run_callback_effect E reconnect_rtsp_source_cb (later n s))
      as (_ & Hsrc1 & _ & Hrid1).
    unfold run_callback in Hsrc1, Hrid1. fold s1 in Hsrc1, Hrid1.
    assert (Forall (λ src, ¬ is_reconnect src) (detach id (w_sources (world s1))))
      as Hquiet.
    { rewrite Hsrc1, Hlsrc, Hsrc. unfold detach. rewrite filter_app.
      apply Forall_app. split.
      - rewrite !Forall_forall in *. intros x [_ Hx]%list_elem_of_filter. by apply Hrest.
      - rewrite filter_cons_False; [constructor | cbn; tauto]. }
    split_and!.
    + destruct (reconnect_rtsp_source_trace E (later n s)) as (r1 & r2 & Htr).
      exists r1, r2. cbn [world w_trace set_sources]. fold s1 in Htr.
      by rewrite Htr, Hltrace, Hlself.
    + by apply filter_none.
    + done.
    + change (dispatch E (TimeoutReady id)) with (dispatch_timeout E id).
      rewrite dispatch_timeout_exec. cbn [world w_sources set_sources].
      by rewrite find_detached.
    + intros evs Hevs. apply g_main_loop_run_quiet; [done |]. by split.
Qed.

(** C4, witness: the first reconnect timer of a session, scheduled when the
    main loop has just started. *)
Lemma C4_reconnect_timer_one_shot_witness :
  timer_inv booted
  ∧ let s := exec schedule_rtsp_reconnect booted in
    let id := reconnect_timeout_id (self s) in
    reconnect_timers s =
      [mkSource id (Timeout reconnect_rtsp_source_cb 5) (w_now (world booted) + 5)]
    ∧ (∀ n : nat, (n < 5)%nat →
         exec (dispatch happy (TimeoutReady id)) (later n s) = later n s)
    ∧ (∀ n : nat, (5 ≤ n)%nat →
         let s' := exec (dispatch happy (TimeoutReady id)) (later n s) in
         (∃ r1 r2,
            w_trace (world s') =
              w_trace (world s)
              ++ match rtsp_src (self s) with
                 | Some src => [(SetState src GST_STATE_NULL, RStateChange r1);
                                (SetState src GST_STATE_PLAYING, RStateChange r2)]
                 | None => []
                 end)
         ∧ reconnect_timers s' = []
         ∧ reconnect_timeout_id (self s') = 0
         ∧ exec (dispatch happy (TimeoutReady id)) s' = s'
         ∧ ∀ evs,
             existsb (enters_disconnected (rtsp_src (self s'))) evs = false →
             reconnect_timers (exec (g_main_loop_run happy evs) s') = []).
Proof.
  assert (timer_inv booted) as Hinv.
  { split; vm_compute.
    - repeat constructor.
    - apply NoDup_singleton.
    - lia.
    - apply Forall_singleton. intros []. }
  split; [exact Hinv | apply (C4_reconnect_timer_one_shot happy booted Hinv)].
Defined.

(** ** C5: graph construction *)

(** C5.  When [initialize] returns [true], the fallback branch and the
    selector have been created and linked, the selector is linked to the
    tee, and for every configured profile the eight nodes of its branch
    have been created, linked into a chain and attached to a pad requested
    from the tee.  In the trace of [initialize], every creation of a node of
    a profile branch comes after the creation and the linking of the
    fallback branch and of the selector and after the link of the selector
    to the tee.  If any creation, link or pad request failed, [initialize]
    returns [false], and it returns [false] only then; [main] then returns 1
    without ever setting the pipeline to [PLAYING] or creating the main
    loop. *)
Theorem C5_build_order_and_failure E prog uri output evs :
  let (r, s) := initialize E (fresh uri output) in
  (r = true →
     anchored s (w_trace (world s)) ∧ Forall (λ q, profile_built q s) profiles)
  ∧ (∀ pre e post,
       w_trace (world s) = pre ++ e :: post →
       creates_profile_node e = true → anchored s pre)
  ∧ (∀ e, e ∈ w_trace (world s) → checked_failure e = true → r = false)
  ∧ (r = false → failed s)
  ∧ (r = false →
     main E [prog; uri; output] evs = (1, Some (exec (cleanup E) s))
     ∧ never_started (exec (cleanup E) s)).
Proof.
  pose proof (initialize_order E (fresh uri output)) as Horder.
  pose proof (checked_initialize E True (fresh uri output)) as Hchecked.
  pose proof (initialize_never_started E (fresh uri output)) as Hnever.
  pose proof (initialize_settled E (fresh uri output)) as Hsettled.
  unfold main. unfold eval, exec in Horder, Hchecked, Hnever, Hsettled.
  destruct (initialize E (fresh uri output)) as [r s]. cbn [fst snd] in *.
  split_and!.
  - intros ->. destruct Hsettled as (Hanch & Hfull & Hhd).
    split; [done |]. unfold profiles. by repeat constructor.
  - intros pre e post. apply Horder. constructor.
  - intros e He Hfail. destruct r; [| done].
    assert (clean s) as Hclean by (apply Hchecked; [intros _; constructor | done]).
    unfold clean in Hclean. rewrite Forall_forall in Hclean.
    specialize (Hclean e He). congruence.
  - by intros ->.
  - intros ->. cbn [negb]. split; [done |].
    apply cleanup_never_started, Hnever. constructor.
Qed.

(** C5, on two engines.  Where every call succeeds, [initialize] returns
    [true] with the anchor and both profile branches built.  Where the
    scaler of the [hd] profile cannot be created, it returns [false] with
    a failure in the trace. *)
Lemma C5_build_order_and_failure_witness :
  (let (r, s) := initialize happy (fresh "rtsp://camera/stream" "/tmp/dash") in
   r = true ∧ anchored s (w_trace (world s))
   ∧ Forall (λ q, profile_built q s) profiles)
  ∧ (let (r, s) := initialize no_hd_scaler (fresh "rtsp://camera/stream" "/tmp/dash") in
     r = false ∧ failed s).
Proof.
  split.
  - pose proof (C5_build_order_and_failure happy "rtsp-dash-streamer"
                  "rtsp://camera/stream" "/tmp/dash" []) as Hclaim.
    destruct (initialize happy (fresh "rtsp://camera/stream" "/tmp/dash"))
      as [r s] eqn:Hrun.
    assert (r = true) as Hr.
    { transitivity (initialize happy (fresh "rtsp://camera/stream" "/tmp/dash")).1;
        [by rewrite Hrun | vm_compute; reflexivity]. }
    destruct Hclaim as (Hbuilt & _). split; [exact Hr | exact (Hbuilt Hr)].
  - pose proof (C5_build_order_and_failure no_hd_scaler "rtsp-dash-streamer"
                  "rtsp://camera/stream" "/tmp/dash" []) as Hclaim.
    destruct (initialize no_hd_scaler (fresh "rtsp://camera/stream" "/tmp/dash"))
      as [r s] eqn:Hrun.
    assert (r = false) as Hr.
    { transitivity (initialize no_hd_scaler (fresh "rtsp://camera/stream" "/tmp/dash")).1;
        [by rewrite Hrun | vm_compute; reflexivity]. }
    destruct Hclaim as (_ & _ & _ & Hfailed & _).
    split; [exact Hr | exact (Hfailed Hr)].
Defined.

(** C5 on a concrete engine: the scaler of the [hd] profile cannot be
    created.  The failed creation is in the trace, after the anchor links;
    [initialize] returns [false] and [main] returns 1. *)
Example build_fails_without_hd_scaler :
  let (r, s) := initialize no_hd_scaler (fresh "rtsp://camera/stream" "/tmp/dash") in
  r = false
  ∧ filter (λ e, checked_failure e) (w_trace (world s)) =
      [(FactoryMake "videoscale" (Some "scale-hd"), RHandle None)]
  ∧ (main no_hd_scaler ["rtsp-dash-streamer"; "rtsp://camera/stream"; "/tmp/dash"] []).1 = 1.
Proof. vm_compute. split_and!; reflexivity. Qed.

(** ** C6 and C10: the switch operation *)

(** C6.  Switching to the branch whose pad is already the selector's active
    pad changes neither the active pad, nor the links, nor the sources of the
    main context, the quit flag or the clock, nor any field of the object:
    the only call made is the write of the same pad to [active-pad]. *)
Theorem C6_switch_to_active_branch (b : Branch) (s : State) :
  branch_pad b s = w_active_pad (world s) →
  let s' := exec (switch_to b) s in
  w_active_pad (world s') = w_active_pad (world s)
  ∧ link_calls s' = link_calls s
  ∧ w_sources (world s') = w_sources (world s)
  ∧ w_next_source (world s') = w_next_source (world s)
  ∧ w_quit (world s') = w_quit (world s)
  ∧ w_now (world s') = w_now (world s)
  ∧ w_qdata (world s') = w_qdata (world s)
  ∧ w_elements (world s') = w_elements (world s)
  ∧ self s' = self s
  ∧ (w_trace (world s') = w_trace (world s)
     ∨ ∃ sel pad, w_active_pad (world s) = Some pad
         ∧ w_trace (world s') =
             w_trace (world s) ++ [(ObjectSet sel [("active-pad", VPad pad)], RUnit)]).
Proof.
  destruct b; unfold branch_pad, fallback_pad, live_pad, selector_data, switch_to,
    link_calls; run_cases; intros Hactive; rewrite ?active_pad_of_switch; cbn;
    rewrite ?filter_app; cbn; rewrite ?app_nil_r;
    (split_and!; [done .. |]); eauto.
Qed.

(** C6, witness: a switch to the fallback branch right after [start] has made
    it the active one. *)
Lemma C6_switch_to_active_branch_witness :
  let s' := exec (switch_to FallbackBranch) booted in
  w_active_pad (world s') = w_active_pad (world booted)
  ∧ link_calls s' = link_calls booted
  ∧ w_sources (world s') = w_sources (world booted)
  ∧ w_next_source (world s') = w_next_source (world booted)
  ∧ w_quit (world s') = w_quit (world booted)
  ∧ w_now (world s') = w_now (world booted)
  ∧ w_qdata (world s') = w_qdata (world booted)
  ∧ w_elements (world s') = w_elements (world booted)
  ∧ self s' = self booted
  ∧ (w_trace (world s') = w_trace (world booted)
     ∨ ∃ sel pad, w_active_pad (world booted) = Some pad
         ∧ w_trace (world s') =
             w_trace (world booted)
             ++ [(ObjectSet sel [("active-pad", VPad pad)], RUnit)]).
Proof. apply (C6_switch_to_active_branch FallbackBranch booted). vm_compute. reflexivity. Defined.

(** C10.  When no pad is stored for the requested branch the switch does
    nothing at all: the state it returns is the state it was given. *)
Theorem C10_switch_without_pad (b : Branch) (s : State) :
  branch_pad b s = None → switch_to b s = (tt, s).
Proof.
  destruct b; unfold branch_pad, fallback_pad, live_pad, selector_data, switch_to;
    run_cases; intros; simplify_eq; done.
Qed.

(** C10, witness: a switch to the live branch before any decode chain was
    built. *)
Lemma C10_switch_without_pad_witness : switch_to LiveBranch booted = (tt, booted).
Proof. apply C10_switch_without_pad. vm_compute. reflexivity. Defined.

(** ** C7: the grace period before the switch to the live branch *)



(** ** C8: shutdown *)

(** C8, the code at the failing input.  The process is interrupted while a
    grace timer is pending.  [main] returns 0 and the destructor's [cleanup]
    releases the pipeline, the bus and the loop and removes the bus watch,
    but the [switch_to_rtsp_delayed] timer is still attached to the main
    context afterwards. *)
Theorem C8_cleanup_leaves_grace_timer :
  let s := exec (cleanup happy) interrupted_during_grace in
  w_sources (world interrupted_during_grace) =
    [mkSource 1 BusWatch 0; mkSource 2 (Timeout switch_to_rtsp_delayed_cb 1) 1]
  ∧ w_quit (world interrupted_during_grace) = true
  ∧ main happy ["rtsp-dash-streamer"; "rtsp://camera/stream"; "/tmp/dash"]
      [PadAdded (StreamPad 1 0) video_caps; Signal] = (0, Some s)
  ∧ pipeline (self s) = None
  ∧ bus (self s) = None
  ∧ loop (self s) = None
  ∧ bus_watch_id (self s) = 0
  ∧ w_sources (world s) = [mkSource 2 (Timeout switch_to_rtsp_delayed_cb 1) 1].
Proof. vm_compute. split_and!; reflexivity. Qed.

(** ** C9: the manifest *)

(** C9, the code at the failing input.  After [initialize] two distinct
    [dashsink] elements exist, one at the end of each profile's chain, and
    each of them was given the same root path and the same manifest file
    name. *)
Theorem C9_one_manifest_name_two_writers :
  manifest_writers (w_trace (world booted)) =
    [(14, Some (VString "/tmp/dash"), VString "./manifest.mpd");
     (22, Some (VString "/tmp/dash"), VString "./manifest.mpd")]
  ∧ w_elements (world booted) !! 14 = Some ("dashsink", Some "dash-sink-fullhd")
  ∧ w_elements (world booted) !! 22 = Some ("dashsink", Some "dash-sink-hd")
  ∧ dash_sink_fullhd (self booted) = Some 14
  ∧ dash_sink_hd (self booted) = Some 22
  ∧ filter (λ e, is_link_call e) (w_trace (world booted)) =
      [(ElementLinkMany [2; 5; 6], RBool true);
       (PadLink (Some (StaticPad 6 "src")) (Some (RequestPad 3 0)), RBool true);
       (ElementLink 3 4, RBool true);
       (ElementLinkMany [7; 8; 9; 10; 11; 12; 13; 14], RBool true);
       (PadLink (Some (RequestPad 4 0)) (Some (StaticPad 7 "sink")), RBool true);
       (ElementLinkMany [15; 16; 17; 18; 19; 20; 21; 22], RBool true);
       (PadLink (Some (RequestPad 4 1)) (Some (StaticPad 15 "sink")), RBool true)].
Proof. vm_compute. split_and!; reflexivity. Qed.

(** * Further theorems *)

(** ** [main] and [start] *)


(** X2.  [start] on an object without a pipeline returns [false] and changes
    nothing.  With a pipeline it first switches the selector to the fallback
    pad, then sets the pipeline to [PLAYING]; when that state change reports
    [FAILURE] it returns [false] with no main loop created and no event
    dispatched, and for every other report (asynchronous ones included) it
    creates the main loop, runs it and returns [true]. *)
Theorem X2_start_order E (evs : list Event) (s : State) :
  (pipeline (self s) = None → start E evs s = (false, s))
  ∧ (∀ p, pipeline (self s) = Some p →
       let s0 := exec switch_to_dummy_source s in
       let r := eng_state E (length (w_trace (world s0))) in
       let s1 := mkState (self s0)
                   (log (SetState p GST_STATE_PLAYING) (RStateChange r) (world s0)) in
       start E evs s =
         if decide (r = GST_STATE_CHANGE_FAILURE) then (false, s1)
         else (true,
               exec (g_main_loop_run E evs)
                 (mkState (set_loop (Some tt) (self s1))
                    (log MainLoopNew RUnit (world s1))))).
Proof.
  split.
  - intros Hp. rewrite start_exec. unfold eval, exec. run. rewrite Hp. run. by destruct s.
  - intros p Hp. cbv zeta. rewrite start_exec.
    assert (start_prelude E s =
              (p' ← get pipeline;
               if is_null p' then mret false else
               switch_to_dummy_source;;
               r ← gst_element_set_state E p' GST_STATE_PLAYING;
               if bool_decide (r = GST_STATE_CHANGE_FAILURE) then mret false else
               l ← g_main_loop_new;
               put (set_loop l);;
               mret true) s) as Hdef by done.
    unfold eval, exec. rewrite Hdef. clear Hdef.
    cbv beta iota zeta delta [mbind M_bind mret M_ret get is_null fst snd].
    rewrite Hp. cbv beta iota.
    assert (pipeline (self (switch_to_dummy_source s).2) = Some p) as Hp'.
    { assert (preserves (λ s, pipeline (self s) = Some p) switch_to_dummy_source) as H
        by (preserved fail field_write).
      by apply H. }
    destruct (switch_to_dummy_source s) as [[] s0]. cbn [snd] in *.
    run.
    destruct (decide (eng_state E (length (w_trace (world s0))) = GST_STATE_CHANGE_FAILURE))
      as [Hr|Hr].
    + rewrite (bool_decide_eq_true_2 _ Hr). by cbn.
    + rewrite (bool_decide_eq_false_2 _ Hr). by cbn.
Qed.

(** ** Construction *)

(** X3.  When [initialize] returns [true] on a new object, whatever the
    engine, all seven element fields and the bus are set, the live source
    was given the URI of the constructor as its [location] and had both pad
    signals connected, the fallback pad is stored on the selector, and the
    only source of the main context is the bus watch, recorded in
    [bus_watch_id]; no pad is active yet, no loop exists and no reconnect is
    scheduled. *)
Theorem X3_initialize_success E (uri output : string) (s1 : State) :
  initialize E (fresh uri output) = (true, s1) →
  ∃ p src dummy sel t fullhd hd b,
    self s1 = mkStreamer (Some p) (Some src) (Some dummy) (Some sel) (Some t)
                (Some fullhd) (Some hd) (Some b) None 1 0 uri output false false
    ∧ w_sources (world s1) = [mkSource 1 BusWatch 0]
    ∧ w_quit (world s1) = false
    ∧ w_active_pad (world s1) = None
    ∧ is_Some (fallback_pad s1)
    ∧ logged (ObjectSet src (rtsp_src_props uri), RUnit) s1
    ∧ logged (SignalConnect src "pad-added", RUnit) s1
    ∧ logged (SignalConnect src "no-more-pads", RUnit) s1.
Proof.
  intros Hinit.
  destruct (initialize_success E uri output s1 Hinit)
    as (p & src & dummy & sel & t & fullhd & hd & b & Hself & Hsrcs & _ & _ & Hq & Ha
        & Hloc & Hpad & Hnomore).
  destruct (initialize_stores E _ _ Hinit) as [d Hd].
  exists p, src, dummy, sel, t, fullhd, hd, b. split_and!; try done.
  rewrite (stored_fallback_pad d s1 Hd). by eexists.
Qed.

(** X3, witness: the engine in which every call succeeds. *)
Lemma X3_initialize_success_witness :
  let s1 := exec (initialize happy) (fresh "rtsp://camera/stream" "/tmp/dash") in
  ∃ p src dummy sel t fullhd hd b,
    self s1 = mkStreamer (Some p) (Some src) (Some dummy) (Some sel) (Some t)
                (Some fullhd) (Some hd) (Some b) None 1 0
                "rtsp://camera/stream" "/tmp/dash" false false
    ∧ w_sources (world s1) = [mkSource 1 BusWatch 0]
    ∧ w_quit (world s1) = false
    ∧ w_active_pad (world s1) = None
    ∧ is_Some (fallback_pad s1)
    ∧ logged (ObjectSet src (rtsp_src_props "rtsp://camera/stream"), RUnit) s1
    ∧ logged (SignalConnect src "pad-added", RUnit) s1
    ∧ logged (SignalConnect src "no-more-pads", RUnit) s1.
Proof.
  apply (X3_initialize_success happy "rtsp://camera/stream" "/tmp/dash").
  vm_compute. reflexivity.
Defined.

(** X4.  [connect_dummy_source] stores the fallback pad on the selector
    exactly when it returns [true], and the pad it stores is the request pad
    it obtained from the selector; when it returns [false] the data stored
    on objects is unchanged.  In both cases the object's fields, the active
    pad and the sources are left as they were. *)
Theorem X4_connect_dummy_source E (s : State) :
  let (r, s') := connect_dummy_source E s in
  self s' = self s
  ∧ w_active_pad (world s') = w_active_pad (world s)
  ∧ w_sources (world s') = w_sources (world s)
  ∧ if r then
      ∃ sel k, input_selector (self s) = Some sel
               ∧ w_qdata (world s') =
                   <[(sel, "dummy-pad") := RequestPad sel k]> (w_qdata (world s))
               ∧ fallback_pad s' = Some (RequestPad sel k)
    else w_qdata (world s') = w_qdata (world s).
Proof.
  unfold fallback_pad, selector_data.
  run_cases; simplify_eq; try done.
  all: split_and!; try done.
  all: eexists _, _; split_and!; [done | done |].
  all: apply lookup_insert_eq.
Qed.

(** ** Bus messages and other events *)

(** X5.  A state-change message is acted on only when the live source posted
    it: entering [PLAYING] marks the source connected and switches to the
    live pad; otherwise leaving [PLAYING], for whatever state, marks it
    disconnected, switches to the fallback pad and schedules a reconnect
    (the test [new_state < GST_STATE_PLAYING] adds nothing); every other
    state change is ignored.  The handler returns [TRUE]. *)
Theorem X5_state_changed (src : option handle) (old_state new_state : GstState)
    (s : State) :
  handle_bus_message (GST_MESSAGE_STATE_CHANGED src old_state new_state) s =
    (true,
     if decide (src = rtsp_src (self s)) then
       if decide (new_state = GST_STATE_PLAYING) then
         exec switch_to_rtsp_source
           (mkState (set_is_rtsp_connected true (self s)) (world s))
       else if decide (old_state = GST_STATE_PLAYING) then
         exec schedule_rtsp_reconnect
           (exec switch_to_dummy_source
              (mkState (set_is_rtsp_connected false (self s)) (world s)))
       else s
     else s).
Proof. apply handle_state_changed. Qed.

(** X6.  While the main loop runs, the element fields, the bus, the loop,
    [bus_watch_id] and the two strings of the object never change; and
    [is_rtsp_connected] changes only on a state-change message by which the
    live source enters or leaves [PLAYING]: in particular an error of the
    live source does not clear it. *)
Theorem X6_loop_frame E (evs : list Event) (s : State) :
  let s' := exec (g_main_loop_run E evs) s in
  static_fields (self s') = static_fields (self s)
  ∧ (existsb (reports_connection (rtsp_src (self s))) evs = false →
     is_rtsp_connected (self s') = is_rtsp_connected (self s)).
Proof.
  split.
  - by apply g_main_loop_run_static.
  - intros Hevs. by apply g_main_loop_run_connection.
Qed.

(** X7.  Throughout a session the bus watch set up by [initialize] stays
    attached and is the only bus watch (no message handler return value and
    no timer cancellation ever removes it), source identifiers stay
    distinct, and [reconnect_timeout_id] is non-zero exactly while a
    reconnect timer is pending. *)
Theorem X7_session_sources E (uri output : string) (evs : list Event) (s1 s2 : State) :
  initialize E (fresh uri output) = (true, s1) →
  start_prelude E s1 = (true, s2) →
  let s := exec (g_main_loop_run E evs) s2 in
  bus_watch_id (self s) = 1
  ∧ (∃ due, mkSource 1 BusWatch due ∈ w_sources (world s))
  ∧ Forall (λ src, is_bus_watch src → src_id src = 1) (w_sources (world s))
  ∧ NoDup (src_id <$> w_sources (world s))
  ∧ (0 < reconnect_timeout_id (self s) ↔ reconnect_timers s ≠ []).
Proof.
  intros Hinit Hstart s.
  pose proof (initialize_session E uri output) as Hs1.
  unfold exec in Hs1. rewrite Hinit in Hs1. cbn [snd] in Hs1.
  pose proof (start_prelude_session E s1 Hs1) as Hs2.
  unfold exec in Hs2. rewrite Hstart in Hs2. cbn [snd] in Hs2.
  destruct (g_main_loop_run_session E evs s2 Hs2) as [Ht [Hw Hwl Hrl]]. fold s in Ht, Hw, Hwl, Hrl.
  assert (bus_watch_id (self s) = 1) as Hid.
  { destruct (initialize_success E uri output s1 Hinit)
      as (p & src & dummy & sel & t & fullhd & hd & b & Hself & _).
    assert (preserves (λ s, bus_watch_id (self s) = 1) (start_prelude E)) as Hpre
      by (preserved fail field_write).
    specialize (Hpre s1). unfold exec in Hpre. rewrite Hstart, Hself in Hpre.
    specialize (Hpre eq_refl). cbn [snd] in Hpre.
    pose proof (g_main_loop_run_static E _ evs s2 eq_refl) as Hst.
    unfold static_fields in Hst. injection Hst as _ _ _ _ _ _ _ _ _ Hb _ _ _.
    subst s. by rewrite Hb. }
  split_and!.
  - done.
  - destruct Hwl as ([i [|cb n] due] & Hin & Hb & Hi); [lia | | done].
    cbn in Hi. rewrite Hid in Hi. subst i. by exists due.
  - eapply Forall_impl; [exact Hw |]. intros src H Hb. rewrite <- Hid. by apply H.
  - apply (ti_nodup _ Ht).
  - split.
    + intros Hpos. destruct (Hrl Hpos) as (src & Hin & Hr & _).
      intros Hnil.
      assert (src ∈ reconnect_timers s) as Hin'
        by (unfold reconnect_timers; apply list_elem_of_filter; by split).
      rewrite Hnil in Hin'. by apply elem_of_nil in Hin'.
    + intros Hne. destruct (reconnect_timers s) as [|src rest] eqn:Hrt; [done |].
      assert (src ∈ reconnect_timers s) as Hin by (rewrite Hrt; apply list_elem_of_here).
      unfold reconnect_timers in Hin. apply list_elem_of_filter in Hin as [Hr Hin].
      by destruct (proj1 (Forall_forall _ _) (ti_reconnect _ Ht) src Hin Hr).
Qed.

(** X7, witness: the live source fails, its reconnect timer fires, and the
    source fails again. *)
Lemma X7_session_sources_witness :
  let s := exec (g_main_loop_run happy
                   [BusMessage (GST_MESSAGE_ERROR (Some 1)); Second; Second; Second;
                    Second; Second; TimeoutReady 2;
                    BusMessage (GST_MESSAGE_ERROR (Some 1))]) booted in
  bus_watch_id (self s) = 1
  ∧ (∃ due, mkSource 1 BusWatch due ∈ w_sources (world s))
  ∧ Forall (λ src, is_bus_watch src → src_id src = 1) (w_sources (world s))
  ∧ NoDup (src_id <$> w_sources (world s))
  ∧ (0 < reconnect_timeout_id (self s) ↔ reconnect_timers s ≠ []).
Proof.
  apply (X7_session_sources happy "rtsp://camera/stream" "/tmp/dash" _
           (exec (initialize happy) (fresh "rtsp://camera/stream" "/tmp/dash"))
           booted); vm_compute; reflexivity.
Defined.

(** X8.  A new pad of the live source is acted on only when its caps name
    starts with [application/x-rtp] and its media is [video]: then the
    decode chain is built for it.  A pad without caps, with other caps,
    without a media field or with another media (audio), and the
    [no-more-pads] signal, change nothing. *)
Theorem X8_pad_added E (pad : Pad) (caps : option PadCaps) (s : State) :
  dispatch E (PadAdded pad caps) s =
    (if is_rtp_video caps then create_rtsp_decode_chain E pad s else (tt, s))
  ∧ dispatch E NoMorePads s = (tt, s).
Proof.
  split; [| done].
  cbn [dispatch]. unfold connect_rtsp_pad, is_rtp_video.
  destruct caps as [[name media]|]; [| done]. cbn [caps_name caps_media].
  destruct (String.prefix _ name); cbn [andb]; [| done].
  destruct media as [m|]; cbn [is_null negb].
  - by destruct (bool_decide _).
  - by rewrite bool_decide_eq_false_2.
Qed.

(** ** The decode chain *)

(** X9.  When [create_rtsp_decode_chain] returns early, because one of its
    five elements could not be created or the chain could not be linked, it
    has changed neither the object, nor the pads stored on the selector, nor
    the active pad, nor the sources of the main context: no live pad is
    stored and no grace timer is armed. *)
Theorem X9_decode_chain_early_return E (pad : Pad) (s : State) :
  eval (link_rtsp_decode_chain E pad) s = None →
  let s' := exec (create_rtsp_decode_chain E pad) s in
  self s' = self s
  ∧ w_qdata (world s') = w_qdata (world s)
  ∧ live_pad s' = live_pad s
  ∧ fallback_pad s' = fallback_pad s
  ∧ w_active_pad (world s') = w_active_pad (world s)
  ∧ w_sources (world s') = w_sources (world s)
  ∧ w_next_source (world s') = w_next_source (world s).
Proof.
  intros Hnone. cbv zeta. rewrite create_rtsp_decode_chain_exec, Hnone.
  pose proof (link_rtsp_decode_chain_early E pad _ s eq_refl Hnone) as Hpart.
  unfold routing_part in Hpart. injection Hpart as Hself Hq Ha Hs Hn _ _.
  split_and!; try done.
  - apply (branch_pad_frame LiveBranch); by rewrite ?Hself.
  - apply (branch_pad_frame FallbackBranch); by rewrite ?Hself.
Qed.

(** X9, witness: the decoder of the first decode chain cannot be created. *)
Lemma X9_decode_chain_early_return_witness :
  let s' := exec (create_rtsp_decode_chain no_decoder (StreamPad 1 0)) booted in
  self s' = self booted
  ∧ w_qdata (world s') = w_qdata (world booted)
  ∧ live_pad s' = live_pad booted
  ∧ fallback_pad s' = fallback_pad booted
  ∧ w_active_pad (world s') = w_active_pad (world booted)
  ∧ w_sources (world s') = w_sources (world booted)
  ∧ w_next_source (world s') = w_next_source (world booted).
Proof.
  apply (X9_decode_chain_early_return no_decoder (StreamPad 1 0) booted).
  vm_compute. reflexivity.
Defined.

(** X10.  When the five elements of the decode chain were created and linked
    to each other, [create_rtsp_decode_chain] stores under [rtsp-pad]
    whatever its request for a selector pad returned, replacing the pad of
    an earlier chain (and clearing it when the request failed); nothing else
    stored on objects changes, the fallback pad in particular.  The results
    of the two pad links play no part in this. *)
Theorem X10_decode_chain_stores_requested_pad E (pad : Pad) (sel caps : handle)
    (s : State) :
  input_selector (self s) = Some sel →
  eval (link_rtsp_decode_chain E pad) s = Some caps →
  let s' := exec (create_rtsp_decode_chain E pad) s in
  ∃ d, logged (GetRequestPad sel "sink_%u", RPad d) s'
       ∧ (d = None ∨ ∃ k, d = Some (RequestPad sel k))
       ∧ w_qdata (world s') =
           match d with
           | Some p => <[(sel, "rtsp-pad") := p]> (w_qdata (world s))
           | None => delete (sel, "rtsp-pad") (w_qdata (world s))
           end
       ∧ live_pad s' = d
       ∧ fallback_pad s' = fallback_pad s.
Proof.
  intros Hsel Hsome. cbv zeta. rewrite create_rtsp_decode_chain_exec, Hsome.
  destruct (link_rtsp_decode_chain_stores E pad sel _ s (conj Hsel eq_refl))
    as (d & Hlog & Hd & Hq); [by rewrite Hsome |].
  assert (preserves (λ s, input_selector (self s) = Some sel) (link_rtsp_decode_chain E pad))
    as Hkeep by (preserved fail field_write).
  specialize (Hkeep s Hsel).
  set (s1 := exec (link_rtsp_decode_chain E pad) s) in *.
  assert (preserves
            (λ t, (input_selector (self t) = Some sel
                   ∧ w_qdata (world t) = w_qdata (world s1))
                  ∧ logged (GetRequestPad sel "sink_%u", RPad d) t)
            (await_rtsp_decode_chain E (Some caps))) as Hawait
    by (preserved fail anchor_write).
  destruct (Hawait s1) as [[Hsel' Hq'] Hlog']; [done |].
  exists d. rewrite Hq', Hq. split_and!; [done | done | done | |].
  - unfold live_pad. rewrite (selector_data_lookup _ sel _ Hsel'), Hq', Hq.
    destruct d; [apply lookup_insert_eq | apply lookup_delete_eq].
  - unfold fallback_pad.
    rewrite (selector_data_lookup _ sel _ Hsel'), (selector_data_lookup _ sel _ Hsel), Hq', Hq.
    destruct d; [by rewrite lookup_insert_ne | by rewrite lookup_delete_ne].
Qed.

(** X10, witness: both pad links of the chain fail, and the selector pad is
    stored as the live pad all the same. *)
Lemma X10_decode_chain_stores_requested_pad_witness :
  let s' := exec (create_rtsp_decode_chain loose_pads (StreamPad 1 0)) booted in
  logged (PadLink (Some (StreamPad 1 0)) (Some (StaticPad 23 "sink")), RBool false) s'
  ∧ logged (PadLink (Some (StaticPad 27 "src")) (Some (RequestPad 3 1)), RBool false) s'
  ∧ ∃ d, logged (GetRequestPad 3 "sink_%u", RPad d) s'
         ∧ (d = None ∨ ∃ k, d = Some (RequestPad 3 k))
         ∧ w_qdata (world s') =
             match d with
             | Some p => <[(3, "rtsp-pad") := p]> (w_qdata (world booted))
             | None => delete (3, "rtsp-pad") (w_qdata (world booted))
             end
         ∧ live_pad s' = d
         ∧ fallback_pad s' = fallback_pad booted.
Proof.
  split_and!.
  - unfold logged. apply (bool_decide_unpack _). vm_compute. exact I.
  - unfold logged. apply (bool_decide_unpack _). vm_compute. exact I.
  - apply (X10_decode_chain_stores_requested_pad loose_pads (StreamPad 1 0) 3 27 booted);
      vm_compute; reflexivity.
Defined.

(** ** The switch operation *)

(** X11.  When a pad is stored for the requested branch, the switch makes it
    the active pad by a single write of [active-pad] and changes nothing
    else; the stored pads stay, so a later switch to either branch lands on
    that branch's pad: the last switch wins. *)
Theorem X11_switch_to_stored_pad (b b' : Branch) (s : State) (p : Pad) :
  branch_pad b s = Some p →
  let s' := exec (switch_to b) s in
  w_active_pad (world s') = Some p
  ∧ branch_pad b' s' = branch_pad b' s
  ∧ (∀ p', branch_pad b' s = Some p' →
       w_active_pad (world (exec (switch_to b') s')) = Some p')
  ∧ self s' = self s
  ∧ w_sources (world s') = w_sources (world s)
  ∧ w_quit (world s') = w_quit (world s)
  ∧ ∃ sel, input_selector (self s) = Some sel
      ∧ w_trace (world s') =
          w_trace (world s) ++ [(ObjectSet sel [("active-pad", VPad p)], RUnit)].
Proof.
  intros Hp. destruct (branch_pad_selector b s p Hp) as [sel Hsel]. cbv zeta.
  rewrite (switch_to_exec b s), Hsel, Hp.
  assert (∀ t, branch_pad b'
            (mkState (self s)
               (log (ObjectSet sel [("active-pad", VPad p)]) RUnit
                  (set_active t (world s)))) = branch_pad b' s) as Hframe
    by (intros t; by apply branch_pad_frame).
  split_and!; try done.
  - intros p' Hp'. rewrite switch_to_exec, Hframe, Hp'. cbn [self]. by rewrite Hsel.
  - by exists sel.
Qed.

(** X11, witness: with the live branch routed, a switch to the fallback
    branch; a switch back to the live branch would land on the live pad. *)
Lemma X11_switch_to_stored_pad_witness :
  let s' := exec (switch_to FallbackBranch) live_session in
  w_active_pad (world s') = Some (RequestPad 3 0)
  ∧ branch_pad LiveBranch s' = branch_pad LiveBranch live_session
  ∧ (∀ p', branch_pad LiveBranch live_session = Some p' →
       w_active_pad (world (exec (switch_to LiveBranch) s')) = Some p')
  ∧ self s' = self live_session
  ∧ w_sources (world s') = w_sources (world live_session)
  ∧ w_quit (world s') = w_quit (world live_session)
  ∧ ∃ sel, input_selector (self live_session) = Some sel
      ∧ w_trace (world s') =
          w_trace (world live_session)
          ++ [(ObjectSet sel [("active-pad", VPad (RequestPad 3 0))], RUnit)].
Proof.
  apply (X11_switch_to_stored_pad FallbackBranch LiveBranch live_session (RequestPad 3 0)).
  vm_compute. reflexivity.
Defined.

(** ** Stopping and shutdown *)


(** X13.  From any state, [cleanup] leaves the pipeline, the bus and the
    loop released and both source identifiers cleared, and the sources it
    removes from the main context are exactly those with the recorded
    reconnect and bus-watch identifiers: every other source stays. *)
Theorem X13_cleanup_effect E (s : State) :
  let s' := exec (cleanup E) s in
  reconnect_timeout_id (self s') = 0
  ∧ bus_watch_id (self s') = 0
  ∧ pipeline (self s') = None
  ∧ bus (self s') = None
  ∧ loop (self s') = None
  ∧ w_sources (world s') =
      filter (λ src, (0 < bus_watch_id (self s) → src_id src ≠ bus_watch_id (self s))
                     ∧ (0 < reconnect_timeout_id (self s) →
                        src_id src ≠ reconnect_timeout_id (self s)))
        (w_sources (world s)).
Proof.
  destruct (cleanup_exec E s) as (Hr & Hw & Hp & Hb & Hl & Hs).
  cbv zeta. rewrite Hs, !detach_if, list_filter_filter. by split_and!.
Qed.

(** X14.  [cleanup] is idempotent: run on its own result it makes no call and
    changes nothing. *)
Theorem X14_cleanup_idempotent E (s : State) :
  cleanup E (exec (cleanup E) s) = (tt, exec (cleanup E) s).
Proof.
  pose proof (cleanup_idempotent E s) as H. unfold exec at 1 in H.
  by destruct (cleanup E (exec (cleanup E) s)) as [[] s'']; cbn [snd] in H; subst.
Qed.

(** X15.  Whenever [main] has constructed the streamer, whatever the engine
    and the events, the state it leaves behind has the pipeline, the bus and
    the loop released, no bus watch and no reconnect timer attached: the
    sources still attached are [switch_to_rtsp_delayed] timers only. *)
Theorem X15_main_releases E (argv : list string) (evs : list Event) (code : nat)
    (s : State) :
  main E argv evs = (code, Some s) →
  Forall (λ src, is_grace_timer src) (w_sources (world s))
  ∧ reconnect_timers s = []
  ∧ pipeline (self s) = None
  ∧ bus (self s) = None
  ∧ loop (self s) = None
  ∧ bus_watch_id (self s) = 0
  ∧ reconnect_timeout_id (self s) = 0.
Proof.
  intros Hmain. destruct (main_session E argv evs code s Hmain) as (s' & Hinv & ->).
  destruct (cleanup_exec E s') as (Hr & Hw & Hp & Hb & Hl & _).
  pose proof (cleanup_leaves_grace_timers E s' Hinv) as Hsrc.
  assert (Forall (λ src, is_grace_timer src) (w_sources (world (exec (cleanup E) s'))))
    as Hgrace.
  { rewrite Hsrc. apply Forall_forall. by intros src [? _]%list_elem_of_filter. }
  split_and!; try done.
  unfold reconnect_timers. apply filter_none.
  eapply Forall_impl; [exact Hgrace |]. intros src Hg Hrc.
  destruct (kinds_apart src) as (_ & _ & K). by apply K.
Qed.

(** X15, witness: a session interrupted while a grace timer is pending. *)
Lemma X15_main_releases_witness :
  let s := exec (cleanup happy) interrupted_during_grace in
  Forall (λ src, is_grace_timer src) (w_sources (world s))
  ∧ reconnect_timers s = []
  ∧ pipeline (self s) = None
  ∧ bus (self s) = None
  ∧ loop (self s) = None
  ∧ bus_watch_id (self s) = 0
  ∧ reconnect_timeout_id (self s) = 0.
Proof.
  apply (X15_main_releases happy
           ["rtsp-dash-streamer"; "rtsp://camera/stream"; "/tmp/dash"]
           [PadAdded (StreamPad 1 0) video_caps; Signal] 0).
  vm_compute. reflexivity.
Defined.

(** ** Routing and termination over a whole session *)

(** X16.  Until the live source exposes an RTP video pad, the selector stays
    on the fallback pad whatever else happens: state changes of the live
    source (a report of [PLAYING] included), errors, reconnect timers, other
    pads, clock ticks.  No live pad is stored and no grace timer is pending,
    so the switch to the live branch has nothing to switch to. *)
Theorem X16_fallback_until_video E (uri output : string) (evs : list Event)
    (s1 s2 : State) :
  initialize E (fresh uri output) = (true, s1) →
  start_prelude E s1 = (true, s2) →
  existsb exposes_video evs = false →
  let s := exec (g_main_loop_run E evs) s2 in
  is_Some (fallback_pad s)
  ∧ w_active_pad (world s) = fallback_pad s
  ∧ live_pad s = None
  ∧ filter (λ src, is_grace_timer src) (w_sources (world s)) = [].
Proof.
  intros Hinit Hstart Hevs s.
  destruct (g_main_loop_run_fallback_only E evs s2 Hevs
              (session_fallback_only E uri output s1 s2 Hinit Hstart))
    as (sel & p & Hsel & Hd & Hl & Ha & Hg).
  fold s in Hsel, Hd, Hl, Ha, Hg.
  unfold fallback_pad, live_pad. rewrite !(selector_data_lookup _ sel s Hsel), Hd, Hl, Ha.
  split_and!; [by eexists | done | done |]. by apply filter_none.
Qed.

(** X16, witness: the live source reports [PLAYING], exposes an audio pad,
    fails, and is reset by its reconnect timer. *)
Lemma X16_fallback_until_video_witness :
  let s := exec (g_main_loop_run happy
                   [BusMessage (GST_MESSAGE_STATE_CHANGED (Some 1)
                                  GST_STATE_PAUSED GST_STATE_PLAYING);
                    PadAdded (StreamPad 1 1) audio_caps;
                    BusMessage (GST_MESSAGE_ERROR (Some 1));
                    Second; Second; Second; Second; Second;
                    TimeoutReady 2]) booted in
  is_Some (fallback_pad s)
  ∧ w_active_pad (world s) = fallback_pad s
  ∧ live_pad s = None
  ∧ filter (λ src, is_grace_timer src) (w_sources (world s)) = [].
Proof.
  apply (X16_fallback_until_video happy "rtsp://camera/stream" "/tmp/dash" _
           (exec (initialize happy) (fresh "rtsp://camera/stream" "/tmp/dash"))
           booted); vm_compute; reflexivity.
Defined.

(** X17.  The main loop is asked to quit only by a signal, by the end of the
    stream, or by an error that something other than the live source
    posted: over any run of other events (errors and state changes of the
    live source, new pads, timers) the quit flag keeps its value.  And each
    of those three does ask the loop to quit, once the loop exists and, for
    the two bus messages, while the bus watch is attached. *)
Theorem X17_what_ends_a_session E (evs : list Event) (s : State) :
  (existsb (ends_session (rtsp_src (self s))) evs = false →
   w_quit (world (exec (g_main_loop_run E evs) s)) = w_quit (world s))
  ∧ (∀ ev, ends_session (rtsp_src (self s)) ev = true →
       loop (self s) ≠ None →
       (ev ≠ Signal → existsb is_bus_watch (w_sources (world s)) = true) →
       w_quit (world (exec (dispatch E ev) s)) = true).
Proof.
  split.
  - intros Hevs. by apply g_main_loop_run_quit.
  - intros ev Hev Hloop Hwatch.
    destruct (loop (self s)) as [l|] eqn:Hl; [| done].
    assert (w_quit (world (exec stop s)) = true) as Hstop
      by (run; rewrite Hl; by run).
    destruct ev as [[src|src|src o n|src]|pad caps| |id| |]; try done;
      specialize (Hwatch ltac:(done)).
    + cbn [ends_session] in Hev. apply negb_true_iff, bool_decide_eq_false in Hev.
      cbn [dispatch]. unfold dispatch_bus. rewrite exec_bind.
      change (eval (observe ?f) s) with (f (world s)). cbv beta. rewrite Hwatch.
      change (exec (observe ?f) s) with s.
      rewrite exec_bind, handle_bus_message_true.
      change (exec (mret tt) ?x) with x.
      by rewrite handle_error_exec, decide_False.
    + cbn [dispatch]. unfold dispatch_bus. rewrite exec_bind.
      change (eval (observe ?f) s) with (f (world s)). cbv beta. rewrite Hwatch.
      change (exec (observe ?f) s) with s.
      rewrite exec_bind, handle_bus_message_true.
      change (exec (mret tt) ?x) with x.
      unfold handle_bus_message. by rewrite exec_bind.
Qed.

(** ** Fields that are written and never read *)

(** X18.  Four fields of the object are written and never read:
    [is_rtsp_connected], [tee_linked], [dash_sink_fullhd] and
    [dash_sink_hd].  Started from two states that differ in nothing else,
    [initialize], [start] with its whole main loop, every single event and
    [cleanup] return the same value, leave the same world (calls made,
    active pad, sources, quit flag) and the same other fields: no decision of
    the program depends on the recorded connection state. *)
Theorem X18_unread_fields E (evs : list Event) :
  blind (initialize E)
  ∧ blind (start E evs)
  ∧ (∀ ev, blind (dispatch E ev))
  ∧ blind (cleanup E).
Proof.
  split_and!.
  - apply initialize_blind.
  - apply start_blind.
  - apply dispatch_blind.
  - apply cleanup_blind.
Qed.
